(** * s6prog: JTAG protocol engine of the Spartan-6 programmer

    A shallow embedding of [src/s6prog.c]: the command buffer, the TAP
    transition encoders, the byte- and bit-mode shift encoders, the bounded
    receive loop, the chunked data-register transfer and the small helpers
    around them.

    Conventions.
    - [unsigned char] values are [Z] in [0, 256); a store of an [int]
      expression into an [unsigned char] is written [to_uchar].
    - [int] values are [Z].  Signed overflow is undefined in C and is not
      reached for the ranges the theorems speak about, so it is not wrapped.
    - C's [/] truncates toward zero: [Z.quot].
    - [jtag_buf]/[jtag_buf_i] are modelled by the list of the cells
      [jtag_buf[0 .. jtag_buf_i-1]]; [jtag_buf[jtag_buf_i++] = b] is a snoc.
      The code never compares [jtag_buf_i] with [JTAG_BUFFER_SIZE]; an index
      at or above it is a store outside the allocated block.
    - the libftdi calls are a [transport] record of two functions over an
      abstract device state.  The general theorems hold for an arbitrary
      one; evaluations at a concrete input use one of two doubles, a
      scripted device and the bridge chip with TDO wired to TDI.
    - a ghost [trace] in the state records, in program order, the encoders
      called and the calls that reached the transport. *)

From Stdlib Require Import ZArith List Bool Lia.
Import ListNotations.
Local Open Scope Z_scope.

(** ** Constants *)

Module Mpsse.
(** Shifting command bits, as listed in the header comment of the source. *)
Definition WRITE_NEG : Z := 0x01.
Definition BITMODE   : Z := 0x02.
Definition READ_NEG  : Z := 0x04.
Definition LSB       : Z := 0x08.
Definition DO_WRITE  : Z := 0x10.
Definition DO_READ   : Z := 0x20.
Definition WRITE_TMS : Z := 0x40.
End Mpsse.

Definition DATA_CLK_BITS : Z := 0x8e.

Definition JTAG_BUFFER_SIZE : Z := 1024 * 1024.
Definition JTAG_CHUNK_SIZE : Z := 0x8000.
Definition JTAG_RECV_ATTEMPTS : Z := 20.

(** Conversion to [unsigned char]. *)
Definition to_uchar (x : Z) : Z := x mod 256.

(** A C condition: nonzero is true. *)
Definition c_true (x : Z) : bool := negb (x =? 0).

(** ** bit_swap *)

(** [bit_swap]: three in-place assignments to [*c]. *)
Definition bit_swap (c : Z) : Z :=
  let c1 := to_uchar (Z.lor (Z.shiftr (Z.land c 0xf0) 4) (Z.shiftl (Z.land c 0x0f) 4)) in
  let c2 := to_uchar (Z.lor (Z.shiftr (Z.land c1 0xcc) 2) (Z.shiftl (Z.land c1 0x33) 2)) in
  to_uchar (Z.lor (Z.shiftr (Z.land c2 0xaa) 1) (Z.shiftl (Z.land c2 0x55) 1)).

(** ** The bit split of jtag_dr_op *)

(** [bytes_remaining = (n - 1) / 8]. *)
Definition whole_bytes (n : Z) : Z := Z.quot (n - 1) 8.

(** [bits_remaining = n - (bytes_remaining * 8)]. *)
Definition tail_bits (n : Z) : Z := n - whole_bytes n * 8.

(** ** Memory seen through a pointer *)

(** An array reached through an [unsigned char *]: cell [k] is [p[k]].
    Indices are [Z] because [jtag_recv] moves its pointer by whatever the
    transport returns, which may be negative. *)
Definition mem : Type := Z -> Z.

(** [&p[i]]. *)
Definition shift_ptr (p : mem) (i : Z) : mem := fun k => p (i + k).

(** [p[i] = v]. *)
Definition upd (p : mem) (i v : Z) : mem :=
  fun k => if k =? i then v else p k.

(** The cells [p[off .. off + length bytes - 1]] overwritten by [bytes]. *)
Definition write_at (p : mem) (off : Z) (bytes : list Z) : mem :=
  fun k =>
    if (off <=? k) && (k <? off + Z.of_nat (length bytes))
    then nth (Z.to_nat (k - off)) bytes 0
    else p k.

(** ** Transport: the two libftdi calls the engine makes *)

(** [ftdi_write_data dev buf] returns the library's [int] result and the
    next device state.  [ftdi_read_data dev size] returns the [int] result,
    the bytes it stored at the start of the caller's buffer, and the next
    device state. *)
Record transport (T : Type) : Type := Transport {
  ftdi_write_data : T -> list Z -> Z * T;
  ftdi_read_data : T -> Z -> Z * list Z * T
}.
Arguments Transport {T} _ _.
Arguments ftdi_write_data {T} _ _ _.
Arguments ftdi_read_data {T} _ _ _.

(** ** Ghost trace *)

(** What the engine did, in program order: the encoders that were called
    and every call that reached the transport. *)
Inductive event : Type :=
| EvShiftBytes (n : Z) (do_read : bool)
| EvShiftBits (n : Z) (do_read : bool)
| EvWrite (bytes : list Z) (ret : Z)
| EvRead (size ret : Z) (bytes : list Z)
| EvRecv (n remaining : Z).

(** ** Engine state: the globals [jtag_buf], [jtag_buf_i] and [ftdi] *)

Record jtag (T : Type) : Type := Jtag {
  jtag_buf : list Z;
  ftdi : T;
  trace : list event
}.
Arguments Jtag {T} _ _ _.
Arguments jtag_buf {T} _.
Arguments ftdi {T} _.
Arguments trace {T} _.

Definition jtag_buf_i {T} (s : jtag T) : Z := Z.of_nat (length (jtag_buf s)).

(** [jtag_buf[jtag_buf_i++] = b]. *)
Definition put {T} (b : Z) (s : jtag T) : jtag T :=
  Jtag (jtag_buf s ++ [to_uchar b]) (ftdi s) (trace s).

Definition puts {T} (bs : list Z) (s : jtag T) : jtag T :=
  fold_left (fun acc b => put b acc) bs s.

Definition note {T} (e : event) (s : jtag T) : jtag T :=
  Jtag (jtag_buf s) (ftdi s) (trace s ++ [e]).

(** The store stayed inside the block [malloc(JTAG_BUFFER_SIZE)]. *)
Definition in_block {T} (s : jtag T) : Prop := jtag_buf_i s <= JTAG_BUFFER_SIZE.

(** ** TAP transitions *)

Definition TMS_OPCODE : Z :=
  Z.lor (Z.lor (Z.lor Mpsse.WRITE_TMS Mpsse.LSB) Mpsse.BITMODE) Mpsse.WRITE_NEG.

Definition jtag_to_tlr {T} (s : jtag T) : jtag T :=
  put 0x9f (put 4 (put TMS_OPCODE s)).

Definition jtag_tlr_to_rti {T} (s : jtag T) : jtag T :=
  put 0x80 (put 0 (put TMS_OPCODE s)).

Definition jtag_rti_to_shift_ir {T} (s : jtag T) : jtag T :=
  put 0x83 (put 3 (put TMS_OPCODE s)).

Definition jtag_rti_to_shift_dr {T} (s : jtag T) : jtag T :=
  put 0x81 (put 2 (put TMS_OPCODE s)).

Definition jtag_exit1_ir_to_rti {T} (s : jtag T) : jtag T :=
  put 0x81 (put 1 (put TMS_OPCODE s)).

Definition jtag_exit1_dr_to_rti {T} (s : jtag T) : jtag T :=
  put 0x81 (put 1 (put TMS_OPCODE s)).

(** The six transitions, by the names the specification gives them. *)
Inductive tap_op : Type :=
| forceReset | resetToIdle | idleToShiftIR | idleToShiftDR
| exit1IRToIdle | exit1DRToIdle.

Definition tap_run {T} (op : tap_op) : jtag T -> jtag T :=
  match op with
  | forceReset => jtag_to_tlr
  | resetToIdle => jtag_tlr_to_rti
  | idleToShiftIR => jtag_rti_to_shift_ir
  | idleToShiftDR => jtag_rti_to_shift_dr
  | exit1IRToIdle => jtag_exit1_ir_to_rti
  | exit1DRToIdle => jtag_exit1_dr_to_rti
  end.

(** Reading a TMS-sequence unit [opcode; count; data] back: the bits the
    bridge clocks out on TMS, first transmitted first ([count + 1] bits,
    taken from bit 0 of [data] upward), and the level held on the data
    line (bit 7 of [data]). *)
Definition tms_bits (count data : Z) : list bool :=
  map (fun k => Z.testbit data (Z.of_nat k)) (seq 0 (Z.to_nat (count + 1))).

Definition tms_data_level (data : Z) : bool := Z.testbit data 7.

(** ** Shift encoders *)

Definition flag (b : bool) (f : Z) : Z := if b then f else 0.

Definition is_some {A} (o : option A) : bool :=
  match o with Some _ => true | None => false end.

(** [jtag_shift_bytes(tdi, n, do_read)]. *)
Definition jtag_shift_bytes {T} (tdi : option mem) (n : Z) (do_read : bool)
    (s : jtag T) : jtag T :=
  let cmd := Z.lor (Z.lor Mpsse.LSB
                      (flag (is_some tdi) (Z.lor Mpsse.DO_WRITE Mpsse.WRITE_NEG)))
                   (flag do_read Mpsse.DO_READ) in
  let s := put cmd s in
  let s := put (Z.land (n - 1) 0xff) s in
  let s := put (Z.land (Z.shiftr (n - 1) 8) 0xff) s in
  let s := match tdi with
           | Some p => puts (map (fun i => p (Z.of_nat i)) (seq 0 (Z.to_nat n))) s
           | None => s
           end in
  note (EvShiftBytes n do_read) s.

(** [jtag_shift_bits(tdi, n, do_read)]. *)
Definition jtag_shift_bits {T} (tdi : option mem) (n : Z) (do_read : bool)
    (s : jtag T) : jtag T :=
  let s :=
    if n >? 1 then
      let cmd := Z.lor (Z.lor (Z.lor Mpsse.BITMODE Mpsse.LSB)
                          (flag (is_some tdi) (Z.lor Mpsse.DO_WRITE Mpsse.WRITE_NEG)))
                       (flag do_read Mpsse.DO_READ) in
      let s := put cmd s in
      let s := put (n - 2) s in
      match tdi with
      | Some p => put (Z.land (p 0) (Z.shiftl 1 (n - 1) - 1)) s
      | None => s
      end
    else s in
  let cmd := Z.lor (Z.lor (Z.lor (Z.lor Mpsse.WRITE_TMS Mpsse.BITMODE) Mpsse.LSB)
                      Mpsse.WRITE_NEG)
                   (flag do_read Mpsse.DO_READ) in
  let s := put cmd s in
  let s := put 0 s in
  let s := match tdi with
           | Some p => put (if c_true (Z.land (p 0) (Z.shiftl 1 (n - 1))) then 0x81 else 0x01) s
           | None => put 0x01 s
           end in
  note (EvShiftBits n do_read) s.

(** ** Functions that reach the transport *)

(** How the chunk loop of [jtag_dr_op] is left: by one of its [return 1]
    statements, or by its condition becoming false. *)
Inductive loop_exit (T : Type) : Type :=
| LoopReturn (ret : Z) (tdo : option mem) (s : jtag T)
| LoopDone (chunk_length tdi_i tdo_i : Z) (tdo : option mem) (s : jtag T).
Arguments LoopReturn {T} _ _ _.
Arguments LoopDone {T} _ _ _ _ _.

Section Engine.
Context {T : Type}.
(** The device behind [ftdi], and the unspecified initial contents of
    the local arrays ([rbuf[2]] in [jtag_recv_bits], [buf[2]] in
    [jtag_mpsse_sync]). *)
Variable tp : transport T.
Variable uninit : mem.

(** [jtag_send()]. *)
Definition jtag_send (s : jtag T) : Z * jtag T :=
  if jtag_buf_i s <? 1 then (1, s)
  else
    let '(l, dev) := ftdi_write_data tp (ftdi s) (jtag_buf s) in
    let s1 := Jtag (jtag_buf s) dev (trace s ++ [EvWrite (jtag_buf s) l]) in
    if negb (l =? jtag_buf_i s) then (1, s1)
    else (0, Jtag [] dev (trace s1)).

(** The [while] loop of [jtag_recv].  [rbuf] is [None] for a null
    pointer and [Some off] for [&p[off]]; [None] as a result means the
    fuel ran out before the loop was left. *)
Fixpoint jtag_recv_loop (fuel : nat) (p : mem) (rbuf : option Z) (n timeout : Z)
    (s : jtag T) : option (Z * mem * jtag T) :=
  if n >? 0 then
    match fuel with
    | O => None
    | S fuel' =>
        let size := match rbuf with Some _ => n | None => 32 end in
        let '(ret, bytes, dev) := ftdi_read_data tp (ftdi s) size in
        let p1 := match rbuf with Some off => write_at p off bytes | None => p end in
        let rbuf1 := match rbuf with Some off => Some (off + ret) | None => None end in
        let s1 := Jtag (jtag_buf s) dev (trace s ++ [EvRead size ret bytes]) in
        let n1 := n - ret in
        if timeout <=? 0 then Some (n1, p1, s1)
        else jtag_recv_loop fuel' p1 rbuf1 n1 (timeout - 1) s1
    end
  else Some (n, p, s).

(** [jtag_recv(rbuf, n)]; the fuel given is never used up
    ([jtag_recv_loop_total] below). *)
Definition jtag_recv (p : mem) (rbuf : option Z) (n : Z) (s : jtag T)
    : Z * mem * jtag T :=
  match jtag_recv_loop (S (Z.to_nat JTAG_RECV_ATTEMPTS)) p rbuf n JTAG_RECV_ATTEMPTS s with
  | Some (rest, p1, s1) => (rest, p1, note (EvRecv n rest) s1)
  | None => (n, p, s)
  end.

(** The value [jtag_recv_bits] stores into [*tdo]. *)
Definition recv_bits_value (rbuf : mem) (n : Z) : Z :=
  if n >? 1 then
    to_uchar (Z.shiftr (Z.lor (Z.land (rbuf 1) 0x80) (Z.shiftr (rbuf 0) 1)) (8 - n))
  else
    to_uchar (Z.shiftr (Z.land (rbuf 0) 0x80) 7).

(** [jtag_recv_bits(tdo, n)], with [tdo = &p[off]]. *)
Definition jtag_recv_bits (p : mem) (off : Z) (n : Z) (s : jtag T)
    : Z * mem * jtag T :=
  if (n <? 1) || (n >? 8) then (1, p, s)
  else
    let '(r, rbuf, s1) := jtag_recv uninit (Some 0) (if n >? 1 then 2 else 1) s in
    if c_true r then (1, p, s1)
    else (0, upd p off (recv_bits_value rbuf n), s1).

(** The [while(bytes_remaining > 0)] loop of [jtag_dr_op]. *)
Fixpoint dr_chunks (fuel : nat) (tdi tdo : option mem)
    (bytes_remaining chunk_length tdi_i tdo_i : Z) (s : jtag T)
    : option (loop_exit T) :=
  if bytes_remaining >? 0 then
    match fuel with
    | O => None
    | S fuel' =>
        let chunk_length :=
          if bytes_remaining >? JTAG_CHUNK_SIZE then JTAG_CHUNK_SIZE
          else bytes_remaining in
        let s1 := jtag_shift_bytes (option_map (fun p => shift_ptr p tdi_i) tdi)
                    chunk_length (is_some tdo) s in
        let tdi_i1 := if is_some tdi then tdi_i + chunk_length else tdi_i in
        let bytes_remaining1 := bytes_remaining - chunk_length in
        if bytes_remaining1 >? 0 then
          let '(r, s2) := jtag_send s1 in
          if c_true r then Some (LoopReturn 1 tdo s2)
          else
            match tdo with
            | Some p =>
                let '(r2, p1, s3) := jtag_recv p (Some tdo_i) chunk_length s2 in
                if c_true r2 then Some (LoopReturn 1 (Some p1) s3)
                else dr_chunks fuel' tdi (Some p1) bytes_remaining1 chunk_length
                       tdi_i1 (tdo_i + chunk_length) s3
            | None =>
                dr_chunks fuel' tdi None bytes_remaining1 chunk_length
                  tdi_i1 tdo_i s2
            end
        else
          dr_chunks fuel' tdi tdo bytes_remaining1 chunk_length tdi_i1 tdo_i s1
    end
  else Some (LoopDone chunk_length tdi_i tdo_i tdo s).

(** What follows the loop in [jtag_dr_op]. *)
Definition dr_finish (tdi : option mem) (bits_remaining : Z)
    (chunk_length tdi_i tdo_i : Z) (tdo : option mem) (s : jtag T)
    : Z * option mem * jtag T :=
  let s1 := if bits_remaining >? 0
            then jtag_shift_bits (option_map (fun p => shift_ptr p tdi_i) tdi)
                   bits_remaining (is_some tdo) s
            else s in
  let s2 := jtag_exit1_dr_to_rti s1 in
  let '(r, s3) := jtag_send s2 in
  if c_true r then (1, tdo, s3)
  else
    match tdo with
    | None => (0, None, s3)
    | Some p =>
        let '(r1, p1, s4) :=
          if chunk_length >? 0
          then jtag_recv p (Some tdo_i) chunk_length s3
          else (0, p, s3) in
        if c_true r1 then (1, Some p1, s4)
        else
          let tdo_i1 := if chunk_length >? 0 then tdo_i + chunk_length else tdo_i in
          if bits_remaining >? 0 then
            let '(r2, p2, s5) := jtag_recv_bits p1 tdo_i1 bits_remaining s4 in
            if c_true r2 then (1, Some p2, s5)
            else (0, Some p2, s5)
          else (0, Some p1, s4)
    end.

(** [jtag_dr_op(tdi, tdo, n)].  The chunk loop removes at least one byte
    per round, so [bytes_remaining] rounds of fuel are enough
    ([dr_chunks_total] below) and the last branch is never taken. *)
Definition jtag_dr_op (tdi tdo : option mem) (n : Z) (s : jtag T)
    : Z * option mem * jtag T :=
  if negb (is_some tdi) && negb (is_some tdo) then (1, tdo, s)
  else
    let s1 := jtag_rti_to_shift_dr s in
    let bytes_remaining := whole_bytes n in
    let bits_remaining := tail_bits n in
    match dr_chunks (Z.to_nat bytes_remaining) tdi tdo bytes_remaining 0 0 0 s1 with
    | Some (LoopReturn r tdo1 s2) => (r, tdo1, s2)
    | Some (LoopDone chunk_length tdi_i tdo_i tdo1 s2) =>
        dr_finish tdi bits_remaining chunk_length tdi_i tdo_i tdo1 s2
    | None => (1, tdo, s1)
    end.

(** [jtag_ir_write(instruction)]. *)
Definition jtag_ir_write (instruction : Z) (s : jtag T) : jtag T :=
  jtag_exit1_ir_to_rti
    (jtag_shift_bits (Some (fun _ => to_uchar instruction)) 6 false
       (jtag_rti_to_shift_ir s)).

(** [jtag_rti_spin()]; the result of its [jtag_send()] is dropped. *)
Definition jtag_rti_spin (s : jtag T) : jtag T :=
  let s1 := put 0x80 (put 0 (put TMS_OPCODE s)) in
  let s2 := puts (concat (repeat [DATA_CLK_BITS; 7] 128)) s1 in
  snd (jtag_send s2).

(** [jtag_mpsse_sync()]; the result of its [jtag_send()] is dropped. *)
Definition jtag_mpsse_sync (s : jtag T) : Z * jtag T :=
  let s1 := put 0xaa s in
  let s2 := snd (jtag_send s1) in
  let '(ret, buf, s3) := jtag_recv uninit (Some 0) 2 s2 in
  (Z.lor (Z.lor ret (Z.b2z (negb (buf 0 =? 0xfa)))) (Z.b2z (negb (buf 1 =? 0xaa))), s3).

End Engine.

(** ** Transport doubles *)

(** A scripted device: each write takes its result from the first list
    (and accepts everything once the list is used up), each read takes its
    result and bytes from the second (and returns nothing once it is used
    up). *)
Module Scripted.
Definition dev : Type := (list Z * list (Z * list Z))%type.

Definition write (d : dev) (bytes : list Z) : Z * dev :=
  match fst d with
  | r :: ws => (r, (ws, snd d))
  | [] => (Z.of_nat (length bytes), d)
  end.

Definition read (d : dev) (size : Z) : Z * list Z * dev :=
  match snd d with
  | (ret, bytes) :: rs => (ret, bytes, (fst d, rs))
  | [] => (0, [], d)
  end.

Definition tp : transport dev := Transport write read.

Definition start (d : dev) : jtag dev := Jtag [] d [].
End Scripted.

(** The bridge chip with TDO wired to TDI.  Command formats and flag bits
    are those of the header comment of the source; the capture register
    takes each sampled bit in at bit 7 and moves the earlier ones down, as
    the comment in [jtag_recv_bits] says ("bits are shifted in from the
    left (MSB)"); [0xaa] and [0xab] are the bridge's bad commands, answered
    by [0xfa] and the offending byte. *)
Module Bridge.
Definition has (f op : Z) : bool := negb (Z.land op f =? 0).

Definition shift_in (reg : Z) (bit : bool) : Z :=
  Z.lor (Z.shiftr reg 1) (if bit then 0x80 else 0).

Definition capture (bits : list bool) : Z := fold_left shift_in bits 0.

(** The [count + 1] bits of [data], bit 0 first. *)
Definition data_bits (count data : Z) : list bool :=
  map (fun k => Z.testbit data (Z.of_nat k)) (seq 0 (Z.to_nat (count + 1))).

Definition when (b : bool) (l : list Z) : list Z := if b then l else [].

Fixpoint reply (fuel : nat) (cmds : list Z) : list Z :=
  match fuel, cmds with
  | S fuel', op :: rest =>
      if Z.testbit op 7 then
        if (op =? 0xaa) || (op =? 0xab) then [0xfa; op] ++ reply fuel' rest
        else if op =? DATA_CLK_BITS then reply fuel' (skipn 1 rest)
        else []
      else if has Mpsse.WRITE_TMS op then
        match rest with
        | count :: data :: rest' =>
            when (has Mpsse.DO_READ op)
              [capture (repeat (Z.testbit data 7) (Z.to_nat (count + 1)))]
            ++ reply fuel' rest'
        | _ => []
        end
      else if has Mpsse.BITMODE op then
        match rest with
        | count :: rest' =>
            let data := if has Mpsse.DO_WRITE op then nth 0 rest' 0 else 0 in
            when (has Mpsse.DO_READ op) [capture (data_bits count data)]
            ++ reply fuel' (if has Mpsse.DO_WRITE op then skipn 1 rest' else rest')
        | _ => []
        end
      else
        match rest with
        | lo :: hi :: rest' =>
            let n := Z.to_nat (lo + 256 * hi + 1) in
            if has Mpsse.DO_WRITE op then
              when (has Mpsse.DO_READ op) (firstn n rest') ++ reply fuel' (skipn n rest')
            else
              when (has Mpsse.DO_READ op) (repeat 0 n) ++ reply fuel' rest'
        | _ => []
        end
  | _, _ => []
  end.

(** Device state: the reply bytes not yet read. *)
Definition dev : Type := list Z.

Definition write (d : dev) (bytes : list Z) : Z * dev :=
  (Z.of_nat (length bytes), d ++ reply (length bytes) bytes).

Definition read (d : dev) (size : Z) : Z * list Z * dev :=
  let got := firstn (Z.to_nat size) d in
  (Z.of_nat (length got), got, skipn (Z.to_nat size) d).

Definition tp : transport dev := Transport write read.

Definition start : jtag dev := Jtag [] [] [].
End Bridge.

(** ** The tail path, end to end *)

(** The formula as section 4.3, step 7 of the specification words it: the
    realignment of the one or two reply bytes of the tail. *)
Definition realign (firstByte secondByte tailBits : Z) : Z :=
  if tailBits >? 1 then
    Z.shiftr (Z.lor (Z.land secondByte 0x80) (Z.shiftr firstByte 1)) (8 - tailBits)
  else
    Z.shiftr (Z.land firstByte 0x80) 7.

(** The commands [jtag_shift_bits] encodes for the low [n] bits of [v],
    capturing. *)
Definition tail_commands (v n : Z) : list Z :=
  jtag_buf (jtag_shift_bits (Some (fun _ => v)) n true Bridge.start).

(** Encode the tail of [v], flush it to the looped-back bridge, and decode
    the reply with [jtag_recv_bits] into cell 0 of a zeroed array. *)
Definition tail_round_trip (uninit : mem) (v n : Z) : Z * Z :=
  let s1 := jtag_shift_bits (Some (fun _ => v)) n true Bridge.start in
  let s2 := snd (jtag_send Bridge.tp s1) in
  let '(r, p, _) := jtag_recv_bits Bridge.tp uninit (fun _ => 0) 0 n s2 in
  (r, p 0).

(** ** Reference definitions the theorems compare the code with *)

(** The bit-reversal permutation of a byte: bit [i] of the result is bit
    [7 - i] of the argument. *)
Definition bit_reverse_ref (b : Z) : Z :=
  fold_left (fun acc i => Z.lor acc (Z.shiftl (Z.b2z (Z.testbit b (7 - i))) i))
    [0; 1; 2; 3; 4; 5; 6; 7] 0.

(** The TMS pattern the specification's table gives for each transition,
    first transmitted bit first. *)
Definition spec_tms_pattern (op : tap_op) : list bool :=
  match op with
  | forceReset => [true; true; true; true; true]
  | resetToIdle => [false]
  | idleToShiftIR => [true; true; false; false]
  | idleToShiftDR => [true; false; false]
  | exit1IRToIdle => [false; true]
  | exit1DRToIdle => [false; true]
  end.

(** The TMS pattern each transition of the code transmits. *)
Definition code_tms_pattern (op : tap_op) : list bool :=
  match op with
  | forceReset => [true; true; true; true; true]
  | resetToIdle => [false]
  | idleToShiftIR => [true; true; false; false]
  | idleToShiftDR => [true; false; false]
  | exit1IRToIdle => [true; false]
  | exit1DRToIdle => [true; false]
  end.

(** A boolean check of every integer in [0, n). *)
Definition all_below (n : Z) (f : Z -> bool) : bool :=
  forallb f (map Z.of_nat (seq 0 (Z.to_nat n))).

(** Equality of two byte lists as a boolean. *)
Fixpoint forallb2_eq (l1 l2 : list Z) : bool :=
  match l1, l2 with
  | [], [] => true
  | a :: l1', b :: l2' => (a =? b) && forallb2_eq l1' l2'
  | _, _ => false
  end.

(** ** Sequences of appends *)

(** The encoders that append to the command buffer. *)
Inductive append_op : Type :=
| ApTap (op : tap_op)
| ApBytes (tdi : option mem) (n : Z) (do_read : bool)
| ApBits (tdi : option mem) (n : Z) (do_read : bool).

Definition append_run {T} (a : append_op) (s : jtag T) : jtag T :=
  match a with
  | ApTap op => tap_run op s
  | ApBytes tdi n do_read => jtag_shift_bytes tdi n do_read s
  | ApBits tdi n do_read => jtag_shift_bits tdi n do_read s
  end.

Definition appends_run {T} (l : list append_op) (s : jtag T) : jtag T :=
  fold_left (fun acc a => append_run a acc) l s.

(** The number of bytes each encoder appends. *)
Definition append_size (a : append_op) : Z :=
  match a with
  | ApTap _ => 3
  | ApBytes tdi n _ => 3 + (if is_some tdi then Z.max 0 n else 0)
  | ApBits tdi n _ => (if n >? 1 then 2 + (if is_some tdi then 1 else 0) else 0) + 3
  end.

Definition appends_size (l : list append_op) : Z :=
  fold_right (fun a acc => append_size a + acc) 0 l.

(** ** The trace of one call *)

(** The events a call added: the trace after it, without the trace before. *)
Definition new_events {T} (before after : jtag T) : list event :=
  skipn (length (trace before)) (trace after).

(** The bytes the transport handed over in its reads. *)
Definition read_bytes (tr : list event) : list Z :=
  flat_map (fun e => match e with EvRead _ _ bytes => bytes | _ => [] end) tr.

Definition is_read (e : event) : Prop :=
  match e with EvRead _ _ _ => True | _ => False end.

(** The number of reads in a trace. *)
Definition count_reads (tr : list event) : nat :=
  length (filter (fun e => match e with EvRead _ _ _ => true | _ => false end) tr).

(** A transport whose reads never report an error: each returns between 0
    and [size] bytes and its result is their number. *)
Definition reads_ok {T} (tp : transport T) : Prop :=
  forall (d : T) (size : Z),
    0 < size ->
    0 <= fst (fst (ftdi_read_data tp d size)) <= size
    /\ Z.of_nat (length (snd (fst (ftdi_read_data tp d size))))
       = fst (fst (ftdi_read_data tp d size)).

(** ** The chunk discipline as a monitor of the trace *)

(** Where the whole-byte transfer stands: no chunk outstanding; a chunk of
    [len] bytes encoded and not yet flushed; flushed and, when capturing,
    its reply not yet received; the operation given up after a transport
    failure; or the discipline broken. *)
Inductive chunk_state : Type :=
| NoChunk
| Encoded (len : Z)
| Flushed (len : Z)
| Aborted
| Violation.

Definition chunk_step (capture : bool) (st : chunk_state) (e : event) : chunk_state :=
  match st, e with
  | Violation, _ => Violation
  | NoChunk, EvShiftBytes len rd =>
      if (1 <=? len) && (len <=? JTAG_CHUNK_SIZE) && Bool.eqb rd capture
      then Encoded len else Violation
  | _, EvShiftBytes _ _ => Violation
  | Encoded len, EvWrite bytes ret =>
      if ret =? Z.of_nat (length bytes)
      then (if capture then Flushed len else NoChunk)
      else Aborted
  | Flushed len, EvRecv n r =>
      if n =? len then (if r =? 0 then NoChunk else Aborted) else Violation
  | Flushed _, EvWrite _ _ => Violation
  | Flushed _, EvShiftBits _ _ => Violation
  | _, _ => st
  end.

Definition chunk_run (capture : bool) (st : chunk_state) (tr : list event)
    : chunk_state :=
  fold_left (chunk_step capture) tr st.



Definition zsum (l : list Z) : Z := fold_right Z.add 0 l.

(** The lengths of the byte-mode commands in a trace. *)
Definition chunk_lengths (tr : list event) : list Z :=
  flat_map (fun e => match e with EvShiftBytes n _ => [n] | _ => [] end) tr.

(** The shift commands of a trace, in the order they were encoded. *)
Definition shifts (tr : list event) : list event :=
  filter (fun e => match e with
                   | EvShiftBytes _ _ | EvShiftBits _ _ => true
                   | _ => false
                   end) tr.

(** ** The rest of the session: spinning, the ID code, the bitstream *)

Definition JTAG_INSTR_IDCODE : Z := 0x09.
Definition FDATA_SIZE : Z := 16 * 1024 * 1024.

(** Conversion to a 32-bit [int], two's complement. *)
Definition to_int (x : Z) : Z := (x + 2 ^ 31) mod 2 ^ 32 - 2 ^ 31.

(** [(buf[3] << 24) | (buf[2] << 16) | (buf[1] << 8) | buf[0]], stored in
    an [int]. *)
Definition idcode_of (buf : mem) : Z :=
  to_int (Z.lor (Z.lor (Z.lor (Z.shiftl (buf 3) 24) (Z.shiftl (buf 2) 16))
                   (Z.shiftl (buf 1) 8))
            (buf 0)).

(** The test [main] makes of the ID code:
    [(idcode & 0x001fffff) != 0x00008093] means a foreign device. *)
Definition is_xilinx (idcode : Z) : bool :=
  Z.land idcode 0x001fffff =? 0x00008093.

Section Session.
Context {T : Type}.
Variable tp : transport T.
Variable uninit : mem.

(** [for(i = 0; i < k; i++) jtag_rti_spin();], the delay loops of [main]. *)
Definition rti_spins (k : nat) (s : jtag T) : jtag T :=
  Nat.iter k (jtag_rti_spin tp) s.

(** [jtag_get_idcode(idcode)]: the result, the new [*idcode] and the state.
    [buf[4]] is a local array; [jtag_dr_op] hands back the array it was
    given, so the last branch of the inner [match] is never taken. *)
Definition jtag_get_idcode (idcode : Z) (s : jtag T) : Z * Z * jtag T :=
  let s1 := jtag_ir_write JTAG_INSTR_IDCODE s in
  let '(r, buf, s2) := jtag_dr_op tp uninit None (Some uninit) 32 s1 in
  if c_true r then (1, idcode, s2)
  else (0, match buf with Some b => idcode_of b | None => idcode end, s2).

End Session.

(** The globals [fdata] and [flength]. *)
Record bitfile : Type := Bitfile {
  fdata : option mem;
  flength : Z
}.

(** The loop [for(i = 0; i < flength; i++) bit_swap(&fdata[i]);]. *)
Definition swap_all (p : mem) (len : Z) : mem :=
  fold_left (fun q i => upd q i (bit_swap (q i)))
    (map Z.of_nat (seq 0 (Z.to_nat len))) p.

(** [load_fdata(filename)].  [alloc] is what [malloc(FDATA_SIZE)] returns
    and [file] what the file holds, [None] when [fopen] fails; [fread]
    takes at most [FDATA_SIZE] bytes of it. *)
Definition load_fdata (alloc : option mem) (file : option (list Z)) (st : bitfile)
    : Z * bitfile :=
  let block := match fdata st with Some p => Some p | None => alloc end in
  match block with
  | None => (1, Bitfile None (flength st))
  | Some p =>
      match file with
      | None => (1, Bitfile (Some p) (flength st))
      | Some bytes =>
          let got := firstn (Z.to_nat FDATA_SIZE) bytes in
          let len := Z.of_nat (length got) in
          let p1 := write_at p 0 got in
          if (len <? 1) || (len >=? FDATA_SIZE) then (1, Bitfile (Some p1) len)
          else (0, Bitfile (Some (swap_all p1 len)) len)
      end
  end.

(** ** Predicates on traces *)

(** No call of [ftdi_read_data] and no [jtag_recv] in a trace. *)
Definition no_receive (tr : list event) : Prop :=
  Forall (fun e => match e with
                   | EvRead _ _ _ | EvRecv _ _ => False
                   | _ => True
                   end) tr.

(** The writes of a trace, in order. *)
Definition writes_of (tr : list event) : list (list Z * Z) :=
  flat_map (fun e => match e with EvWrite bytes ret => [(bytes, ret)] | _ => [] end) tr.

(** The bytes [jtag_rti_spin] appends: one TMS clock in run-test-idle, then
    128 clock-only commands of eight cycles each. *)
Definition spin_commands : list Z :=
  [TMS_OPCODE; 0; 0x80] ++ concat (repeat [DATA_CLK_BITS; 7] 128).

(** A device that always has as many bytes as it is asked for (zeros) and
    accepts every write. *)
Module Flood.
Definition dev : Type := unit.

Definition write (d : dev) (bytes : list Z) : Z * dev :=
  (Z.of_nat (length bytes), d).

Definition read (d : dev) (size : Z) : Z * list Z * dev :=
  (size, repeat 0 (Z.to_nat size), d).

Definition tp : transport dev := Transport write read.

Definition start : jtag dev := Jtag [] tt [].
End Flood.

(** An event of a transfer that went well: a write accepted in full, a
    receive that got everything, and reads only when capturing. *)
Definition clean (capture : bool) (e : event) : Prop :=
  match e with
  | EvWrite bytes ret => ret = Z.of_nat (length bytes)
  | EvRecv _ remaining => remaining = 0 /\ capture = true
  | EvRead _ _ _ => capture = true
  | _ => True
  end.

(** A device that is gone: every call reports an error. *)
Module Dead.
Definition dev : Type := unit.

Definition write (d : dev) (bytes : list Z) : Z * dev := (-1, d).

Definition read (d : dev) (size : Z) : Z * list Z * dev := (-1, [], d).

Definition tp : transport dev := Transport write read.

Definition start : jtag dev := Jtag [] tt [].
End Dead.

(** Every byte a read hands over is an [unsigned char]. *)
Definition bytes_ok {T} (tp : transport T) : Prop :=
  forall (d : T) (size : Z),
    Forall (fun b => 0 <= b < 256) (snd (fst (ftdi_read_data tp d size))).

(** The bytes [jtag_get_idcode] encodes: the IDCODE instruction, then a
    capture of 32 bits, three whole bytes and a tail of eight bits. *)
Definition idcode_commands : list Z :=
  [0x4b; 3; 0x83; 0x1b; 4; 0x09; 0x4b; 0; 0x01; 0x4b; 1; 0x81;
   0x4b; 2; 0x81; 0x28; 2; 0; 0x2a; 6; 0x6b; 0; 0x01; 0x4b; 1; 0x81].

(** The bytes [jtag_shift_bits] appends: for more than one bit a bit-mode
    unit for all but the last, then the one-bit TMS unit. *)
Definition tail_unit (tdi : option mem) (n : Z) (do_read : bool) : list Z :=
  (if n >? 1 then
     [to_uchar (Z.lor (Z.lor (Z.lor Mpsse.BITMODE Mpsse.LSB)
                         (flag (is_some tdi) (Z.lor Mpsse.DO_WRITE Mpsse.WRITE_NEG)))
                  (flag do_read Mpsse.DO_READ));
      to_uchar (n - 2)]
     ++ match tdi with
        | Some p => [to_uchar (Z.land (p 0) (Z.shiftl 1 (n - 1) - 1))]
        | None => []
        end
   else [])
  ++ [to_uchar (Z.lor (Z.lor (Z.lor (Z.lor Mpsse.WRITE_TMS Mpsse.BITMODE) Mpsse.LSB)
                         Mpsse.WRITE_NEG)
                  (flag do_read Mpsse.DO_READ));
      to_uchar 0;
      to_uchar match tdi with
               | Some p => if c_true (Z.land (p 0) (Z.shiftl 1 (n - 1))) then 0x81 else 0x01
               | None => 0x01
               end].

(** The bytes [jtag_shift_bytes] appends. *)
Definition bytes_unit (tdi : option mem) (n : Z) (do_read : bool) : list Z :=
  [to_uchar (Z.lor (Z.lor Mpsse.LSB
                      (flag (is_some tdi) (Z.lor Mpsse.DO_WRITE Mpsse.WRITE_NEG)))
               (flag do_read Mpsse.DO_READ));
   to_uchar (Z.land (n - 1) 0xff);
   to_uchar (Z.land (Z.shiftr (n - 1) 8) 0xff)]
  ++ match tdi with
     | Some p => map (fun i => to_uchar (p (Z.of_nat i))) (seq 0 (Z.to_nat n))
     | None => []
     end.

(** Every block handed to [ftdi_write_data] in a trace has at most [bound]
    bytes. *)
Definition writes_within (bound : Z) (tr : list event) : Prop :=
  Forall (fun w => Z.of_nat (length (fst w)) <= bound) (writes_of tr).

(** The state a chunk loop is left in. *)
Definition exit_state {T} (ex : loop_exit T) : jtag T :=
  match ex with
  | LoopReturn _ _ s => s
  | LoopDone _ _ _ _ s => s
  end.

(** A read that failed: a request for at least [n] bytes that reported an
    error and handed over nothing. *)
Definition failed_read (n : Z) (e : event) : Prop :=
  match e with
  | EvRead size ret bytes => n <= size /\ ret < 0 /\ bytes = []
  | _ => False
  end.

(** The size a read asked for. *)
Definition read_size (e : event) : Z :=
  match e with
  | EvRead size _ _ => size
  | _ => 0
  end.

(** ** The session of main *)

Definition JTAG_INSTR_JSHUTDOWN : Z := 0x0d.
Definition JTAG_INSTR_JSTART : Z := 0x0c.
Definition JTAG_INSTR_CFG_IN : Z := 0x05.
Definition JTAG_STARTUP_DELAY : Z := 500.
Definition JTAG_SHUTDOWN_DELAY : Z := 500.

(** What [main] returns, with the globals it leaves. *)
Definition outcome (T : Type) : Type := (Z * bitfile * jtag T)%type.

Section Program.
Context {T : Type}.
Variable tp : transport T.
(** The unspecified initial contents of the local arrays and of [main]'s
    local [idcode]. *)
Variable uninit : mem.
Variable idcode0 : Z.

(** [main_exit(ret, s)] up to its call of [jtag_close]: the block of
    [fdata] is freed, the TAP is sent to test-logic-reset and the buffer
    flushed, the result of the flush being dropped.  The message is only
    printed. *)
Definition main_exit (ret : Z) (st : bitfile) (s : jtag T) : outcome T :=
  (ret, Bitfile None (flength st), snd (jtag_send tp (jtag_to_tlr s))).

(** [main] once [jtag_init] has returned 0, without what it prints.
    [alloc] and [file] are what [load_fdata] finds: the block [malloc]
    returns and the contents of the file named on the command line. *)
Definition main_session (alloc : option mem) (file : option (list Z))
    (st : bitfile) (s : jtag T) : outcome T :=
  let '(r, s1) := jtag_mpsse_sync tp uninit s return outcome T in
  if c_true r then main_exit 1 st s1
  else
    let '(l, dev) := ftdi_write_data tp (ftdi s1) [0xaa] return outcome T in
    let s2 := Jtag (jtag_buf s1) dev (trace s1 ++ [EvWrite [0xaa] l]) in
    if l <? 0 then main_exit 1 st s2
    else
      let '(_, _, s3) :=
        jtag_recv tp (upd uninit 0 0xaa) (Some 0) 2 s2 return outcome T in
      let s4 := jtag_tlr_to_rti (jtag_to_tlr s3) in
      let '(r1, idcode, s5) :=
        jtag_get_idcode tp uninit idcode0 s4 return outcome T in
      if c_true r1 then main_exit 1 st s5
      else if negb (is_xilinx idcode) then main_exit 1 st s5
      else
        let '(r2, st1) := load_fdata alloc file st return outcome T in
        if c_true r2 then main_exit 1 st1 s5
        else
          let s6 := jtag_ir_write JTAG_INSTR_JSHUTDOWN s5 in
          let s7 := rti_spins tp (Z.to_nat JTAG_SHUTDOWN_DELAY) s6 in
          let s8 := jtag_ir_write JTAG_INSTR_CFG_IN s7 in
          let '(r3, _, s9) :=
            jtag_dr_op tp uninit (fdata st1) None (flength st1 * 8) s8
            return outcome T in
          if c_true r3 then main_exit 1 st1 s9
          else
            let s10 := jtag_ir_write JTAG_INSTR_JSTART s9 in
            let s11 := rti_spins tp (Z.to_nat JTAG_STARTUP_DELAY) s10 in
            let s12 := jtag_to_tlr s11 in
            let '(r4, s13) := jtag_send tp s12 return outcome T in
            if c_true r4 then main_exit 1 st1 s13
            else main_exit 0 st1 s13.

End Program.

(** From [s] to [s'] the trace was extended, and neither a write made on
    the way nor the buffer left holds more than [k] bytes beyond those
    pending in [s]. *)
Definition peak {T} (k : Z) (s s' : jtag T) : Prop :=
  exists new : list event,
    trace s' = trace s ++ new
    /\ writes_within (jtag_buf_i s + k) new
    /\ jtag_buf_i s' <= jtag_buf_i s + k.

(* ================================================================== *)
(** * Theorems *)

Lemma all_below_spec (n : Z) (f : Z -> bool) :
  all_below n f = true -> forall z, 0 <= z < n -> f z = true.
Proof.
  unfold all_below. intros H z Hz.
  rewrite forallb_forall in H. apply H.
  apply in_map_iff. exists (Z.to_nat z). split; [lia|].
  apply in_seq. lia.
Qed.

Lemma to_uchar_small (x : Z) : 0 <= x < 256 -> to_uchar x = x.
Proof. intros H. unfold to_uchar. now apply Z.mod_small. Qed.

Lemma to_uchar_range (x : Z) : 0 <= to_uchar x < 256.
Proof. unfold to_uchar. apply Z.mod_pos_bound. lia. Qed.

(** ** bit_swap *)

Lemma bit_swap_table :
  all_below 256 (fun b =>
    (bit_swap b =? bit_reverse_ref b) && (bit_swap (bit_swap b) =? b)
    && (0 <=? bit_swap b) && (bit_swap b <? 256)
    && all_below 8 (fun i => Bool.eqb (Z.testbit (bit_swap b) i) (Z.testbit b (7 - i))))
  = true.
Proof. vm_compute. reflexivity. Qed.

(** C9.  [bit_swap] is the bit-reversal permutation of a byte: it equals
    the reference reversal, bit [i] of [bit_swap b] is bit [7 - i] of [b]
    for every [i] in 0..7, the result is again a byte, and applying it
    twice gives the byte back. *)
Theorem bit_swap_reverses (b : Z) :
  0 <= b < 256 ->
  bit_swap b = bit_reverse_ref b
  /\ (forall i, 0 <= i <= 7 -> Z.testbit (bit_swap b) i = Z.testbit b (7 - i))
  /\ 0 <= bit_swap b < 256
  /\ bit_swap (bit_swap b) = b.
Proof.
  intros Hb.
  pose proof (all_below_spec _ _ bit_swap_table b Hb) as H.
  cbv beta in H.
  repeat (apply andb_prop in H; destruct H as [H ?]).
  repeat split; try lia.
  intros i Hi.
  match goal with
  | [ Hall : all_below 8 _ = true |- _ ] =>
      pose proof (all_below_spec _ _ Hall i ltac:(lia)) as Hbit
  end.
  now apply Bool.eqb_prop in Hbit.
Qed.

Lemma bit_swap_reverses_witness :
  0 <= 0xa5 < 256
  /\ bit_swap 0xa5 = bit_reverse_ref 0xa5
  /\ (forall i, 0 <= i <= 7 -> Z.testbit (bit_swap 0xa5) i = Z.testbit 0xa5 (7 - i))
  /\ 0 <= bit_swap 0xa5 < 256
  /\ bit_swap (bit_swap 0xa5) = 0xa5.
Proof. split; [lia | apply (bit_swap_reverses 0xa5); lia]. Defined.

(** ** The bit split *)

Lemma tail_bits_range (n : Z) : 1 <= n -> 1 <= tail_bits n <= 8.
Proof.
  intros Hn. unfold tail_bits, whole_bytes.
  rewrite Z.quot_div_nonneg by lia.
  pose proof (Z.div_mod (n - 1) 8 ltac:(lia)).
  pose proof (Z.mod_pos_bound (n - 1) 8 ltac:(lia)). lia.
Qed.

(** ** TAP transitions *)

Lemma put_put_put {T} (a b c : Z) (s : jtag T) :
  put c (put b (put a s))
  = Jtag (jtag_buf s ++ [to_uchar a; to_uchar b; to_uchar c]) (ftdi s) (trace s).
Proof. unfold put. cbn. now rewrite <- !app_assoc. Qed.

(** C7, as the specification states it, fails: the unit appended by
    [exit1DRToIdle] carries the bits 1,0 and not 0,1. *)
Lemma tap_exit1_pattern_differs :
  ~ (forall op : tap_op, exists count data : Z,
       jtag_buf (tap_run op Bridge.start) = [TMS_OPCODE; count; data]
       /\ tms_bits count data = spec_tms_pattern op).
Proof.
  intros H. destruct (H exit1DRToIdle) as (count & data & Hbuf & Hbits).
  vm_compute in Hbuf. injection Hbuf as <- <-.
  vm_compute in Hbits. discriminate.
Qed.

(** C7, amended.  Every transition appends exactly one TMS-sequence unit
    (opcode [0x4b], bit count minus one, one data byte) and changes nothing
    else; the low bits of the data byte, bit 0 first, are the pattern
    forceReset 1,1,1,1,1; resetToIdle 0; idleToShiftIR 1,1,0,0;
    idleToShiftDR 1,0,0; exit1IRToIdle 1,0; exit1DRToIdle 1,0; the bits of
    the low seven above the pattern are 0 and bit 7, the data-line level,
    is 1. *)
Theorem tap_run_unit {T} (op : tap_op) (s : jtag T) :
  exists count data : Z,
    tap_run op s = Jtag (jtag_buf s ++ [TMS_OPCODE; count; data]) (ftdi s) (trace s)
    /\ TMS_OPCODE = 0x4b
    /\ count + 1 = Z.of_nat (length (code_tms_pattern op))
    /\ tms_bits count data = code_tms_pattern op
    /\ tms_bits 6 data = code_tms_pattern op ++ repeat false (Z.to_nat (6 - count))
    /\ tms_data_level data = true.
Proof.
  destruct op; cbn [tap_run];
    [ unfold jtag_to_tlr | unfold jtag_tlr_to_rti | unfold jtag_rti_to_shift_ir
    | unfold jtag_rti_to_shift_dr | unfold jtag_exit1_ir_to_rti
    | unfold jtag_exit1_dr_to_rti ];
    rewrite put_put_put;
    match goal with
    | [ |- context [ [to_uchar _; to_uchar ?c; to_uchar ?d] ] ] => exists c, d
    end;
    repeat split; reflexivity.
Qed.

(** ** jtag_send *)

(** C10.  With an empty command buffer [jtag_send] returns 1 and leaves
    the whole state as it was, the device and the trace of transport calls
    included: the transport is not called.  A short write (the transport
    accepts a count other than the buffer length) returns the same 1. *)
Theorem jtag_send_empty {T} (tp : transport T) (s : jtag T) :
  jtag_buf_i s < 1 ->
  jtag_send tp s = (1, s)
  /\ (forall s' : jtag T,
        1 <= jtag_buf_i s' ->
        fst (ftdi_write_data tp (ftdi s') (jtag_buf s')) <> jtag_buf_i s' ->
        fst (jtag_send tp s') = fst (jtag_send tp s)
        /\ trace (snd (jtag_send tp s'))
           = trace s' ++ [EvWrite (jtag_buf s')
                            (fst (ftdi_write_data tp (ftdi s') (jtag_buf s')))]).
Proof.
  intros Hempty.
  assert (Hs : jtag_send tp s = (1, s)).
  { unfold jtag_send. destruct (Z.ltb_spec (jtag_buf_i s) 1); [reflexivity | lia]. }
  split; [exact Hs|].
  intros s' Hlen Hshort. rewrite Hs. unfold jtag_send.
  destruct (Z.ltb_spec (jtag_buf_i s') 1); [lia|].
  destruct (ftdi_write_data tp (ftdi s') (jtag_buf s')) as [l dev]. cbn [fst] in *.
  destruct (Z.eqb_spec l (jtag_buf_i s')); [contradiction|].
  cbn. split; reflexivity.
Qed.

Lemma jtag_send_empty_witness :
  jtag_buf_i (Scripted.start ([], [])) < 1
  /\ jtag_send Scripted.tp (Scripted.start ([], [])) = (1, Scripted.start ([], [])).
Proof.
  split; [vm_compute; reflexivity|].
  apply (jtag_send_empty Scripted.tp (Scripted.start ([], []))).
  vm_compute. reflexivity.
Defined.

(** ** The tail path *)

(** The unit or units the tail path is documented to encode for the low
    [n] bits of [v]: for [n > 1] a bit-mode command for [n - 1] bits, then
    in every case the one-bit TMS command with the top bit on the data
    line. *)
Lemma tail_table (uninit : mem) :
  all_below 8 (fun k =>
    let n := k + 1 in
    all_below 256 (fun v =>
      (let (r, x) := tail_round_trip uninit v n in (r =? 0) && (x =? v mod 2 ^ n))
      && forallb2_eq (tail_commands v n)
           ((if n >? 1 then [0x3b; n - 2; Z.land v (2 ^ (n - 1) - 1)] else [])
            ++ [0x6b; 0; if Z.testbit v (n - 1) then 0x81 else 0x01])))
  = true.
Proof. vm_compute. reflexivity. Qed.

Lemma forallb2_eq_spec (l1 l2 : list Z) : forallb2_eq l1 l2 = true -> l1 = l2.
Proof.
  revert l2. induction l1 as [|a l1 IH]; intros [|b l2] H; cbn in H;
    try reflexivity; try discriminate.
  apply andb_prop in H. destruct H as [Hab Hrest].
  apply Z.eqb_eq in Hab. subst b. f_equal. now apply IH.
Qed.

Lemma land_top_bit_table :
  all_below 256 (fun b => (Z.land b 0x80 =? 0) || (Z.land b 0x80 =? 0x80)) = true.
Proof. vm_compute. reflexivity. Qed.

Lemma realign_range_table :
  all_below 8 (fun k =>
    all_below 256 (fun a =>
      forallb (fun m => realign a m (k + 1) <? 256) [0; 0x80]
      && (0 <=? realign a 0 (k + 1)) && (0 <=? realign a 0x80 (k + 1))))
  = true.
Proof. vm_compute. reflexivity. Qed.

Lemma realign_top_bit (a b n : Z) :
  realign a b n = realign a (Z.land b 0x80) n.
Proof.
  unfold realign. destruct (n >? 1); [|reflexivity].
  rewrite <- Z.land_assoc. reflexivity.
Qed.

Lemma realign_range (a b n : Z) :
  1 <= n <= 8 -> 0 <= a < 256 -> 0 <= b < 256 -> 0 <= realign a b n < 256.
Proof.
  intros Hn Ha Hb.
  pose proof (all_below_spec _ _ realign_range_table (n - 1) ltac:(lia)) as H.
  cbv beta in H.
  pose proof (all_below_spec _ _ H a Ha) as H0. cbv beta in H0.
  replace (n - 1 + 1) with n in H0 by lia.
  cbn [forallb] in H0.
  repeat (apply andb_prop in H0; destruct H0 as [H0 ?]).
  repeat match goal with
         | [ Hx : (_ <? _) = true |- _ ] => apply Z.ltb_lt in Hx
         | [ Hx : (_ <=? _) = true |- _ ] => apply Z.leb_le in Hx
         end.
  pose proof (all_below_spec _ _ land_top_bit_table b Hb) as Hm.
  cbv beta in Hm. rewrite realign_top_bit.
  apply orb_prop in Hm. destruct Hm as [Hm | Hm]; apply Z.eqb_eq in Hm;
    rewrite Hm; lia.
Qed.

Lemma recv_bits_value_realign (rbuf : mem) (n : Z) :
  1 <= n <= 8 -> 0 <= rbuf 0 < 256 -> 0 <= rbuf 1 < 256 ->
  recv_bits_value rbuf n = realign (rbuf 0) (rbuf 1) n.
Proof.
  intros Hn Ha Hb.
  pose proof (realign_range (rbuf 0) (rbuf 1) n Hn Ha Hb) as Hr.
  unfold recv_bits_value, realign in *.
  destruct (n >? 1); now apply to_uchar_small.
Qed.

(** C1.  For every [n] in 1..8 and every byte [v]: the tail path encodes,
    for [n > 1], a bit-mode command carrying the low [n - 1] bits and then
    the one-bit TMS command carrying bit [n - 1], and for [n = 1] that
    one-bit command alone; sent to the looped-back bridge and decoded by
    [jtag_recv_bits], the reply gives exactly [v] truncated to its low [n]
    bits; and the value [jtag_recv_bits] stores is the formula of the
    specification applied to the one or two bytes received. *)
Theorem tail_round_trip_ok (uninit : mem) (n v : Z) :
  1 <= n <= 8 -> 0 <= v < 256 ->
  tail_commands v n
  = (if n >? 1 then [0x3b; n - 2; Z.land v (2 ^ (n - 1) - 1)] else [])
    ++ [0x6b; 0; if Z.testbit v (n - 1) then 0x81 else 0x01]
  /\ tail_round_trip uninit v n = (0, v mod 2 ^ n)
  /\ (forall rbuf : mem, 0 <= rbuf 0 < 256 -> 0 <= rbuf 1 < 256 ->
        recv_bits_value rbuf n = realign (rbuf 0) (rbuf 1) n)
  /\ (forall {T} (tp : transport T) (p : mem) (off : Z) (s : jtag T),
        jtag_recv_bits tp uninit p off n s
        = let '(r, rbuf, s1) :=
            jtag_recv tp uninit (Some 0) (if n >? 1 then 2 else 1) s in
          if c_true r then (1, p, s1)
          else (0, upd p off (recv_bits_value rbuf n), s1)).
Proof.
  intros Hn Hv.
  pose proof (all_below_spec _ _ (tail_table uninit) (n - 1) ltac:(lia)) as H.
  cbv beta zeta in H.
  pose proof (all_below_spec _ _ H v Hv) as H0. cbv beta in H0.
  replace (n - 1 + 1) with n in H0 by lia.
  apply andb_prop in H0. destruct H0 as [Hrt Hcmd].
  split; [now apply forallb2_eq_spec|].
  split.
  { destruct (tail_round_trip uninit v n) as [r x].
    apply andb_prop in Hrt. destruct Hrt as [Hr Hx].
    apply Z.eqb_eq in Hr. apply Z.eqb_eq in Hx. congruence. }
  split.
  { intros rbuf Ha Hb. now apply recv_bits_value_realign. }
  intros T tp p off s. unfold jtag_recv_bits.
  destruct (Z.ltb_spec n 1); [lia|].
  destruct (Z.gtb_spec n 8); [lia|]. reflexivity.
Qed.

Lemma tail_round_trip_ok_witness :
  (1 <= 5 <= 8) /\ (0 <= 0xa5 < 256)
  /\ tail_commands 0xa5 5 = [0x3b; 3; 0x05; 0x6b; 0; 0x01]
  /\ tail_round_trip (fun _ => 0xff) 0xa5 5 = (0, 5).
Proof.
  split; [lia|]. split; [lia|].
  destruct (tail_round_trip_ok (fun _ => 0xff) 5 0xa5) as (Hc & Hr & _);
    [lia | lia |].
  split; [exact Hc | exact Hr].
Defined.

(** ** Appends to the command buffer *)

Lemma put_buf {T} (b : Z) (s : jtag T) :
  jtag_buf (put b s) = jtag_buf s ++ [to_uchar b].
Proof. reflexivity. Qed.

Lemma puts_spec {T} (bs : list Z) (s : jtag T) :
  puts bs s = Jtag (jtag_buf s ++ map to_uchar bs) (ftdi s) (trace s).
Proof.
  unfold puts. revert s. induction bs as [|b bs IH]; intros s; cbn.
  - rewrite app_nil_r. now destruct s.
  - rewrite IH. cbn. now rewrite <- app_assoc.
Qed.

Lemma tap_run_buf {T} (op : tap_op) (s : jtag T) :
  exists count data : Z,
    tap_run op s = Jtag (jtag_buf s ++ [TMS_OPCODE; count; data]) (ftdi s) (trace s).
Proof.
  destruct op; cbn [tap_run];
    [ unfold jtag_to_tlr | unfold jtag_tlr_to_rti | unfold jtag_rti_to_shift_ir
    | unfold jtag_rti_to_shift_dr | unfold jtag_exit1_ir_to_rti
    | unfold jtag_exit1_dr_to_rti ];
    rewrite put_put_put; eexists _, _; reflexivity.
Qed.

Lemma jtag_shift_bytes_spec {T} (tdi : option mem) (n : Z) (do_read : bool) (s : jtag T) :
  exists added : list Z,
    jtag_shift_bytes tdi n do_read s
    = Jtag (jtag_buf s ++ added) (ftdi s) (trace s ++ [EvShiftBytes n do_read])
    /\ Z.of_nat (length added) = append_size (ApBytes tdi n do_read).
Proof.
  unfold jtag_shift_bytes, note. destruct tdi as [p|]; cbn [is_some append_size].
  - rewrite puts_spec. cbn [jtag_buf ftdi trace put].
    rewrite <- !app_assoc. cbn [app].
    eexists. split; [reflexivity|].
    cbn [length]. rewrite !length_map, length_seq. lia.
  - cbn [jtag_buf ftdi trace put].
    rewrite <- !app_assoc. cbn [app].
    eexists. split; reflexivity.
Qed.

Lemma jtag_shift_bits_spec {T} (tdi : option mem) (n : Z) (do_read : bool) (s : jtag T) :
  exists added : list Z,
    jtag_shift_bits tdi n do_read s
    = Jtag (jtag_buf s ++ added) (ftdi s) (trace s ++ [EvShiftBits n do_read])
    /\ Z.of_nat (length added) = append_size (ApBits tdi n do_read).
Proof.
  unfold jtag_shift_bits, note.
  cbn [append_size].
  destruct tdi as [p|]; destruct (n >? 1);
    cbn [is_some put jtag_buf ftdi trace];
    rewrite <- ?app_assoc; cbn [app];
    (eexists; split; [reflexivity | reflexivity]).
Qed.

Lemma append_run_spec {T} (a : append_op) (s : jtag T) :
  exists added : list Z,
    jtag_buf (append_run a s) = jtag_buf s ++ added
    /\ ftdi (append_run a s) = ftdi s
    /\ Z.of_nat (length added) = append_size a.
Proof.
  destruct a as [op | tdi n rd | tdi n rd]; cbn [append_run].
  - destruct (tap_run_buf op s) as (c & d & ->). cbn. eexists. repeat split.
  - destruct (jtag_shift_bytes_spec tdi n rd s) as (added & -> & Hlen).
    cbn. exists added. repeat split. exact Hlen.
  - destruct (jtag_shift_bits_spec tdi n rd s) as (added & -> & Hlen).
    cbn. exists added. repeat split. exact Hlen.
Qed.

Lemma appends_run_spec {T} (l : list append_op) (s : jtag T) :
  exists added : list Z,
    jtag_buf (appends_run l s) = jtag_buf s ++ added
    /\ ftdi (appends_run l s) = ftdi s
    /\ Z.of_nat (length added) = appends_size l.
Proof.
  unfold appends_run. revert s. induction l as [|a l IH]; intros s; cbn [fold_left].
  - exists []. rewrite app_nil_r. repeat split.
  - destruct (IH (append_run a s)) as (added2 & Hbuf & Hdev & Hlen).
    destruct (append_run_spec a s) as (added1 & Hbuf1 & Hdev1 & Hlen1).
    exists (added1 ++ added2). rewrite Hbuf, Hbuf1, Hdev, Hdev1.
    rewrite <- app_assoc, length_app.
    change (appends_size (a :: l)) with (append_size a + appends_size l).
    repeat split. lia.
Qed.

Lemma appends_size_repeat (a : append_op) (k : nat) :
  appends_size (repeat a k) = Z.of_nat k * append_size a.
Proof.
  induction k as [|k IH]; [reflexivity|].
  change (appends_size (repeat a (S k)))
    with (append_size a + appends_size (repeat a k)).
  lia.
Qed.

(** C4, as the specification states it, fails: 349526 transitions
    appended in a row (three bytes each, no flush between them) take the
    length past [JTAG_BUFFER_SIZE]; no append refuses. *)
Lemma command_buffer_overrun :
  ~ in_block (appends_run (repeat (ApTap forceReset) (Z.to_nat 349526)) Bridge.start).
Proof.
  assert (Hk : Z.of_nat (Z.to_nat 349526) = 349526) by (apply Z2Nat.id; lia).
  revert Hk. generalize (Z.to_nat 349526). intros k Hk H.
  destruct (appends_run_spec (repeat (ApTap forceReset) k) Bridge.start)
    as (added & Hbuf & _ & Hlen).
  rewrite appends_size_repeat in Hlen.
  unfold in_block, jtag_buf_i in H. rewrite Hbuf, length_app in H.
  change (append_size (ApTap forceReset)) with 3 in Hlen.
  change (length (jtag_buf Bridge.start)) with 0%nat in H.
  unfold JTAG_BUFFER_SIZE in H. lia.
Qed.

(** C4, amended.  No append checks the capacity and none can fail: a
    sequence of appends leaves the earlier contents in place, stores every
    byte after them, leaves the device alone and advances the length by
    exactly the number of bytes appended; so the length is within
    [JTAG_BUFFER_SIZE] afterwards if and only if the length before plus the
    bytes appended is. *)
Theorem appends_unchecked {T} (l : list append_op) (s : jtag T) :
  exists added : list Z,
    jtag_buf (appends_run l s) = jtag_buf s ++ added
    /\ ftdi (appends_run l s) = ftdi s
    /\ Z.of_nat (length added) = appends_size l
    /\ jtag_buf_i (appends_run l s) = jtag_buf_i s + appends_size l
    /\ (in_block (appends_run l s)
        <-> jtag_buf_i s + appends_size l <= JTAG_BUFFER_SIZE).
Proof.
  destruct (appends_run_spec l s) as (added & Hbuf & Hdev & Hlen).
  exists added.
  assert (Hi : jtag_buf_i (appends_run l s) = jtag_buf_i s + appends_size l).
  { unfold jtag_buf_i. rewrite Hbuf, length_app. lia. }
  repeat split; try assumption; unfold in_block; lia.
Qed.

(** ** The receive loop *)

Section Receive.
Context {T : Type} (tp : transport T).

Lemma jtag_send_spec (s : jtag T) :
  (jtag_buf_i s < 1 /\ jtag_send tp s = (1, s))
  \/ (1 <= jtag_buf_i s
      /\ exists (l : Z) (dev : T),
           ftdi_write_data tp (ftdi s) (jtag_buf s) = (l, dev)
           /\ jtag_send tp s
              = (if l =? jtag_buf_i s then 0 else 1,
                 Jtag (if l =? jtag_buf_i s then [] else jtag_buf s) dev
                   (trace s ++ [EvWrite (jtag_buf s) l]))).
Proof.
  unfold jtag_send. destruct (Z.ltb_spec (jtag_buf_i s) 1) as [Hlt | Hge].
  - left. split; [lia | reflexivity].
  - right. split; [lia|].
    destruct (ftdi_write_data tp (ftdi s) (jtag_buf s)) as [l dev].
    exists l, dev. split; [reflexivity|].
    destruct (l =? jtag_buf_i s); reflexivity.
Qed.

(** The loop of [jtag_recv] is left after at most [timeout + 1] reads,
    whatever the transport returns. *)
Lemma jtag_recv_loop_total (fuel : nat) :
  forall (p : mem) (rbuf : option Z) (n timeout : Z) (s : jtag T),
    0 <= timeout -> (Z.to_nat timeout < fuel)%nat ->
    exists (n' : Z) (p' : mem) (s' : jtag T) (reads : list event),
      jtag_recv_loop tp fuel p rbuf n timeout s = Some (n', p', s')
      /\ jtag_buf s' = jtag_buf s
      /\ trace s' = trace s ++ reads
      /\ Forall is_read reads
      /\ (length reads <= Z.to_nat timeout + 1)%nat.
Proof.
  induction fuel as [|fuel IH]; intros p rbuf n timeout s Ht Hfuel; [lia|].
  cbn [jtag_recv_loop]. destruct (n >? 0).
  - destruct (ftdi_read_data tp (ftdi s) _) as [[ret bytes] dev].
    destruct (Z.leb_spec timeout 0) as [Hz | Hpos].
    + eexists _, _, _, [_]. repeat split; cbn; try reflexivity; try lia.
      repeat constructor.
    + edestruct (IH (match rbuf with Some off => write_at p off bytes | None => p end)
                    (match rbuf with Some off => Some (off + ret) | None => None end)
                    (n - ret) (timeout - 1)
                    (Jtag (jtag_buf s) dev
                       (trace s ++ [EvRead (match rbuf with Some _ => n | None => 32 end)
                                      ret bytes])))
        as (n' & p' & s' & reads & Hloop & Hbuf & Htr & Hreads & Hlen); [lia | lia |].
      rewrite Hloop. eexists _, _, _, (_ :: reads).
      split; [reflexivity|]. split; [exact Hbuf|].
      split; [rewrite Htr; cbn; rewrite <- app_assoc; reflexivity|].
      split; [constructor; [exact I | exact Hreads]|].
      cbn [length]. lia.
  - exists n, p, s, []. rewrite app_nil_r. repeat split; try constructor. cbn. lia.
Qed.

Lemma jtag_recv_spec (p : mem) (rbuf : option Z) (n : Z) (s : jtag T) :
  exists (n' : Z) (p' : mem) (s' : jtag T) (reads : list event),
    jtag_recv tp p rbuf n s = (n', p', s')
    /\ jtag_recv_loop tp (S (Z.to_nat JTAG_RECV_ATTEMPTS)) p rbuf n JTAG_RECV_ATTEMPTS s
       = Some (n', p', Jtag (jtag_buf s) (ftdi s') (trace s ++ reads))
    /\ jtag_buf s' = jtag_buf s
    /\ trace s' = trace s ++ reads ++ [EvRecv n n']
    /\ Forall is_read reads
    /\ (length reads <= 21)%nat.
Proof.
  destruct (jtag_recv_loop_total (S (Z.to_nat JTAG_RECV_ATTEMPTS)) p rbuf n
              JTAG_RECV_ATTEMPTS s)
    as (n' & p' & s' & reads & Hloop & Hbuf & Htr & Hreads & Hlen);
    [unfold JTAG_RECV_ATTEMPTS; lia | lia |].
  unfold jtag_recv. rewrite Hloop.
  exists n', p', (note (EvRecv n n') s'), reads.
  split; [reflexivity|].
  split; [destruct s' as [b d t]; cbn in *; subst; reflexivity|].
  split; [exact Hbuf|].
  split; [cbn; rewrite Htr, <- app_assoc; reflexivity|].
  split; [exact Hreads|].
  change (Z.to_nat JTAG_RECV_ATTEMPTS) with 20%nat in Hlen. lia.
Qed.

(** A transport that is short on every read makes the loop give up with
    bytes outstanding. *)
Lemma jtag_recv_loop_short (fuel : nat) :
  (forall (d : T) (size : Z), 0 < size -> fst (fst (ftdi_read_data tp d size)) < size) ->
  forall (p : mem) (off n timeout : Z) (s : jtag T) (r : Z * mem * jtag T),
    0 < n ->
    jtag_recv_loop tp fuel p (Some off) n timeout s = Some r ->
    0 < fst (fst r).
Proof.
  intros Hshort. induction fuel as [|fuel IH]; intros p off n timeout s r Hn Hloop.
  - cbn in Hloop. destruct (Z.gtb_spec n 0); [discriminate | lia].
  - cbn [jtag_recv_loop] in Hloop.
    destruct (Z.gtb_spec n 0) as [_ | Hle]; [|lia].
    pose proof (Hshort (ftdi s) n Hn) as Hret.
    destruct (ftdi_read_data tp (ftdi s) n) as [[ret bytes] dev]. cbn [fst] in Hret.
    destruct (timeout <=? 0).
    + injection Hloop as <-. cbn. lia.
    + eapply IH; [|exact Hloop]. lia.
Qed.

End Receive.

(** ** The chunk monitor *)

Section Monitor.
Variable capture : bool.

Lemma chunk_run_app (st : chunk_state) (l1 l2 : list event) :
  chunk_run capture st (l1 ++ l2) = chunk_run capture (chunk_run capture st l1) l2.
Proof. unfold chunk_run. apply fold_left_app. Qed.

Lemma chunk_run_cons (st : chunk_state) (e : event) (l : list event) :
  chunk_run capture st (e :: l) = chunk_run capture (chunk_step capture st e) l.
Proof. reflexivity. Qed.



Lemma chunk_run_reads (st : chunk_state) (reads : list event) :
  Forall is_read reads -> chunk_run capture st reads = st.
Proof.
  intros H. induction H as [|e l He _ IH]; [reflexivity|].
  destruct e; try contradiction. rewrite chunk_run_cons.
  replace (chunk_step capture st (EvRead size ret bytes)) with st
    by (destruct st; reflexivity).
  exact IH.
Qed.








End Monitor.

(** ** The data-register transfer *)

Lemma new_events_app {T} (s s' : jtag T) (new : list event) :
  trace s' = trace s ++ new -> new_events s s' = new.
Proof.
  unfold new_events. intros ->. induction (trace s) as [|e l IH]; [reflexivity | exact IH].
Qed.

Lemma chunk_lengths_app (l1 l2 : list event) :
  chunk_lengths (l1 ++ l2) = chunk_lengths l1 ++ chunk_lengths l2.
Proof. unfold chunk_lengths. apply flat_map_app. Qed.

Lemma chunk_lengths_reads (reads : list event) :
  Forall is_read reads -> chunk_lengths reads = [].
Proof.
  intros H. induction H as [|e l He _ IH]; [reflexivity|].
  destruct e; try contradiction. exact IH.
Qed.


Lemma zsum_app (l1 l2 : list Z) : zsum (l1 ++ l2) = zsum l1 + zsum l2.
Proof.
  induction l1 as [|a l1 IH]; [reflexivity|].
  change (zsum ((a :: l1) ++ l2)) with (a + zsum (l1 ++ l2)).
  change (zsum (a :: l1)) with (a + zsum l1). lia.
Qed.

Section Transfer.
Context {T : Type} (tp : transport T) (uninit : mem).

Lemma dr_chunks_done (fuel : nat) (tdi tdo : option mem)
    (bytes_remaining chunk_length tdi_i tdo_i : Z) (s : jtag T) :
  bytes_remaining <= 0 ->
  dr_chunks tp fuel tdi tdo bytes_remaining chunk_length tdi_i tdo_i s
  = Some (LoopDone chunk_length tdi_i tdo_i tdo s).
Proof.
  intros H. destruct fuel; cbn [dr_chunks];
    destruct (Z.gtb_spec bytes_remaining 0); (lia || reflexivity).
Qed.


(** The chunk loop: it is always left, by a [return 1] or by its
    condition; up to there the monitor accepts the trace, and when the
    loop is left by its condition after at least one round, the last
    chunk is encoded and not yet flushed. *)
Lemma dr_chunks_spec (fuel : nat) :
  forall (tdi tdo : option mem) (bytes_remaining chunk_length tdi_i tdo_i : Z)
         (s : jtag T),
    (Z.to_nat bytes_remaining <= fuel)%nat ->
    exists (ex : loop_exit T) (new : list event),
      dr_chunks tp fuel tdi tdo bytes_remaining chunk_length tdi_i tdo_i s = Some ex
      /\ match ex with
         | LoopReturn r tdo' s' =>
             r = 1 /\ trace s' = trace s ++ new
             /\ chunk_run (is_some tdo) NoChunk new <> Violation
         | LoopDone cl _ _ tdo' s' =>
             trace s' = trace s ++ new
             /\ is_some tdo' = is_some tdo
             /\ zsum (chunk_lengths new) = Z.max 0 bytes_remaining
             /\ ((bytes_remaining <= 0 /\ new = [] /\ cl = chunk_length)
                 \/ (0 < bytes_remaining
                     /\ chunk_run (is_some tdo) NoChunk new = Encoded cl
                     /\ 0 < cl))
         end.
Proof.
  induction fuel as [|fuel IH];
    intros tdi tdo bytes_remaining chunk_length tdi_i tdo_i s Hfuel.
  { rewrite dr_chunks_done by lia.
    eexists _, []. split; [reflexivity|]. rewrite app_nil_r.
    split; [reflexivity|]. split; [reflexivity|].
    split; [cbn; lia|]. left. repeat split. lia. }
  destruct (Z.leb_spec bytes_remaining 0) as [Hle | Hpos].
  { rewrite dr_chunks_done by lia.
    eexists _, []. split; [reflexivity|]. rewrite app_nil_r.
    split; [reflexivity|]. split; [reflexivity|].
    split; [cbn; lia|]. left. repeat split. lia. }
  cbn [dr_chunks]. destruct (Z.gtb_spec bytes_remaining 0) as [_ | ?]; [|lia].
  set (cl := if bytes_remaining >? JTAG_CHUNK_SIZE then JTAG_CHUNK_SIZE
             else bytes_remaining).
  assert (Hcl : 1 <= cl <= JTAG_CHUNK_SIZE /\ cl <= bytes_remaining).
  { subst cl. unfold JTAG_CHUNK_SIZE.
    destruct (Z.gtb_spec bytes_remaining 32768); lia. }
  destruct (jtag_shift_bytes_spec (option_map (fun p => shift_ptr p tdi_i) tdi) cl
              (is_some tdo) s) as (added & Hs1 & _).
  set (s1 := jtag_shift_bytes _ cl (is_some tdo) s) in *.
  assert (Htr1 : trace s1 = trace s ++ [EvShiftBytes cl (is_some tdo)])
    by (rewrite Hs1; reflexivity).
  assert (Henc : chunk_run (is_some tdo) NoChunk [EvShiftBytes cl (is_some tdo)]
                 = Encoded cl).
  { cbn. destruct (Z.leb_spec 1 cl); [|lia].
    destruct (Z.leb_spec cl JTAG_CHUNK_SIZE); [|lia].
    rewrite Bool.eqb_reflx. reflexivity. }
  clearbody s1. clear Hs1.
  destruct (Z.gtb_spec (bytes_remaining - cl) 0) as [Hmore | Hlast].
  - (* another chunk follows: flush, receive, go round *)
    destruct (jtag_send_spec tp s1)
      as [[_ Hsend] | [_ (l & dev & _ & Hsend)]]; rewrite Hsend; clear Hsend.
    { cbn [c_true Z.eqb negb].
      eexists _, _. split; [reflexivity|].
      split; [reflexivity|]. split; [exact Htr1|]. rewrite Henc. discriminate. }
    destruct (Z.eqb_spec l (jtag_buf_i s1)) as [Hl | Hl].
    + cbn [c_true Z.eqb negb].
      set (s2 := Jtag [] dev (trace s1 ++ [EvWrite (jtag_buf s1) l])).
      assert (Hfl : chunk_run (is_some tdo) NoChunk
                      ([EvShiftBytes cl (is_some tdo)] ++ [EvWrite (jtag_buf s1) l])
                    = if is_some tdo then Flushed cl else NoChunk).
      { rewrite chunk_run_app, Henc. cbn. unfold jtag_buf_i in Hl. rewrite Hl.
        rewrite Z.eqb_refl. reflexivity. }
      destruct tdo as [p|]; cbn [is_some] in *.
      * destruct (jtag_recv_spec tp p (Some tdo_i) cl s2)
          as (r2 & p1 & s3 & reads & Hrecv & _ & _ & Htr3 & Hreads & _).
        rewrite Hrecv. unfold c_true.
        destruct (Z.eqb_spec r2 0) as [Hr2 | Hr2]; cbn [negb].
        -- destruct (IH tdi (Some p1) (bytes_remaining - cl) cl
                      (if is_some tdi then tdi_i + cl else tdi_i) (tdo_i + cl) s3)
             as (ex & new' & Hloop & Hex); [lia|].
           rewrite Hloop.
           exists ex, ([EvShiftBytes cl true] ++ [EvWrite (jtag_buf s1) l]
                       ++ reads ++ [EvRecv cl r2] ++ new').
           split; [reflexivity|].
           assert (Hpre : chunk_run true NoChunk
                            ([EvShiftBytes cl true] ++ [EvWrite (jtag_buf s1) l]
                             ++ reads ++ [EvRecv cl r2]) = NoChunk).
           { rewrite app_assoc, chunk_run_app, Hfl, chunk_run_app,
               (chunk_run_reads _ _ reads Hreads).
             cbn. rewrite Z.eqb_refl. subst r2. reflexivity. }
           assert (Htr : trace s3 ++ new'
                         = trace s ++ [EvShiftBytes cl true]
                             ++ [EvWrite (jtag_buf s1) l]
                             ++ reads ++ [EvRecv cl r2] ++ new').
           { rewrite Htr3. cbn [s2 trace]. rewrite Htr1.
             rewrite <- !app_assoc. reflexivity. }
           assert (Hrun : forall st,
                      chunk_run true NoChunk new' = st ->
                      chunk_run true NoChunk
                        ([EvShiftBytes cl true] ++ [EvWrite (jtag_buf s1) l]
                         ++ reads ++ [EvRecv cl r2] ++ new') = st).
           { intros st Hst.
             replace ([EvShiftBytes cl true] ++ [EvWrite (jtag_buf s1) l]
                      ++ reads ++ [EvRecv cl r2] ++ new')
               with (([EvShiftBytes cl true] ++ [EvWrite (jtag_buf s1) l]
                      ++ reads ++ [EvRecv cl r2]) ++ new')
               by (rewrite <- !app_assoc; reflexivity).
             rewrite chunk_run_app, Hpre. exact Hst. }
           destruct ex as [r tdo' s' | cl' ti to tdo' s'].
           ++ destruct Hex as (Hr & Htr' & Hok).
              split; [exact Hr|]. split; [rewrite Htr', Htr; reflexivity|].
              rewrite (Hrun _ eq_refl). exact Hok.
           ++ destruct Hex as (Htr' & Hsome & Hsum & Hcase).
              split; [rewrite Htr', Htr; reflexivity|].
              split; [exact Hsome|].
              split.
              { rewrite !chunk_lengths_app, !zsum_app, Hsum,
                  (chunk_lengths_reads reads) by assumption.
                cbn. lia. }
              right. destruct Hcase as [(? & _) | (_ & Hst & Hcl')]; [lia|].
              split; [lia|]. split; [apply Hrun; exact Hst | exact Hcl'].
        -- eexists _, ([EvShiftBytes cl true] ++ [EvWrite (jtag_buf s1) l]
                       ++ reads ++ [EvRecv cl r2]).
           split; [reflexivity|]. split; [reflexivity|].
           split.
           { rewrite Htr3. cbn [s2 trace]. rewrite Htr1.
             rewrite <- !app_assoc. reflexivity. }
           rewrite app_assoc, chunk_run_app, Hfl, chunk_run_app,
             (chunk_run_reads _ _ reads Hreads).
           cbn. rewrite Z.eqb_refl.
           destruct (Z.eqb_spec r2 0); [contradiction | discriminate].
      * destruct (IH tdi None (bytes_remaining - cl) cl
                    (if is_some tdi then tdi_i + cl else tdi_i) tdo_i s2)
          as (ex & new' & Hloop & Hex); [lia|].
        rewrite Hloop.
        exists ex, (([EvShiftBytes cl false] ++ [EvWrite (jtag_buf s1) l]) ++ new').
        split; [reflexivity|].
        assert (Htr : trace s2 ++ new'
                      = trace s ++ ([EvShiftBytes cl false]
                                    ++ [EvWrite (jtag_buf s1) l]) ++ new').
        { cbn [s2 trace]. rewrite Htr1. rewrite <- !app_assoc. reflexivity. }
        destruct ex as [r tdo' s' | cl' ti to tdo' s'].
        -- destruct Hex as (Hr & Htr' & Hok).
           split; [exact Hr|]. split; [rewrite Htr', Htr; reflexivity|].
           rewrite chunk_run_app, Hfl. exact Hok.
        -- destruct Hex as (Htr' & Hsome & Hsum & Hcase).
           split; [rewrite Htr', Htr; reflexivity|].
           split; [exact Hsome|].
           split.
           { rewrite !chunk_lengths_app, !zsum_app, Hsum. cbn. lia. }
           right. destruct Hcase as [(? & _) | (_ & Hst & Hcl')]; [lia|].
           split; [lia|]. split; [rewrite chunk_run_app, Hfl; exact Hst | exact Hcl'].
    + cbn [c_true Z.eqb negb].
      eexists _, ([EvShiftBytes cl (is_some tdo)] ++ [EvWrite (jtag_buf s1) l]).
      split; [reflexivity|]. split; [reflexivity|].
      split; [cbn [trace]; rewrite Htr1, <- app_assoc; reflexivity|].
      rewrite chunk_run_app, Henc. cbn. unfold jtag_buf_i in Hl.
      destruct (Z.eqb_spec l (Z.of_nat (length (jtag_buf s1)))); [contradiction|].
      discriminate.
  - (* the last chunk: the loop is left with it encoded *)
    rewrite dr_chunks_done by lia.
    eexists _, [EvShiftBytes cl (is_some tdo)].
    split; [reflexivity|].
    split; [exact Htr1|]. split; [reflexivity|].
    split; [cbn; lia|].
    right. split; [lia|]. split; [exact Henc | lia].
Qed.


Lemma dr_chunks_total (tdi tdo : option mem) (bytes_remaining : Z) (s : jtag T) :
  dr_chunks tp (Z.to_nat bytes_remaining) tdi tdo bytes_remaining 0 0 0 s <> None.
Proof.
  destruct (dr_chunks_spec (Z.to_nat bytes_remaining) tdi tdo bytes_remaining 0 0 0 s)
    as (ex & new & Hloop & _); [lia|].
  rewrite Hloop. discriminate.
Qed.




End Transfer.


(** ** Arguments of the transfer *)

(** With neither buffer the transfer returns 1 at once: nothing is
    encoded, the transport is not called, the state is what it was. *)
Lemma dr_op_null_buffers {T} (tp : transport T) (uninit : mem) (n : Z) (s : jtag T) :
  jtag_dr_op tp uninit None None n s = (1, None, s).
Proof. reflexivity. Qed.

(** A capture of zero bits passes the argument check; what it returns is
    what the flush of the entry and exit sequences returns. *)
Lemma dr_op_zero_bits {T} (tp : transport T) (uninit : mem) (tdi : option mem)
    (p : mem) (s : jtag T) :
  jtag_dr_op tp uninit tdi (Some p) 0 s
  = let '(r, s') := jtag_send tp (jtag_exit1_dr_to_rti (jtag_rti_to_shift_dr s)) in
    (if c_true r then 1 else 0, Some p, s').
Proof.
  unfold jtag_dr_op. cbn [is_some negb]. rewrite Bool.andb_false_r.
  change (whole_bytes 0) with 0. change (tail_bits 0) with 0.
  cbn [Z.to_nat dr_chunks Z.gtb Z.compare]. unfold dr_finish.
  cbn [Z.gtb Z.compare].
  destruct (jtag_send tp _) as [r s3].
  destruct (c_true r); reflexivity.
Qed.

(** C8, as the specification states it, fails at a zero bit length: a
    capture of zero bits is not refused.  It encodes the entry into
    Shift-DR and the two-bit exit sequence, with no shift command between
    them, flushes these six bytes and returns 0. *)
Lemma dr_op_zero_length :
  whole_bytes 0 = 0 /\ tail_bits 0 = 0
  /\ fst (fst (jtag_dr_op Bridge.tp (fun _ => 0) None (Some (fun _ => 0)) 0
                 Bridge.start)) = 0
  /\ trace (snd (jtag_dr_op Bridge.tp (fun _ => 0) None (Some (fun _ => 0)) 0
                   Bridge.start))
     = [EvWrite [0x4b; 2; 0x81; 0x4b; 1; 0x81] 6]
  /\ tms_bits 2 0x81 ++ tms_bits 1 0x81 = [true; false; false; true; false].
Proof. vm_compute. repeat split. Qed.

(** ** The attempt budget of the receive loop *)

Section Attempts.
Context {T : Type} (tp : transport T) (uninit : mem).

(** Short on every read: fewer bytes than asked for, every time. *)
Hypothesis always_short :
  forall (d : T) (size : Z), 0 < size -> fst (fst (ftdi_read_data tp d size)) < size.

Lemma jtag_recv_short (p : mem) (off n : Z) (s : jtag T) :
  0 < n -> 0 < fst (fst (jtag_recv tp p (Some off) n s)).
Proof.
  intros Hn.
  destruct (jtag_recv_spec tp p (Some off) n s)
    as (n' & p' & s' & reads & Hrecv & Hloop & _).
  rewrite Hrecv. cbn [fst].
  exact (jtag_recv_loop_short tp _ always_short _ _ _ _ _ _ Hn Hloop).
Qed.

Lemma c_true_pos (x : Z) : 0 < x -> c_true x = true.
Proof. intros H. unfold c_true. destruct (Z.eqb_spec x 0); [lia | reflexivity]. Qed.

Lemma dr_finish_short (tdi : option mem) (bits cl ti to : Z) (p : mem) (s : jtag T) :
  1 <= bits <= 8 ->
  fst (fst (dr_finish tp uninit tdi bits cl ti to (Some p) s)) = 1.
Proof.
  intros Hbits. unfold dr_finish.
  destruct (jtag_send tp _) as [r s3].
  destruct (c_true r); [reflexivity|].
  destruct (Z.gtb_spec cl 0) as [Hcl | Hcl].
  - pose proof (jtag_recv_short p to cl s3 Hcl) as Hr.
    destruct (jtag_recv tp p (Some to) cl s3) as [[r1 p1] s4]. cbn [fst] in Hr.
    now rewrite (c_true_pos r1 Hr).
  - cbn [c_true Z.eqb negb].
    destruct (Z.gtb_spec bits 0); [|lia].
    unfold jtag_recv_bits.
    destruct (Z.ltb_spec bits 1); [lia|]. destruct (Z.gtb_spec bits 8); [lia|].
    cbn [orb].
    pose proof (jtag_recv_short uninit 0 (if bits >? 1 then 2 else 1) s3
                  ltac:(destruct (bits >? 1); lia)) as Hr.
    destruct (jtag_recv tp uninit (Some 0) _ s3) as [[r2 p2] s5]. cbn [fst] in Hr.
    now rewrite (c_true_pos r2 Hr).
Qed.

(** A capturing transfer over a transport that is short on every read
    returns 1: it fails, it does not hang. *)
Lemma dr_op_short_reads_fail (tdi : option mem) (p : mem) (n : Z) (s : jtag T) :
  1 <= n -> fst (fst (jtag_dr_op tp uninit tdi (Some p) n s)) = 1.
Proof.
  intros Hn. unfold jtag_dr_op. cbn [is_some negb andb].
  rewrite Bool.andb_false_r.
  destruct (dr_chunks_spec tp (Z.to_nat (whole_bytes n)) tdi (Some p) (whole_bytes n)
              0 0 0 (jtag_rti_to_shift_dr s))
    as (ex & new1 & Hloop & Hex); [lia|].
  rewrite Hloop. destruct ex as [r tdo' s' | cl ti to tdo' s'].
  - now destruct Hex as (-> & _).
  - destruct Hex as (_ & Hsome & _).
    destruct tdo' as [p'|]; [|discriminate].
    apply dr_finish_short. now apply tail_bits_range.
Qed.

End Attempts.

(** C5, at the attempt budget.  Over every transport the receive loop is
    left after at most [JTAG_RECV_ATTEMPTS + 1] reads.  That one read more
    than the budget is made: a transport that returns nothing on
    [JTAG_RECV_ATTEMPTS] consecutive reads and both bytes on the next one is
    not timed out, the loop makes a twenty-first read and the transfer
    returns 0.  One more empty read and it returns 1. *)
Theorem recv_extra_attempt (uninit : mem) :
  let short20 := Scripted.start ([], repeat (0, []) 20 ++ [(2, [0x12; 0x80])]) in
  let short21 := Scripted.start ([], repeat (0, []) 21 ++ [(2, [0x12; 0x80])]) in
  let res20 := jtag_dr_op Scripted.tp uninit None (Some (fun _ => 0)) 8 short20 in
  let res21 := jtag_dr_op Scripted.tp uninit None (Some (fun _ => 0)) 8 short21 in
  (forall (T : Type) (tp : transport T) (p : mem) (rbuf : option Z) (n : Z) (s : jtag T),
     exists (n' : Z) (p' : mem) (s' : jtag T) (reads : list event),
       jtag_recv_loop tp (S (Z.to_nat JTAG_RECV_ATTEMPTS)) p rbuf n JTAG_RECV_ATTEMPTS s
       = Some (n', p', s')
       /\ trace s' = trace s ++ reads
       /\ Z.of_nat (length reads) <= JTAG_RECV_ATTEMPTS + 1)
  /\ JTAG_RECV_ATTEMPTS = 20
  /\ fst (fst res20) = 0
  /\ count_reads (trace (snd res20)) = 21%nat
  /\ option_map (fun p => p 0) (snd (fst res20)) = Some 0x89
  /\ fst (fst res21) = 1
  /\ count_reads (trace (snd res21)) = 21%nat.
Proof.
  split; [|vm_compute; repeat split].
  intros T tp p rbuf n s.
  destruct (jtag_recv_loop_total tp (S (Z.to_nat JTAG_RECV_ATTEMPTS)) p rbuf n
              JTAG_RECV_ATTEMPTS s)
    as (n' & p' & s' & reads & Hloop & _ & Htr & _ & Hlen);
    [unfold JTAG_RECV_ATTEMPTS; lia | lia |].
  exists n', p', s', reads. split; [exact Hloop|]. split; [exact Htr|].
  unfold JTAG_RECV_ATTEMPTS in *. lia.
Qed.

(** ** The resynchronisation handshake *)

Lemma read_bytes_app (l1 l2 : list event) :
  read_bytes (l1 ++ l2) = read_bytes l1 ++ read_bytes l2.
Proof. unfold read_bytes. apply flat_map_app. Qed.

Section Sync.
Context {T : Type} (tp : transport T) (uninit : mem).
Hypothesis Hreads : reads_ok tp.

(** Over a transport whose reads report no error, the loop leaves in the
    caller's array exactly the bytes the reads handed over, in order, and
    returns how many of the [n] are still missing. *)
Lemma jtag_recv_loop_data (fuel : nat) :
  forall (p : mem) (off n timeout : Z) (s : jtag T) (n' : Z) (p' : mem) (s' : jtag T),
    0 <= n ->
    jtag_recv_loop tp fuel p (Some off) n timeout s = Some (n', p', s') ->
    exists reads : list event,
      trace s' = trace s ++ reads
      /\ 0 <= n' <= n
      /\ Z.of_nat (length (read_bytes reads)) = n - n'
      /\ (forall k, off <= k < off + (n - n') ->
            p' k = nth (Z.to_nat (k - off)) (read_bytes reads) 0)
      /\ (forall k, k < off \/ off + (n - n') <= k -> p' k = p k).
Proof.
  induction fuel as [|fuel IH]; intros p off n timeout s n' p' s' Hn Hloop.
  - cbn in Hloop. destruct (Z.gtb_spec n 0); [discriminate|].
    injection Hloop as <- <- <-. exists []. rewrite app_nil_r.
    repeat split; cbn; intros; lia.
  - cbn [jtag_recv_loop] in Hloop.
    destruct (Z.gtb_spec n 0) as [Hpos | Hle].
    2:{ injection Hloop as <- <- <-. exists []. rewrite app_nil_r.
        repeat split; cbn; intros; lia. }
    destruct (Hreads (ftdi s) n Hpos) as [Hret Hlen].
    destruct (ftdi_read_data tp (ftdi s) n) as [[ret bytes] dev].
    cbn [fst snd] in Hret, Hlen.
    assert (Hw_in : forall k, off <= k < off + ret ->
                      write_at p off bytes k = nth (Z.to_nat (k - off)) bytes 0).
    { intros k Hk. unfold write_at.
      destruct (Z.leb_spec off k); [|lia].
      destruct (Z.ltb_spec k (off + Z.of_nat (length bytes))); [|lia]. reflexivity. }
    assert (Hw_out : forall k, k < off \/ off + ret <= k -> write_at p off bytes k = p k).
    { intros k Hk. unfold write_at.
      destruct (Z.leb_spec off k); destruct (Z.ltb_spec k (off + Z.of_nat (length bytes)));
        cbn [andb]; try reflexivity; lia. }
    destruct (timeout <=? 0).
    + injection Hloop as <- <- <-.
      exists [EvRead n ret bytes]. cbn [trace read_bytes flat_map].
      rewrite app_nil_r.
      split; [reflexivity|]. split; [lia|]. split; [lia|].
      split; intros k Hk; [apply Hw_in | apply Hw_out]; lia.
    + assert (Hn1 : 0 <= n - ret) by lia.
      destruct (IH _ _ _ _ _ _ _ _ Hn1 Hloop)
        as (reads & Htr & Hn' & Hlen' & Hin & Hout).
      exists (EvRead n ret bytes :: reads).
      cbn [trace] in Htr.
      split; [rewrite Htr, <- app_assoc; reflexivity|].
      change (read_bytes (EvRead n ret bytes :: reads))
        with (bytes ++ read_bytes reads).
      split; [lia|]. split; [rewrite length_app; lia|].
      split.
      * intros k Hk. destruct (Z.lt_ge_cases k (off + ret)) as [Hlo | Hhi].
        -- rewrite Hout by lia. rewrite Hw_in by lia.
           rewrite app_nth1 by lia. reflexivity.
        -- rewrite Hin by lia. rewrite app_nth2 by lia.
           f_equal. lia.
      * intros k Hk. rewrite Hout by lia. apply Hw_out. lia.
Qed.

(** C6, amended.  Over a transport whose reads report no error:
    [jtag_mpsse_sync] appends the byte [0xaa] and hands the buffer to the
    transport in one write, then only reads; and it returns 0 exactly
    when the bytes its reads handed over are [0xfa] and [0xaa], no more
    and no fewer.  Any other answer, and any receive that comes up short
    within the attempt budget, gives a nonzero result. *)
Theorem mpsse_sync_iff (s : jtag T) :
  let res := jtag_mpsse_sync tp uninit s in
  let new := new_events s (snd res) in
  (exists (l : Z) (reads : list event) (rest : Z),
      new = EvWrite (jtag_buf s ++ [0xaa]) l :: reads ++ [EvRecv 2 rest]
      /\ Forall is_read reads)
  /\ (fst res = 0 <-> read_bytes new = [0xfa; 0xaa]).
Proof.
  intros res new. subst res new. unfold jtag_mpsse_sync.
  destruct (jtag_send_spec tp (put 0xaa s))
    as [[Hempty _] | [_ (l & dev & _ & Hsend)]].
  { exfalso. unfold jtag_buf_i in Hempty. rewrite put_buf, length_app in Hempty.
    cbn [length] in Hempty. lia. }
  rewrite Hsend. cbn [snd].
  set (s2 := Jtag _ dev _).
  destruct (jtag_recv_spec tp uninit (Some 0) 2 s2)
    as (n' & p' & s3 & reads & Hrecv & Hloop & _ & Htr & Hrd & _).
  rewrite Hrecv. cbn [fst snd].
  assert (H2 : 0 <= 2) by lia.
  destruct (jtag_recv_loop_data _ _ _ _ _ _ _ _ _ H2 Hloop)
    as (reads' & Htr' & Hn' & Hlen & Hin & _).
  cbn [trace] in Htr'. apply app_inv_head in Htr'. subst reads'.
  assert (Hnew : new_events s s3
                 = EvWrite (jtag_buf s ++ [0xaa]) l :: reads ++ [EvRecv 2 n']).
  { apply new_events_app. rewrite Htr. subst s2. cbn [trace put jtag_buf].
    rewrite <- app_assoc. reflexivity. }
  rewrite Hnew. split.
  { exists l, reads, n'. split; [reflexivity | exact Hrd]. }
  change (read_bytes (EvWrite (jtag_buf s ++ [0xaa]) l :: reads ++ [EvRecv 2 n']))
    with (read_bytes (reads ++ [EvRecv 2 n'])).
  rewrite read_bytes_app. cbn [read_bytes flat_map]. rewrite app_nil_r.
  fold (read_bytes reads).
  split.
  - intros Hres.
    apply Z.lor_eq_0_iff in Hres. destruct Hres as [Hres Hb1].
    apply Z.lor_eq_0_iff in Hres. destruct Hres as [Hzero Hb0].
    subst n'.
    pose proof (Hin 0 ltac:(lia)) as H0. pose proof (Hin 1 ltac:(lia)) as H1.
    destruct (Z.eqb_spec (p' 0) 0xfa) as [E0 | ?]; [|discriminate].
    destruct (Z.eqb_spec (p' 1) 0xaa) as [E1 | ?]; [|discriminate].
    destruct (read_bytes reads) as [|a [|b [|c rb]]]; cbn [length] in Hlen; try lia.
    change (p' 0 = a) in H0. change (p' 1 = b) in H1. congruence.
  - intros Hrb. rewrite Hrb in Hlen, Hin. cbn [length] in Hlen.
    assert (n' = 0) by lia. subst n'.
    pose proof (Hin 0 ltac:(lia)) as H0. pose proof (Hin 1 ltac:(lia)) as H1.
    change (p' 0 = 0xfa) in H0. change (p' 1 = 0xaa) in H1.
    rewrite H0, H1. reflexivity.
Qed.

End Sync.

Lemma bridge_reads_ok : reads_ok Bridge.tp.
Proof.
  intros d size Hsize. cbn. rewrite length_firstn. split; lia.
Qed.

Lemma mpsse_sync_iff_witness :
  reads_ok Bridge.tp
  /\ fst (jtag_mpsse_sync Bridge.tp (fun _ => 0) Bridge.start) = 0
  /\ read_bytes (new_events Bridge.start
                   (snd (jtag_mpsse_sync Bridge.tp (fun _ => 0) Bridge.start)))
     = [0xfa; 0xaa].
Proof.
  split; [exact bridge_reads_ok|].
  destruct (mpsse_sync_iff Bridge.tp (fun _ => 0) bridge_reads_ok Bridge.start)
    as (_ & Hiff).
  assert (H : fst (jtag_mpsse_sync Bridge.tp (fun _ => 0) Bridge.start) = 0)
    by (vm_compute; reflexivity).
  split; [exact H | exact (proj1 Hiff H)].
Defined.

(** C6, as the specification states it, fails on its last clause: when the
    transport accepts none of the bytes of the flush, so that [jtag_send]
    returns 1, and the two reads that follow still hand over [0xfa] and
    [0xaa], [jtag_mpsse_sync] returns 0.  The result of the flush is
    dropped. *)
Lemma mpsse_sync_ignores_flush :
  let s := Scripted.start ([0], [(2, [0xfa; 0xaa])]) in
  fst (jtag_send Scripted.tp (put 0xaa s)) = 1
  /\ trace (snd (jtag_mpsse_sync Scripted.tp (fun _ => 0) s))
     = [EvWrite [0xaa] 0; EvRead 2 2 [0xfa; 0xaa]; EvRecv 2 0]
  /\ fst (jtag_mpsse_sync Scripted.tp (fun _ => 0) s) = 0.
Proof. vm_compute. repeat split. Qed.

(** ** The instruction register *)

Lemma jtag_shift_bits_unit {T} (tdi : option mem) (n : Z) (do_read : bool) (s : jtag T) :
  jtag_shift_bits tdi n do_read s
  = Jtag (jtag_buf s ++ tail_unit tdi n do_read) (ftdi s)
      (trace s ++ [EvShiftBits n do_read]).
Proof.
  unfold jtag_shift_bits, note, tail_unit.
  destruct tdi as [p|]; destruct (n >? 1);
    cbn [is_some put jtag_buf ftdi trace];
    rewrite <- ?app_assoc; cbn [app]; reflexivity.
Qed.

Lemma jtag_shift_bytes_unit {T} (tdi : option mem) (n : Z) (do_read : bool) (s : jtag T) :
  jtag_shift_bytes tdi n do_read s
  = Jtag (jtag_buf s ++ bytes_unit tdi n do_read) (ftdi s)
      (trace s ++ [EvShiftBytes n do_read]).
Proof.
  unfold jtag_shift_bytes, note, bytes_unit.
  destruct tdi as [p|]; [rewrite puts_spec|];
    cbn [put jtag_buf ftdi trace]; rewrite <- ?app_assoc; cbn [app];
    rewrite ?map_map; reflexivity.
Qed.

Lemma jtag_ir_write_unfold {T} (i : Z) (s : jtag T) :
  jtag_ir_write i s
  = Jtag (jtag_buf s
          ++ [0x4b; 3; 0x83; 0x1b; 4;
              to_uchar (Z.land (to_uchar i) (Z.shiftl 1 (6 - 1) - 1));
              0x4b; 0;
              to_uchar (if c_true (Z.land (to_uchar i) (Z.shiftl 1 (6 - 1)))
                        then 0x81 else 0x01);
              0x4b; 1; 0x81])
      (ftdi s) (trace s ++ [EvShiftBits 6 false]).
Proof.
  unfold jtag_ir_write. rewrite jtag_shift_bits_unit.
  unfold jtag_exit1_ir_to_rti, jtag_rti_to_shift_ir.
  rewrite !put_put_put. cbn [jtag_buf ftdi trace].
  rewrite <- !app_assoc. reflexivity.
Qed.

Lemma ir_instruction_table :
  all_below 256 (fun i =>
    (to_uchar (Z.land (to_uchar i) (Z.shiftl 1 (6 - 1) - 1)) =? i mod 32)
    && (to_uchar (if c_true (Z.land (to_uchar i) (Z.shiftl 1 (6 - 1)))
                  then 0x81 else 0x01)
        =? (if Z.testbit i 5 then 0x81 else 0x01))
    && (i mod 32 + 32 * Z.b2z (Z.testbit i 5) =? i mod 64)
    && ((i mod 64) mod 32 =? i mod 32)
    && Bool.eqb (Z.testbit (i mod 64) 5) (Z.testbit i 5))
  = true.
Proof. vm_compute. reflexivity. Qed.

(** X1.  [jtag_ir_write] touches neither the transport nor the trace of
    transport calls: it appends twelve bytes, the entry into Shift-IR, a
    five-bit write of the low five bits of the instruction, a one-bit TMS
    command with bit 5 on the data line, and the way back to run-test-idle.
    The two data fields together are the instruction modulo 64, so the two
    high bits of the byte passed in are never sent. *)
Theorem jtag_ir_write_bytes {T} (instruction : Z) (s : jtag T) :
  0 <= instruction < 256 ->
  jtag_ir_write instruction s
  = Jtag (jtag_buf s
          ++ [0x4b; 3; 0x83;
              0x1b; 4; instruction mod 32;
              0x4b; 0; (if Z.testbit instruction 5 then 0x81 else 0x01);
              0x4b; 1; 0x81])
      (ftdi s) (trace s ++ [EvShiftBits 6 false])
  /\ instruction mod 32 + 32 * Z.b2z (Z.testbit instruction 5) = instruction mod 64
  /\ jtag_ir_write (instruction mod 64) s = jtag_ir_write instruction s.
Proof.
  intros Hi.
  assert (Hall : forall j, 0 <= j < 256 ->
            jtag_ir_write j s
            = Jtag (jtag_buf s
                    ++ [0x4b; 3; 0x83; 0x1b; 4; j mod 32;
                        0x4b; 0; (if Z.testbit j 5 then 0x81 else 0x01);
                        0x4b; 1; 0x81])
                (ftdi s) (trace s ++ [EvShiftBits 6 false])
            /\ j mod 32 + 32 * Z.b2z (Z.testbit j 5) = j mod 64
            /\ (j mod 64) mod 32 = j mod 32
            /\ Z.testbit (j mod 64) 5 = Z.testbit j 5).
  { intros j Hj.
    pose proof (all_below_spec _ _ ir_instruction_table j Hj) as H.
    cbv beta in H.
    apply andb_prop in H. destruct H as [H H5].
    apply andb_prop in H. destruct H as [H H4].
    apply andb_prop in H. destruct H as [H H3].
    apply andb_prop in H. destruct H as [H1 H2].
    apply Z.eqb_eq in H1, H2, H3, H4. apply Bool.eqb_prop in H5.
    rewrite jtag_ir_write_unfold, H1, H2. repeat split; assumption. }
  destruct (Hall instruction Hi) as (Hb & Hsum & Hm32 & Hb5).
  split; [exact Hb|]. split; [exact Hsum|].
  assert (Hm : 0 <= instruction mod 64 < 256)
    by (pose proof (Z.mod_pos_bound instruction 64 ltac:(lia)); lia).
  destruct (Hall _ Hm) as (Hb' & _).
  rewrite Hb', Hb, Hm32, Hb5. reflexivity.
Qed.

Lemma jtag_ir_write_bytes_witness :
  0 <= 0xc9 < 256
  /\ jtag_buf (jtag_ir_write 0xc9 Bridge.start)
     = [0x4b; 3; 0x83; 0x1b; 4; 0x09; 0x4b; 0; 0x01; 0x4b; 1; 0x81]
  /\ jtag_ir_write (0xc9 mod 64) Bridge.start = jtag_ir_write 0xc9 Bridge.start.
Proof.
  split; [lia|].
  destruct (jtag_ir_write_bytes 0xc9 Bridge.start) as (Hb & _ & Hm); [lia|].
  split; [rewrite Hb; reflexivity | exact Hm].
Defined.

(** ** The byte-mode header *)

Lemma land_ff (a : Z) : Z.land a 0xff = a mod 256.
Proof. change 0xff with (Z.ones 8). rewrite Z.land_ones by lia. reflexivity. Qed.

Lemma length_field (a : Z) :
  to_uchar (Z.land a 0xff) + 256 * to_uchar (Z.land (Z.shiftr a 8) 0xff)
  = a mod 65536.
Proof.
  rewrite !land_ff, Z.shiftr_div_pow2 by lia. unfold to_uchar.
  rewrite !Z.mod_mod by lia.
  change 65536 with (256 * 256). change (2 ^ 8) with 256.
  rewrite Z.rem_mul_r by lia. reflexivity.
Qed.

(** X2.  The unit [jtag_shift_bytes] appends is an opcode, a two-byte
    little-endian length field and, only when writing, one byte for each
    of the [n] cells of [tdi]; nothing else of the state changes.  The
    opcode is [LSB], with [DO_WRITE | WRITE_NEG] exactly when [tdi] is
    given and [DO_READ] exactly when reading, never a TMS or bit-mode
    command.  The length field holds [n - 1] modulo 65536, so it gives
    [n] back exactly when [n] is between 1 and 65536. *)
Theorem jtag_shift_bytes_header {T} (tdi : option mem) (n : Z) (do_read : bool)
    (s : jtag T) :
  exists cmd lo hi : Z,
    jtag_shift_bytes tdi n do_read s
    = Jtag (jtag_buf s ++ [cmd; lo; hi]
            ++ match tdi with
               | Some p => map (fun i => to_uchar (p (Z.of_nat i))) (seq 0 (Z.to_nat n))
               | None => []
               end)
        (ftdi s) (trace s ++ [EvShiftBytes n do_read])
    /\ cmd = 0x08 + (if is_some tdi then 0x11 else 0) + (if do_read then 0x20 else 0)
    /\ Bridge.has Mpsse.WRITE_TMS cmd = false
    /\ Bridge.has Mpsse.BITMODE cmd = false
    /\ 0 <= lo < 256 /\ 0 <= hi < 256
    /\ lo + 256 * hi = (n - 1) mod 65536
    /\ (lo + 256 * hi + 1 = n <-> 1 <= n <= 65536).
Proof.
  eexists _, (to_uchar (Z.land (n - 1) 0xff)),
    (to_uchar (Z.land (Z.shiftr (n - 1) 8) 0xff)).
  split.
  { unfold jtag_shift_bytes, note.
    destruct tdi as [p|]; [rewrite puts_spec|];
      cbn [put jtag_buf ftdi trace]; rewrite <- ?app_assoc; cbn [app];
      rewrite ?map_map; reflexivity. }
  split; [destruct tdi, do_read; reflexivity|].
  split; [destruct tdi, do_read; reflexivity|].
  split; [destruct tdi, do_read; reflexivity|].
  split; [apply to_uchar_range|]. split; [apply to_uchar_range|].
  split; [apply length_field|].
  rewrite length_field.
  pose proof (Z.mod_pos_bound (n - 1) 65536 ltac:(lia)) as Hb.
  split.
  - intros H. lia.
  - intros H. rewrite Z.mod_small by lia. lia.
Qed.

(** ** The decoded tail *)

Lemma realign_bits_table :
  all_below 8 (fun k =>
    all_below 256 (fun a =>
      (realign a 0 (k + 1) <? 2 ^ (k + 1)) && (realign a 0x80 (k + 1) <? 2 ^ (k + 1))))
  = true.
Proof. vm_compute. reflexivity. Qed.

(** X3.  Whatever two bytes the bridge sends back, the value
    [jtag_recv_bits] stores for an [n]-bit tail is below [2^n]: the last
    captured byte holds the [n] tail bits and nothing above them. *)
Theorem recv_bits_value_fits (rbuf : mem) (n : Z) :
  1 <= n <= 8 -> 0 <= rbuf 0 < 256 -> 0 <= rbuf 1 < 256 ->
  0 <= recv_bits_value rbuf n < 2 ^ n.
Proof.
  intros Hn Ha Hb.
  rewrite recv_bits_value_realign by assumption.
  pose proof (realign_range (rbuf 0) (rbuf 1) n Hn Ha Hb) as Hr.
  split; [lia|].
  pose proof (all_below_spec _ _ realign_bits_table (n - 1) ltac:(lia)) as H.
  cbv beta in H.
  pose proof (all_below_spec _ _ H (rbuf 0) Ha) as H0. cbv beta in H0.
  replace (n - 1 + 1) with n in H0 by lia.
  apply andb_prop in H0. destruct H0 as [Hz Ht].
  apply Z.ltb_lt in Hz, Ht.
  rewrite realign_top_bit.
  pose proof (all_below_spec _ _ land_top_bit_table (rbuf 1) Hb) as Hm.
  cbv beta in Hm. apply orb_prop in Hm.
  destruct Hm as [Hm | Hm]; apply Z.eqb_eq in Hm; rewrite Hm; assumption.
Qed.

Lemma recv_bits_value_fits_witness :
  (1 <= 3 <= 8) /\ (0 <= 0xff < 256)
  /\ 0 <= recv_bits_value (fun _ => 0xff) 3 < 2 ^ 3.
Proof.
  split; [lia|]. split; [lia|].
  apply (recv_bits_value_fits (fun _ => 0xff) 3); lia.
Defined.

(** X4.  Over a transport whose reads report no error, [jtag_recv_bits]
    returns 0 or 1, never touches the command buffer, and its reads hand
    over at most the one or two bytes its local array [rbuf] holds.  It
    writes at most the one cell [*tdo]: every other cell of the caller's
    array is as before, and so is [*tdo] itself whenever the result is 1.
    For a bit count in 1..8 the result is 0 exactly when the reads handed
    over all the bytes asked for, and [*tdo] is then the value decoded from
    them.  A bit count outside 1..8 is refused with 1 before the transport
    is called. *)
Theorem jtag_recv_bits_frame {T} (tp : transport T) (uninit p : mem) (off n : Z)
    (s : jtag T) :
  reads_ok tp ->
  let res := jtag_recv_bits tp uninit p off n s in
  let got := read_bytes (new_events s (snd res)) in
  let k := if n >? 1 then 2 else 1 in
  (fst (fst res) = 0 \/ fst (fst res) = 1)
  /\ jtag_buf (snd res) = jtag_buf s
  /\ Z.of_nat (length got) <= k
  /\ (forall i, i <> off -> snd (fst res) i = p i)
  /\ (fst (fst res) = 1 -> snd (fst res) off = p off)
  /\ (1 <= n <= 8 -> (fst (fst res) = 0 <-> Z.of_nat (length got) = k))
  /\ (fst (fst res) = 0 ->
      exists rbuf : mem,
        rbuf 0 = nth 0 got 0
        /\ (1 < n -> rbuf 1 = nth 1 got 0)
        /\ snd (fst res) off = recv_bits_value rbuf n)
  /\ (n < 1 \/ 8 < n -> res = (1, p, s)).
Proof.
  intros Hreads res got k. subst res got.
  assert (Hk : 1 <= k <= 2) by (subst k; destruct (n >? 1); lia).
  assert (Hnone : read_bytes (new_events s s) = []).
  { rewrite (new_events_app s s []); [reflexivity|]. rewrite app_nil_r. reflexivity. }
  unfold jtag_recv_bits.
  destruct (Z.ltb_spec n 1) as [Hlo | Hlo]; cbn [orb].
  { cbn [fst snd]. rewrite Hnone. cbn [length].
    split; [now right|]. split; [reflexivity|]. split; [lia|].
    split; [reflexivity|]. split; [reflexivity|]. split; [lia|].
    split; [discriminate | reflexivity]. }
  destruct (Z.gtb_spec n 8) as [Hhi | Hhi].
  { cbn [fst snd]. rewrite Hnone. cbn [length].
    split; [now right|]. split; [reflexivity|]. split; [lia|].
    split; [reflexivity|]. split; [reflexivity|]. split; [lia|].
    split; [discriminate | reflexivity]. }
  fold k.
  destruct (jtag_recv_spec tp uninit (Some 0) k s)
    as (n' & p' & s' & reads & Hrecv & Hloop & Hbuf & Htr & _).
  rewrite Hrecv.
  assert (Hk0 : 0 <= k) by lia.
  destruct (jtag_recv_loop_data tp Hreads _ _ _ _ _ _ _ _ _ Hk0 Hloop)
    as (reads' & Htr' & Hn' & Hlen & Hin & _).
  cbn [trace] in Htr'. apply app_inv_head in Htr'. subst reads'.
  assert (Hgot : read_bytes (new_events s s') = read_bytes reads).
  { rewrite (new_events_app _ _ _ Htr), read_bytes_app.
    cbn [read_bytes flat_map]. rewrite app_nil_r. reflexivity. }
  unfold c_true. destruct (Z.eqb_spec n' 0) as [Hz | Hnz]; cbn [negb fst snd];
    rewrite Hgot.
  - subst n'. split; [now left|]. split; [exact Hbuf|]. split; [lia|].
    split.
    { intros i Hi. unfold upd. destruct (Z.eqb_spec i off); [contradiction | reflexivity]. }
    split; [discriminate|]. split; [intros _; split; intros _; [lia | reflexivity]|].
    split; [|intros [? | ?]; lia].
    intros _. exists p'.
    split; [exact (Hin 0 ltac:(lia))|].
    split.
    + intros Hn1. assert (Hk2 : k = 2).
      { subst k. destruct (Z.gtb_spec n 1); [reflexivity | lia]. }
      exact (Hin 1 ltac:(lia)).
    + unfold upd. rewrite Z.eqb_refl. reflexivity.
  - split; [now right|]. split; [exact Hbuf|]. split; [lia|].
    split; [reflexivity|]. split; [reflexivity|].
    split; [intros _; split; [discriminate | lia]|].
    split; [discriminate | intros [? | ?]; lia].
Qed.

Lemma jtag_recv_bits_frame_witness :
  reads_ok Bridge.tp
  /\ fst (fst (jtag_recv_bits Bridge.tp (fun _ => 0) (fun _ => 0x77) 4 3
                 (Jtag [] [0x00; 0xa0; 0x33] []))) = 0
  /\ (forall i, i <> 4 ->
        snd (fst (jtag_recv_bits Bridge.tp (fun _ => 0) (fun _ => 0x77) 4 3
                    (Jtag [] [0x00; 0xa0; 0x33] []))) i = 0x77)
  /\ Z.of_nat (length (read_bytes
                         (new_events (Jtag [] [0x00; 0xa0; 0x33] [])
                            (snd (jtag_recv_bits Bridge.tp (fun _ => 0) (fun _ => 0x77)
                                    4 3 (Jtag [] [0x00; 0xa0; 0x33] [])))))) <= 2.
Proof.
  split; [exact bridge_reads_ok|]. split; [vm_compute; reflexivity|].
  destruct (jtag_recv_bits_frame Bridge.tp (fun _ => 0) (fun _ => 0x77) 4 3
              (Jtag [] [0x00; 0xa0; 0x33] []) bridge_reads_ok)
    as (_ & _ & Hlen & Hframe & _).
  split; [exact Hframe | exact Hlen].
Defined.

(** ** Spinning in run-test-idle *)

Lemma spin_commands_length : Z.of_nat (length spin_commands) = 259.
Proof. reflexivity. Qed.

Lemma jtag_rti_spin_unfold {T} (tp : transport T) (s : jtag T) :
  jtag_rti_spin tp s
  = snd (jtag_send tp (Jtag (jtag_buf s ++ spin_commands) (ftdi s) (trace s))).
Proof.
  unfold jtag_rti_spin. rewrite put_put_put, puts_spec.
  cbn [jtag_buf ftdi trace]. rewrite <- app_assoc. reflexivity.
Qed.

Lemma jtag_rti_spin_spec {T} (tp : transport T) (s : jtag T) :
  exists (l : Z) (dev : T),
    ftdi_write_data tp (ftdi s) (jtag_buf s ++ spin_commands) = (l, dev)
    /\ jtag_rti_spin tp s
       = Jtag (if l =? jtag_buf_i s + 259 then [] else jtag_buf s ++ spin_commands)
           dev (trace s ++ [EvWrite (jtag_buf s ++ spin_commands) l]).
Proof.
  rewrite jtag_rti_spin_unfold.
  set (s2 := Jtag (jtag_buf s ++ spin_commands) (ftdi s) (trace s)).
  assert (Hlen : jtag_buf_i s2 = jtag_buf_i s + 259).
  { unfold jtag_buf_i. cbn [s2 jtag_buf]. rewrite length_app.
    pose proof spin_commands_length. lia. }
  destruct (jtag_send_spec tp s2) as [[Hempty _] | [_ (l & dev & Hw & Hsend)]].
  { unfold jtag_buf_i in *. lia. }
  exists l, dev. split; [exact Hw|].
  rewrite Hsend, Hlen. reflexivity.
Qed.

(** X5.  [jtag_rti_spin] always makes exactly one write: the pending
    bytes followed by its own 259 (TMS held at 0, then 128 clock-only
    commands of 8 edges each).  It reports nothing: when the transport
    accepts the write in full the buffer is left empty, and otherwise every
    one of those bytes stays queued for the next flush. *)
Theorem jtag_rti_spin_flush {T} (tp : transport T) (s : jtag T) :
  exists (l : Z) (dev : T),
    ftdi_write_data tp (ftdi s) (jtag_buf s ++ spin_commands) = (l, dev)
    /\ ftdi (jtag_rti_spin tp s) = dev
    /\ trace (jtag_rti_spin tp s)
       = trace s ++ [EvWrite (jtag_buf s ++ spin_commands) l]
    /\ (l = jtag_buf_i s + 259 -> jtag_buf (jtag_rti_spin tp s) = [])
    /\ (l <> jtag_buf_i s + 259 ->
        jtag_buf (jtag_rti_spin tp s) = jtag_buf s ++ spin_commands)
    /\ spin_commands
       = [0x4b; 0; 0x80] ++ concat (repeat [0x8e; 7] 128).
Proof.
  destruct (jtag_rti_spin_spec tp s) as (l & dev & Hw & Hs).
  exists l, dev. rewrite Hs. cbn [jtag_buf ftdi trace].
  split; [exact Hw|]. split; [reflexivity|]. split; [reflexivity|].
  split; [intros ->; now rewrite Z.eqb_refl|].
  split; [|reflexivity].
  intros Hl. destruct (Z.eqb_spec l (jtag_buf_i s + 259)); [contradiction | reflexivity].
Qed.

Lemma writes_of_app (l1 l2 : list event) :
  writes_of (l1 ++ l2) = writes_of l1 ++ writes_of l2.
Proof. unfold writes_of. apply flat_map_app. Qed.

Lemma rti_spins_spec {T} (tp : transport T) (k : nat) (s : jtag T) :
  exists new : list event,
    trace (rti_spins tp k s) = trace s ++ new
    /\ jtag_buf_i (rti_spins tp k s) <= jtag_buf_i s + 259 * Z.of_nat k
    /\ length (writes_of new) = k
    /\ no_receive new
    /\ Forall (fun w => Z.of_nat (length (fst w)) <= jtag_buf_i s + 259 * Z.of_nat k)
         (writes_of new).
Proof.
  induction k as [|k IH].
  - exists []. change (rti_spins tp 0 s) with s. rewrite app_nil_r.
    split; [reflexivity|]. split; [lia|]. split; [reflexivity|].
    split; constructor.
  - destruct IH as (new & Htr & Hlen & Hw & Hnr & Hall).
    change (rti_spins tp (S k) s) with (jtag_rti_spin tp (rti_spins tp k s)).
    set (s1 := rti_spins tp k s) in *.
    destruct (jtag_rti_spin_spec tp s1) as (l & dev & _ & Hs). rewrite Hs.
    exists (new ++ [EvWrite (jtag_buf s1 ++ spin_commands) l]).
    cbn [trace jtag_buf].
    split; [rewrite Htr, <- app_assoc; reflexivity|].
    split.
    { unfold jtag_buf_i in *. cbn [jtag_buf].
      destruct (l =? _); [cbn [length]; lia|].
      rewrite length_app. pose proof spin_commands_length. lia. }
    split; [rewrite writes_of_app, length_app, Hw; cbn; lia|].
    split; [apply Forall_app; split; [exact Hnr | repeat constructor]|].
    rewrite writes_of_app. apply Forall_app. split.
    + eapply Forall_impl; [|exact Hall]. cbv beta. intros w Hwl. lia.
    + repeat constructor. cbn [fst]. rewrite length_app.
      unfold jtag_buf_i in *. pose proof spin_commands_length. lia.
Qed.

(** X6.  A delay loop of [k] spins makes exactly [k] writes and no read,
    and neither the buffer nor any write ever holds more than the bytes
    pending at the start plus 259 per spin, whatever the transport answers.
    So the loops of [main] (500 spins) stay inside the allocated block
    whenever at most [JTAG_BUFFER_SIZE - 129500] bytes are pending when
    they start. *)
Theorem rti_spins_bounded {T} (tp : transport T) (k : nat) (s : jtag T) :
  let s' := rti_spins tp k s in
  let new := new_events s s' in
  trace s' = trace s ++ new
  /\ length (writes_of new) = k
  /\ no_receive new
  /\ jtag_buf_i s' <= jtag_buf_i s + 259 * Z.of_nat k
  /\ Forall (fun w => Z.of_nat (length (fst w)) <= jtag_buf_i s + 259 * Z.of_nat k)
       (writes_of new)
  /\ (k = 500%nat -> jtag_buf_i s <= JTAG_BUFFER_SIZE - 129500 ->
      in_block s'
      /\ Forall (fun w => Z.of_nat (length (fst w)) <= JTAG_BUFFER_SIZE) (writes_of new)).
Proof.
  intros s' new. subst s' new.
  destruct (rti_spins_spec tp k s) as (new & Htr & Hlen & Hw & Hnr & Hall).
  rewrite (new_events_app _ _ _ Htr).
  repeat (split; [assumption|]).
  intros -> Hs. split.
  - unfold in_block. change (Z.of_nat 500) with 500 in Hlen. lia.
  - eapply Forall_impl; [|exact Hall]. cbv beta. intros w Hwl.
    change (Z.of_nat 500) with 500 in Hwl. lia.
Qed.

Lemma rti_spins_bounded_witness :
  jtag_buf_i Bridge.start <= JTAG_BUFFER_SIZE - 129500
  /\ in_block (rti_spins Bridge.tp 500 Bridge.start).
Proof.
  assert (H : jtag_buf_i Bridge.start <= JTAG_BUFFER_SIZE - 129500)
    by (vm_compute; discriminate).
  split; [exact H|].
  destruct (rti_spins_bounded Bridge.tp 500 Bridge.start) as (_ & _ & _ & _ & _ & Hmain).
  exact (proj1 (Hmain eq_refl H)).
Defined.

(** ** What a receive leaves in memory *)

(** X7.  Over a transport whose reads report no error, [jtag_recv] into
    [rbuf] never writes outside [rbuf[0 .. n-1]]: it returns a count
    between 0 and [n] of bytes still missing, the cells before that hold
    the bytes the reads handed over, in order, every other cell of memory
    is as before, and the command buffer is untouched.  It returns 0
    exactly when the reads handed over [n] bytes. *)
Theorem jtag_recv_delivers {T} (tp : transport T) (p : mem) (off n : Z) (s : jtag T) :
  reads_ok tp -> 0 <= n ->
  let res := jtag_recv tp p (Some off) n s in
  let got := read_bytes (new_events s (snd res)) in
  let missing := fst (fst res) in
  0 <= missing <= n
  /\ Z.of_nat (length got) = n - missing
  /\ (forall k, off <= k < off + (n - missing) ->
        snd (fst res) k = nth (Z.to_nat (k - off)) got 0)
  /\ (forall k, k < off \/ off + (n - missing) <= k -> snd (fst res) k = p k)
  /\ jtag_buf (snd res) = jtag_buf s
  /\ (missing = 0 <-> Z.of_nat (length got) = n).
Proof.
  intros Hreads Hn res got missing. subst res got missing.
  destruct (jtag_recv_spec tp p (Some off) n s)
    as (n' & p' & s' & reads & Hrecv & Hloop & Hbuf & Htr & Hrd & _).
  rewrite Hrecv. cbn [fst snd].
  destruct (jtag_recv_loop_data tp Hreads _ _ _ _ _ _ _ _ _ Hn Hloop)
    as (reads' & Htr' & Hn' & Hlen & Hin & Hout).
  cbn [trace] in Htr'. apply app_inv_head in Htr'. subst reads'.
  rewrite (new_events_app _ _ _ Htr), read_bytes_app.
  cbn [read_bytes flat_map]. rewrite app_nil_r. fold (read_bytes reads).
  repeat (split; [assumption|]).
  split; lia.
Qed.

Lemma jtag_recv_delivers_witness :
  reads_ok Bridge.tp /\ 0 <= 2
  /\ fst (fst (jtag_recv Bridge.tp (fun _ => 0) (Some 5) 2
                 (Jtag [] [0x11; 0x22; 0x33] []))) = 0
  /\ (forall k, k < 5 \/ 5 + (2 - 0) <= k ->
        snd (fst (jtag_recv Bridge.tp (fun _ => 0) (Some 5) 2
                    (Jtag [] [0x11; 0x22; 0x33] []))) k = 0).
Proof.
  split; [exact bridge_reads_ok|]. split; [lia|].
  destruct (jtag_recv_delivers Bridge.tp (fun _ => 0) 5 2
              (Jtag [] [0x11; 0x22; 0x33] []) bridge_reads_ok ltac:(lia))
    as (_ & _ & _ & Hout & _).
  assert (H : fst (fst (jtag_recv Bridge.tp (fun _ => 0) (Some 5) 2
                          (Jtag [] [0x11; 0x22; 0x33] []))) = 0)
    by (vm_compute; reflexivity).
  split; [exact H|]. rewrite H in Hout. exact Hout.
Defined.

(** The loop with a null [rbuf], over a transport that always has the 32
    bytes it is asked for. *)
Lemma jtag_recv_loop_null {T} (tp : transport T) (fuel : nat) :
  (forall (d : T) (size : Z), fst (fst (ftdi_read_data tp d size)) = size) ->
  forall (p : mem) (n timeout : Z) (s : jtag T),
    0 <= timeout -> (Z.to_nat timeout < fuel)%nat -> n <= 32 * (timeout + 1) ->
    exists s' : jtag T,
      jtag_recv_loop tp fuel p None n timeout s
      = Some ((if n >? 0 then - ((- n) mod 32) else n), p, s').
Proof.
  intros Hfull. induction fuel as [|fuel IH]; intros p n timeout s Ht Hfuel Hn; [lia|].
  cbn [jtag_recv_loop]. destruct (Z.gtb_spec n 0) as [Hpos | Hle].
  2:{ exists s. reflexivity. }
  pose proof (Hfull (ftdi s) 32) as Hret.
  destruct (ftdi_read_data tp (ftdi s) 32) as [[ret bytes] dev]. cbn [fst] in Hret.
  subst ret.
  assert (Hmod : n <= 32 -> n - 32 = - ((- n) mod 32)).
  { intros H32. destruct (Z.eq_dec n 32) as [-> | Hne]; [reflexivity|].
    replace (- n) with (32 - n + (-1) * 32) by lia.
    rewrite Z.mod_add by lia. rewrite Z.mod_small by lia. lia. }
  destruct (Z.leb_spec timeout 0) as [Hz | Htpos].
  - eexists. rewrite <- Hmod by lia. reflexivity.
  - edestruct (IH p (n - 32) (timeout - 1)) as (s' & Hloop); [lia | lia | lia |].
    rewrite Hloop. exists s'. f_equal. f_equal. f_equal.
    destruct (Z.gtb_spec (n - 32) 0) as [Hmore | Hdone].
    + f_equal. replace (- (n - 32)) with (- n + 1 * 32) by lia.
      now rewrite Z.mod_add by lia.
    + apply Hmod. lia.
Qed.

(** X8.  With a null [rbuf] the bytes are discarded into a scratch array
    and the caller's memory is untouched, but every read asks for 32 bytes
    whatever [n] is.  So over a transport that always has them, up to the
    672 bytes the attempt budget covers, the result is 0 only when [n] is a
    multiple of 32 and is otherwise negative: the next multiple of 32 was
    taken from the device. *)
Theorem jtag_recv_null_overreads {T} (tp : transport T) (p : mem) (n : Z) (s : jtag T) :
  (forall (d : T) (size : Z), fst (fst (ftdi_read_data tp d size)) = size) ->
  0 < n <= 672 ->
  let res := jtag_recv tp p None n s in
  fst (fst res) = - ((- n) mod 32)
  /\ -32 < fst (fst res) <= 0
  /\ (fst (fst res) = 0 <-> n mod 32 = 0)
  /\ snd (fst res) = p.
Proof.
  intros Hfull Hn res. subst res. unfold jtag_recv.
  destruct (jtag_recv_loop_null tp (S (Z.to_nat JTAG_RECV_ATTEMPTS)) Hfull p n
              JTAG_RECV_ATTEMPTS s) as (s' & Hloop);
    [unfold JTAG_RECV_ATTEMPTS; lia | lia | unfold JTAG_RECV_ATTEMPTS; lia |].
  rewrite Hloop. destruct (Z.gtb_spec n 0); [|lia]. cbn [fst snd].
  pose proof (Z.mod_pos_bound (- n) 32 ltac:(lia)) as Hb.
  split; [reflexivity|]. split; [lia|]. split; [|reflexivity].
  assert (Hdiv : (- n) mod 32 = 0 <-> n mod 32 = 0).
  { rewrite !Z.mod_divide by lia. apply Z.divide_opp_r. }
  split; intros Hz; [apply Hdiv; lia | apply Hdiv in Hz; lia].
Qed.

Lemma jtag_recv_null_overreads_witness :
  (forall (d : Flood.dev) (size : Z), fst (fst (ftdi_read_data Flood.tp d size)) = size)
  /\ 0 < 5 <= 672
  /\ fst (fst (jtag_recv Flood.tp (fun _ => 0x77) None 5 Flood.start)) = -27
  /\ snd (fst (jtag_recv Flood.tp (fun _ => 0x77) None 5 Flood.start)) = (fun _ => 0x77).
Proof.
  assert (Hfull : forall (d : Flood.dev) (size : Z),
             fst (fst (ftdi_read_data Flood.tp d size)) = size)
    by (intros d size; reflexivity).
  split; [exact Hfull|]. split; [lia|].
  destruct (jtag_recv_null_overreads Flood.tp (fun _ => 0x77) 5 Flood.start Hfull
              ltac:(lia)) as (Hr & _ & _ & Hp).
  split; [exact Hr | exact Hp].
Defined.


(** ** What a transfer's result says *)

Lemma clean_no_receive (new : list event) :
  Forall (clean false) new -> no_receive new.
Proof.
  unfold no_receive. intros H. eapply Forall_impl; [|exact H].
  intros e He. destruct e; cbn in *; try exact I; try discriminate.
  destruct He; discriminate.
Qed.

Lemma no_receive_app (l1 l2 : list event) :
  no_receive l1 -> no_receive l2 -> no_receive (l1 ++ l2).
Proof. unfold no_receive. intros. apply Forall_app. now split. Qed.

Lemma no_receive_count_reads (l : list event) :
  no_receive l -> count_reads l = 0%nat.
Proof.
  unfold count_reads. intros H. induction H as [|e l He _ IH]; [reflexivity|].
  destruct e; cbn in *; try contradiction; exact IH.
Qed.

Section Result.
Context {T : Type} (tp : transport T) (uninit : mem).

Lemma jtag_recv_clean (capture : bool) (p : mem) (rbuf : option Z) (n : Z) (s : jtag T) :
  exists (n' : Z) (p' : mem) (s' : jtag T) (ev : list event),
    jtag_recv tp p rbuf n s = (n', p', s')
    /\ trace s' = trace s ++ ev
    /\ jtag_buf s' = jtag_buf s
    /\ (n' = 0 -> capture = true -> Forall (clean capture) ev).
Proof.
  destruct (jtag_recv_spec tp p rbuf n s)
    as (n' & p' & s' & reads & Hrecv & _ & Hbuf & Htr & Hrd & _).
  exists n', p', s', (reads ++ [EvRecv n n']).
  repeat (split; [assumption|]).
  intros -> Hc. apply Forall_app. split.
  - eapply Forall_impl; [|exact Hrd]. intros e He. destruct e; try contradiction.
    exact Hc.
  - repeat constructor. exact Hc.
Qed.

Lemma jtag_recv_bits_clean (p : mem) (off n : Z) (s : jtag T) :
  exists (r : Z) (p' : mem) (s' : jtag T) (ev : list event),
    jtag_recv_bits tp uninit p off n s = (r, p', s')
    /\ trace s' = trace s ++ ev
    /\ jtag_buf s' = jtag_buf s
    /\ (r = 0 \/ r = 1)
    /\ (r = 0 -> Forall (clean true) ev).
Proof.
  unfold jtag_recv_bits. destruct ((n <? 1) || (n >? 8)).
  - exists 1, p, s, []. rewrite app_nil_r. repeat split; auto; discriminate.
  - destruct (jtag_recv_clean true uninit (Some 0) (if n >? 1 then 2 else 1) s)
      as (n' & p' & s' & ev & Hrecv & Htr & Hbuf & Hclean).
    rewrite Hrecv. unfold c_true.
    destruct (Z.eqb_spec n' 0) as [Hz | Hnz]; cbn [negb].
    + eexists _, _, _, ev. repeat split; auto.
    + eexists _, _, _, ev. repeat split; auto; discriminate.
Qed.

Lemma jtag_send_clean (capture : bool) (s : jtag T) :
  exists (r : Z) (s' : jtag T) (ev : list event),
    jtag_send tp s = (r, s')
    /\ trace s' = trace s ++ ev
    /\ (r = 0 \/ r = 1)
    /\ no_receive ev
    /\ (r = 0 -> jtag_buf s' = [] /\ Forall (clean capture) ev /\ writes_of ev <> []).
Proof.
  destruct (jtag_send_spec tp s) as [[_ Hsend] | [_ (l & dev & _ & Hsend)]];
    rewrite Hsend.
  - exists 1, s, []. rewrite app_nil_r. repeat split; auto; try constructor; discriminate.
  - destruct (Z.eqb_spec l (jtag_buf_i s)) as [Hl | Hl].
    + eexists _, _, [_]. split; [reflexivity|]. split; [reflexivity|].
      split; [now left|]. split; [repeat constructor|].
      intros _. split; [reflexivity|]. split; [|discriminate].
      repeat constructor. exact Hl.
    + eexists _, _, [_]. split; [reflexivity|]. split; [reflexivity|].
      split; [now right|]. split; [repeat constructor|]. discriminate.
Qed.

(** Rounds of the chunk loop that do not return went well. *)
Lemma dr_chunks_clean (fuel : nat) :
  forall (tdi tdo : option mem) (bytes_remaining chunk_length tdi_i tdo_i : Z)
         (s : jtag T),
    (Z.to_nat bytes_remaining <= fuel)%nat ->
    exists (ex : loop_exit T) (new : list event),
      dr_chunks tp fuel tdi tdo bytes_remaining chunk_length tdi_i tdo_i s = Some ex
      /\ match ex with
         | LoopReturn r tdo' s' =>
             r = 1 /\ trace s' = trace s ++ new
             /\ is_some tdo' = is_some tdo
             /\ (is_some tdo = false -> no_receive new)
         | LoopDone _ _ _ tdo' s' =>
             trace s' = trace s ++ new
             /\ is_some tdo' = is_some tdo
             /\ Forall (clean (is_some tdo)) new
         end.
Proof.
  induction fuel as [|fuel IH];
    intros tdi tdo bytes_remaining chunk_length tdi_i tdo_i s Hfuel.
  { rewrite dr_chunks_done by lia. eexists _, []. split; [reflexivity|].
    rewrite app_nil_r. repeat split. constructor. }
  destruct (Z.leb_spec bytes_remaining 0) as [Hle | Hpos].
  { rewrite dr_chunks_done by lia. eexists _, []. split; [reflexivity|].
    rewrite app_nil_r. repeat split. constructor. }
  cbn [dr_chunks]. destruct (Z.gtb_spec bytes_remaining 0) as [_ | ?]; [|lia].
  set (cl := if bytes_remaining >? JTAG_CHUNK_SIZE then JTAG_CHUNK_SIZE
             else bytes_remaining).
  assert (Hcl : 1 <= cl).
  { subst cl. unfold JTAG_CHUNK_SIZE.
    destruct (Z.gtb_spec bytes_remaining 32768); lia. }
  destruct (jtag_shift_bytes_spec (option_map (fun p => shift_ptr p tdi_i) tdi) cl
              (is_some tdo) s) as (added & Hs1 & _).
  set (s1 := jtag_shift_bytes _ cl (is_some tdo) s) in *.
  assert (Htr1 : trace s1 = trace s ++ [EvShiftBytes cl (is_some tdo)])
    by (rewrite Hs1; reflexivity).
  clearbody s1. clear Hs1.
  destruct (Z.gtb_spec (bytes_remaining - cl) 0) as [Hmore | Hlast].
  2:{ rewrite dr_chunks_done by lia.
      eexists _, [_]. split; [reflexivity|]. split; [exact Htr1|].
      split; [reflexivity|]. repeat constructor. }
  destruct (jtag_send_clean (is_some tdo) s1)
    as (r & s2 & ev2 & Hsend & Htr2 & Hr & Hnr2 & Hok2).
  rewrite Hsend. unfold c_true at 1.
  destruct (Z.eqb_spec r 0) as [Hr0 | Hr1]; cbn [negb].
  2:{ eexists _, ([EvShiftBytes cl (is_some tdo)] ++ ev2).
      split; [reflexivity|]. split; [reflexivity|].
      split; [rewrite Htr2, Htr1, <- app_assoc; reflexivity|].
      split; [reflexivity|].
      intros _. apply no_receive_app; [repeat constructor | exact Hnr2]. }
  destruct (Hok2 Hr0) as (_ & Hclean2 & _).
  destruct tdo as [p|]; cbn [is_some] in *.
  - destruct (jtag_recv_clean true p (Some tdo_i) cl s2)
      as (r2 & p1 & s3 & ev3 & Hrecv & Htr3 & _ & Hclean3).
    rewrite Hrecv. unfold c_true.
    destruct (Z.eqb_spec r2 0) as [Hr2 | Hr2]; cbn [negb].
    + destruct (IH tdi (Some p1) (bytes_remaining - cl) cl
                  (if is_some tdi then tdi_i + cl else tdi_i) (tdo_i + cl) s3)
        as (ex & new' & Hloop & Hex); [lia|].
      rewrite Hloop.
      exists ex, ([EvShiftBytes cl true] ++ ev2 ++ ev3 ++ new').
      split; [reflexivity|].
      assert (Htr : trace s3 ++ new'
                    = trace s ++ [EvShiftBytes cl true] ++ ev2 ++ ev3 ++ new').
      { rewrite Htr3, Htr2, Htr1, <- !app_assoc. reflexivity. }
      destruct ex as [r' tdo' s' | cl' ti to tdo' s']; cbn [is_some] in *.
      * destruct Hex as (Hr' & Htr' & Hsome & _).
        split; [exact Hr'|]. split; [rewrite Htr', Htr; reflexivity|].
        split; [exact Hsome | discriminate].
      * destruct Hex as (Htr' & Hsome & Hclean').
        split; [rewrite Htr', Htr; reflexivity|]. split; [exact Hsome|].
        apply Forall_app. split; [repeat constructor|].
        apply Forall_app. split; [exact Hclean2|].
        apply Forall_app. split; [now apply Hclean3 | exact Hclean'].
    + eexists _, ([EvShiftBytes cl true] ++ ev2 ++ ev3).
      split; [reflexivity|]. split; [reflexivity|].
      split; [rewrite Htr3, Htr2, Htr1, <- !app_assoc; reflexivity|].
      split; [reflexivity | discriminate].
  - destruct (IH tdi None (bytes_remaining - cl) cl
                (if is_some tdi then tdi_i + cl else tdi_i) tdo_i s2)
      as (ex & new' & Hloop & Hex); [lia|].
    rewrite Hloop.
    exists ex, ([EvShiftBytes cl false] ++ ev2 ++ new').
    split; [reflexivity|].
    assert (Htr : trace s2 ++ new'
                  = trace s ++ [EvShiftBytes cl false] ++ ev2 ++ new').
    { rewrite Htr2, Htr1, <- !app_assoc. reflexivity. }
    destruct ex as [r' tdo' s' | cl' ti to tdo' s']; cbn [is_some] in *.
    + destruct Hex as (Hr' & Htr' & Hsome & Hnr').
      split; [exact Hr'|]. split; [rewrite Htr', Htr; reflexivity|].
      split; [exact Hsome|]. intros _.
      apply no_receive_app; [repeat constructor|].
      apply no_receive_app; [exact Hnr2 | now apply Hnr'].
    + destruct Hex as (Htr' & Hsome & Hclean').
      split; [rewrite Htr', Htr; reflexivity|]. split; [exact Hsome|].
      apply Forall_app. split; [repeat constructor|].
      apply Forall_app. split; [exact Hclean2 | exact Hclean'].
Qed.

Lemma dr_finish_clean (tdi : option mem) (bits cl ti to : Z) (tdo : option mem)
    (s : jtag T) :
  exists (new : list event) (r : Z) (tdo' : option mem) (s' : jtag T),
    dr_finish tp uninit tdi bits cl ti to tdo s = (r, tdo', s')
    /\ trace s' = trace s ++ new
    /\ (r = 0 \/ r = 1)
    /\ is_some tdo' = is_some tdo
    /\ (is_some tdo = false -> no_receive new)
    /\ (r = 0 ->
        jtag_buf s' = []
        /\ Forall (clean (is_some tdo)) new
        /\ writes_of new <> []).
Proof.
  unfold dr_finish.
  assert (H1 : exists ev1,
             trace (if bits >? 0
                    then jtag_shift_bits (option_map (fun p => shift_ptr p ti) tdi)
                           bits (is_some tdo) s
                    else s) = trace s ++ ev1
             /\ Forall (clean (is_some tdo)) ev1 /\ no_receive ev1).
  { destruct (bits >? 0).
    - destruct (jtag_shift_bits_spec (option_map (fun p => shift_ptr p ti) tdi) bits
                  (is_some tdo) s) as (added & -> & _).
      eexists. split; [reflexivity|]. split; repeat constructor.
    - exists []. rewrite app_nil_r. repeat split; constructor. }
  destruct H1 as (ev1 & Htr1 & Hc1 & Hn1).
  set (s1 := if bits >? 0 then _ else s) in *. clearbody s1.
  destruct (tap_run_buf exit1DRToIdle s1) as (c & d & Hs2). cbn [tap_run] in Hs2.
  assert (Htr2 : trace (jtag_exit1_dr_to_rti s1) = trace s ++ ev1)
    by (rewrite Hs2; exact Htr1).
  set (s2 := jtag_exit1_dr_to_rti s1) in *. clearbody s2. clear Hs2.
  destruct (jtag_send_clean (is_some tdo) s2)
    as (r & s3 & ev3 & Hsend & Htr3 & Hr & Hn3 & Hok3).
  rewrite Hsend. unfold c_true at 1.
  destruct (Z.eqb_spec r 0) as [Hr0 | Hr1]; cbn [negb].
  2:{ exists (ev1 ++ ev3). eexists _, _, _. split; [reflexivity|].
      split; [rewrite Htr3, Htr2, <- app_assoc; reflexivity|].
      split; [now right|]. split; [reflexivity|].
      split; [intros _; now apply no_receive_app | discriminate]. }
  destruct (Hok3 Hr0) as (Hbuf3 & Hc3 & Hw3).
  assert (Hw13 : writes_of (ev1 ++ ev3) <> []).
  { rewrite writes_of_app. intros H. apply app_eq_nil in H. now destruct H. }
  destruct tdo as [p|]; cbn [is_some] in *.
  2:{ exists (ev1 ++ ev3). eexists _, _, _. split; [reflexivity|].
      split; [rewrite Htr3, Htr2, <- app_assoc; reflexivity|].
      split; [now left|]. split; [reflexivity|].
      split; [intros _; now apply no_receive_app|].
      intros _. split; [exact Hbuf3|]. split; [now apply Forall_app | exact Hw13]. }
  assert (H4 : exists r1 p1 s4 ev4,
             (if cl >? 0 then jtag_recv tp p (Some to) cl s3 else (0, p, s3))
             = (r1, p1, s4)
             /\ trace s4 = trace s3 ++ ev4
             /\ jtag_buf s4 = jtag_buf s3
             /\ (r1 = 0 -> Forall (clean true) ev4)).
  { destruct (cl >? 0).
    - destruct (jtag_recv_clean true p (Some to) cl s3)
        as (r1 & p1 & s4 & ev4 & Hrecv & Htr4 & Hbuf4 & Hc4).
      exists r1, p1, s4, ev4. repeat split; auto.
    - exists 0, p, s3, []. rewrite app_nil_r. repeat split. constructor. }
  destruct H4 as (r1 & p1 & s4 & ev4 & -> & Htr4 & Hbuf4 & Hc4).
  unfold c_true at 1.
  destruct (Z.eqb_spec r1 0) as [Hr1 | Hr1]; cbn [negb].
  2:{ exists ((ev1 ++ ev3) ++ ev4). eexists _, _, _. split; [reflexivity|].
      split; [rewrite Htr4, Htr3, Htr2, <- !app_assoc; reflexivity|].
      split; [now right|]. split; [reflexivity|].
      split; discriminate. }
  assert (H5 : exists r2 p2 s5 ev5,
             (if bits >? 0
              then let '(r2, p2, s5) :=
                     jtag_recv_bits tp uninit p1
                       (if cl >? 0 then to + cl else to) bits s4 in
                   if c_true r2 then (1, Some p2, s5) else (0, Some p2, s5)
              else (0, Some p1, s4))
             = (r2, Some p2, s5)
             /\ trace s5 = trace s4 ++ ev5
             /\ jtag_buf s5 = jtag_buf s4
             /\ (r2 = 0 \/ r2 = 1)
             /\ (r2 = 0 -> Forall (clean true) ev5)).
  { destruct (bits >? 0).
    - destruct (jtag_recv_bits_clean p1 (if cl >? 0 then to + cl else to) bits s4)
        as (r2 & p2 & s5 & ev5 & -> & Htr5 & Hbuf5 & Hr2 & Hc5).
      unfold c_true. destruct (Z.eqb_spec r2 0) as [-> | Hnz]; cbn [negb].
      + exists 0, p2, s5, ev5. repeat split; auto.
      + exists 1, p2, s5, ev5. repeat split; auto; discriminate.
    - exists 0, p1, s4, []. rewrite app_nil_r. repeat split; auto; constructor. }
  destruct H5 as (r2 & p2 & s5 & ev5 & -> & Htr5 & Hbuf5 & Hr2 & Hc5).
  exists (((ev1 ++ ev3) ++ ev4) ++ ev5). eexists _, _, _. split; [reflexivity|].
  cbn [is_some].
  split; [rewrite Htr5, Htr4, Htr3, Htr2, <- !app_assoc; reflexivity|].
  split; [exact Hr2|]. split; [reflexivity|]. split; [discriminate|].
  intros Hz. split; [rewrite Hbuf5, Hbuf4; exact Hbuf3|].
  split.
  - repeat (apply Forall_app; split); auto.
  - rewrite !writes_of_app. rewrite writes_of_app in Hw13.
    intros H. apply app_eq_nil in H. destruct H as [H _].
    apply app_eq_nil in H. destruct H as [H _]. contradiction.
Qed.

Lemma jtag_dr_op_clean (tdi tdo : option mem) (n : Z) (s : jtag T) :
  exists (new : list event) (r : Z) (tdo' : option mem) (s' : jtag T),
    jtag_dr_op tp uninit tdi tdo n s = (r, tdo', s')
    /\ trace s' = trace s ++ new
    /\ (r = 0 \/ r = 1)
    /\ is_some tdo' = is_some tdo
    /\ (is_some tdo = false -> no_receive new)
    /\ (r = 0 ->
        is_some tdi || is_some tdo = true
        /\ jtag_buf s' = []
        /\ Forall (clean (is_some tdo)) new
        /\ writes_of new <> []).
Proof.
  unfold jtag_dr_op.
  destruct (negb (is_some tdi) && negb (is_some tdo)) eqn:Hnull.
  { exists []. eexists _, _, _. split; [reflexivity|]. rewrite app_nil_r.
    split; [reflexivity|]. split; [now right|]. split; [reflexivity|].
    split; [constructor | discriminate]. }
  assert (Hgiven : is_some tdi || is_some tdo = true)
    by (destruct tdi, tdo; cbn in *; congruence).
  destruct (tap_run_buf idleToShiftDR s) as (c & d & Hs1). cbn [tap_run] in Hs1.
  assert (Htr1 : trace (jtag_rti_to_shift_dr s) = trace s) by (rewrite Hs1; reflexivity).
  set (s1 := jtag_rti_to_shift_dr s) in *. clearbody s1. clear Hs1.
  destruct (dr_chunks_clean (Z.to_nat (whole_bytes n)) tdi tdo (whole_bytes n) 0 0 0 s1)
    as (ex & new1 & Hloop & Hex); [lia|].
  rewrite Hloop. destruct ex as [r tdo' s' | cl ti to tdo' s'].
  - destruct Hex as (-> & Htr & Hsome & Hnr).
    exists new1. eexists _, _, _. split; [reflexivity|].
    split; [rewrite Htr, Htr1; reflexivity|].
    split; [now right|]. split; [exact Hsome|]. split; [exact Hnr | discriminate].
  - destruct Hex as (Htr & Hsome & Hclean).
    destruct (dr_finish_clean tdi (tail_bits n) cl ti to tdo' s')
      as (new2 & r & tdo2 & s2 & Hfin & Htr2 & Hr & Hsome2 & Hnr2 & Hok2).
    rewrite Hfin.
    exists (new1 ++ new2), r, tdo2, s2. split; [reflexivity|].
    split; [rewrite Htr2, Htr, Htr1, <- app_assoc; reflexivity|].
    split; [exact Hr|]. split; [congruence|].
    split.
    + intros Hno. apply no_receive_app.
      * apply clean_no_receive. rewrite Hno in Hclean. exact Hclean.
      * apply Hnr2. congruence.
    + intros Hz. destruct (Hok2 Hz) as (Hbuf & Hc2 & Hw2).
      split; [exact Hgiven|]. split; [exact Hbuf|].
      split.
      * apply Forall_app. split; [exact Hclean|]. rewrite <- Hsome. exact Hc2.
      * rewrite writes_of_app. intros H. apply app_eq_nil in H. now destruct H.
Qed.

(** X9.  [jtag_dr_op] returns 0 or 1 and hands back a capture array
    exactly when it was given one.  When it returns 0, at least one buffer
    was given, every write of the transfer was accepted in full, every
    receive got all its bytes, and the command buffer is empty: nothing of
    the transfer is left to be sent. *)
Theorem jtag_dr_op_success (tdi tdo : option mem) (n : Z) (s : jtag T) :
  let res := jtag_dr_op tp uninit tdi tdo n s in
  let new := new_events s (snd res) in
  (fst (fst res) = 0 \/ fst (fst res) = 1)
  /\ is_some (snd (fst res)) = is_some tdo
  /\ (fst (fst res) = 0 ->
      is_some tdi || is_some tdo = true
      /\ jtag_buf (snd res) = []
      /\ Forall (clean (is_some tdo)) new
      /\ writes_of new <> []).
Proof.
  intros res new. subst res new.
  destruct (jtag_dr_op_clean tdi tdo n s)
    as (new & r & tdo' & s' & Hres & Htr & Hr & Hsome & _ & Hok).
  rewrite Hres. cbn [fst snd].
  rewrite (new_events_app _ _ _ Htr). repeat split; auto; apply Hok; assumption.
Qed.

(** X10.  A write-only transfer never calls [ftdi_read_data]: whatever the
    payload, the bit length and the transport, its trace holds no read and
    no receive, and it hands back no capture array. *)
Theorem jtag_dr_write_never_reads (tdi : option mem) (n : Z) (s : jtag T) :
  let res := jtag_dr_op tp uninit tdi None n s in
  no_receive (new_events s (snd res))
  /\ count_reads (new_events s (snd res)) = 0%nat
  /\ snd (fst res) = None.
Proof.
  intros res. subst res.
  destruct (jtag_dr_op_clean tdi None n s)
    as (new & r & tdo' & s' & Hres & Htr & _ & Hsome & Hnr & _).
  rewrite Hres. cbn [fst snd].
  rewrite (new_events_app _ _ _ Htr).
  specialize (Hnr eq_refl).
  split; [exact Hnr|]. split; [now apply no_receive_count_reads|].
  destruct tdo'; [discriminate | reflexivity].
Qed.

End Result.

Lemma jtag_dr_op_success_witness :
  let res := jtag_dr_op Bridge.tp (fun _ => 0) (Some (fun k => 0x11 * (k + 1)))
               (Some (fun _ => 0)) 24 Bridge.start in
  fst (fst res) = 0
  /\ jtag_buf (snd res) = []
  /\ writes_of (new_events Bridge.start (snd res)) <> [].
Proof.
  intros res.
  destruct (jtag_dr_op_success Bridge.tp (fun _ => 0) (Some (fun k => 0x11 * (k + 1)))
              (Some (fun _ => 0)) 24 Bridge.start) as (_ & _ & Hok).
  assert (H : fst (fst res) = 0) by (vm_compute; reflexivity).
  destruct (Hok H) as (_ & Hbuf & _ & Hw).
  split; [exact H|]. split; [exact Hbuf | exact Hw].
Defined.

(** ** A refused flush *)

Section Refused.
Context {T : Type} (tp : transport T) (uninit : mem).

(** No write is ever accepted in full. *)
Hypothesis refuse :
  forall (d : T) (bytes : list Z),
    fst (ftdi_write_data tp d bytes) <> Z.of_nat (length bytes).

Lemma jtag_send_refused (s : jtag T) :
  jtag_buf s <> [] ->
  exists (l : Z) (dev : T),
    jtag_send tp s = (1, Jtag (jtag_buf s) dev (trace s ++ [EvWrite (jtag_buf s) l])).
Proof.
  intros Hne.
  destruct (jtag_send_spec tp s) as [[Hempty _] | [_ (l & dev & Hw & Hsend)]].
  - exfalso. unfold jtag_buf_i in Hempty. destruct (jtag_buf s); [congruence|].
    cbn [length] in Hempty. lia.
  - exists l, dev. rewrite Hsend.
    pose proof (refuse (ftdi s) (jtag_buf s)) as Hl. rewrite Hw in Hl. cbn [fst] in Hl.
    unfold jtag_buf_i. destruct (Z.eqb_spec l (Z.of_nat (length (jtag_buf s))));
      [contradiction | reflexivity].
Qed.

Lemma dr_finish_refused (tdi : option mem) (bits cl ti to : Z) (tdo : option mem)
    (s : jtag T) :
  exists (ev : list event) (more : list Z) (l : Z) (dev : T),
    dr_finish tp uninit tdi bits cl ti to tdo s
    = (1, tdo, Jtag (jtag_buf s ++ more) dev
                 (trace s ++ ev ++ [EvWrite (jtag_buf s ++ more) l]))
    /\ writes_of ev = [] /\ no_receive ev.
Proof.
  unfold dr_finish.
  assert (H1 : exists ev1 added,
             (if bits >? 0
              then jtag_shift_bits (option_map (fun p => shift_ptr p ti) tdi)
                     bits (is_some tdo) s
              else s) = Jtag (jtag_buf s ++ added) (ftdi s) (trace s ++ ev1)
             /\ writes_of ev1 = [] /\ no_receive ev1).
  { destruct (bits >? 0).
    - destruct (jtag_shift_bits_spec (option_map (fun p => shift_ptr p ti) tdi) bits
                  (is_some tdo) s) as (added & -> & _).
      eexists _, added. split; [reflexivity|]. split; [reflexivity | repeat constructor].
    - exists [], []. rewrite !app_nil_r. destruct s. repeat split. constructor. }
  destruct H1 as (ev1 & added & -> & Hw1 & Hn1).
  unfold jtag_exit1_dr_to_rti. rewrite put_put_put. cbn [jtag_buf ftdi trace].
  set (s2 := Jtag _ (ftdi s) (trace s ++ ev1)).
  destruct (jtag_send_refused s2) as (l & dev & Hsend).
  { subst s2. cbn [jtag_buf]. intros H. apply app_eq_nil in H. destruct H; discriminate. }
  rewrite Hsend. cbn [c_true Z.eqb negb].
  exists ev1, (added ++ [to_uchar TMS_OPCODE; to_uchar 1; to_uchar 0x81]), l, dev.
  subst s2. cbn [jtag_buf trace]. rewrite <- !app_assoc.
  repeat split; assumption.
Qed.

(** X11.  When the transport accepts no write in full, a transfer with at
    least one buffer returns 1 after a single write and no read at all, the
    capture array is handed back as it was, and the bytes it offered, the
    ones pending before followed by the commands it encoded, all stay in
    the command buffer. *)
Theorem jtag_dr_op_flush_refused (tdi tdo : option mem) (n : Z) (s : jtag T) :
  is_some tdi || is_some tdo = true ->
  let res := jtag_dr_op tp uninit tdi tdo n s in
  let new := new_events s (snd res) in
  fst (fst res) = 1
  /\ snd (fst res) = tdo
  /\ no_receive new
  /\ (exists l : Z, writes_of new = [(jtag_buf (snd res), l)])
  /\ (exists more : list Z,
        jtag_buf (snd res) = jtag_buf s ++ [0x4b; 2; 0x81] ++ more).
Proof.
  intros Hgiven res new. subst res new. unfold jtag_dr_op.
  assert (Hnull : negb (is_some tdi) && negb (is_some tdo) = false)
    by (destruct tdi, tdo; cbn in *; congruence).
  rewrite Hnull.
  unfold jtag_rti_to_shift_dr. rewrite put_put_put.
  change [to_uchar TMS_OPCODE; to_uchar 2; to_uchar 0x81] with [0x4b; 2; 0x81].
  set (s1 := Jtag (jtag_buf s ++ [0x4b; 2; 0x81]) (ftdi s) (trace s)).
  assert (Hout : forall (cl ti to : Z) (s2 : jtag T) (ev0 : list event) (more0 : list Z),
             s2 = Jtag (jtag_buf s1 ++ more0) (ftdi s) (trace s ++ ev0) ->
             writes_of ev0 = [] -> no_receive ev0 ->
             let res := dr_finish tp uninit tdi (tail_bits n) cl ti to tdo s2 in
             fst (fst res) = 1 /\ snd (fst res) = tdo
             /\ no_receive (new_events s (snd res))
             /\ (exists l, writes_of (new_events s (snd res))
                           = [(jtag_buf (snd res), l)])
             /\ (exists more, jtag_buf (snd res)
                              = jtag_buf s ++ [0x4b; 2; 0x81] ++ more)).
  { intros cl ti to s2 ev0 more0 -> Hw0 Hn0 res. subst res.
    destruct (dr_finish_refused tdi (tail_bits n) cl ti to tdo
                (Jtag (jtag_buf s1 ++ more0) (ftdi s) (trace s ++ ev0)))
      as (ev & more & l & dev & Hfin & Hw & Hn).
    rewrite Hfin. cbn [fst snd jtag_buf trace s1].
    rewrite (new_events_app s _ (ev0 ++ ev ++ [EvWrite ((jtag_buf s ++ [0x4b; 2; 0x81])
                                                         ++ more0 ++ more) l]))
      by (cbn [trace]; rewrite <- !app_assoc; reflexivity).
    split; [reflexivity|]. split; [reflexivity|].
    split; [apply no_receive_app; [exact Hn0|];
            apply no_receive_app; [exact Hn | repeat constructor]|].
    split.
    - exists l. rewrite !writes_of_app, Hw0, Hw. cbn. rewrite <- !app_assoc. reflexivity.
    - exists (more0 ++ more). rewrite <- !app_assoc. reflexivity. }
  destruct (Z.leb_spec (whole_bytes n) 0) as [Hle | Hpos].
  { rewrite dr_chunks_done by lia.
    apply (Hout 0 0 0 s1 [] []); [| reflexivity | constructor].
    subst s1. cbn [jtag_buf]. rewrite !app_nil_r. reflexivity. }
  destruct (Z.to_nat (whole_bytes n)) as [|fuel] eqn:Hfuel; [lia|].
  cbn [dr_chunks]. destruct (Z.gtb_spec (whole_bytes n) 0) as [_ | ?]; [|lia].
  set (cl := if whole_bytes n >? JTAG_CHUNK_SIZE then JTAG_CHUNK_SIZE else whole_bytes n).
  destruct (jtag_shift_bytes_spec (option_map (fun p => shift_ptr p 0) tdi) cl
              (is_some tdo) s1) as (added & Hs2 & Hlen).
  rewrite Hs2.
  set (s2 := Jtag (jtag_buf s1 ++ added) (ftdi s1)
               (trace s1 ++ [EvShiftBytes cl (is_some tdo)])).
  destruct (Z.gtb_spec (whole_bytes n - cl) 0) as [Hmore | Hlast].
  - destruct (jtag_send_refused s2) as (l & dev & Hsend).
    { subst s2 s1. cbn [jtag_buf]. intros H. apply app_eq_nil in H. destruct H as [H _].
      apply app_eq_nil in H. destruct H; discriminate. }
    rewrite Hsend. cbn [c_true Z.eqb negb fst snd].
    subst s2 s1. cbn [jtag_buf trace ftdi].
    rewrite (new_events_app s _ ([EvShiftBytes cl (is_some tdo)]
                                  ++ [EvWrite ((jtag_buf s ++ [0x4b; 2; 0x81]) ++ added) l]))
      by (cbn [trace]; rewrite <- !app_assoc; reflexivity).
    split; [reflexivity|]. split; [reflexivity|].
    split; [repeat constructor|].
    split; [exists l; reflexivity|].
    exists added. rewrite <- !app_assoc. reflexivity.
  - rewrite dr_chunks_done by lia.
    apply (Hout cl _ 0 s2 [EvShiftBytes cl (is_some tdo)] added);
      [reflexivity | reflexivity | repeat constructor].
Qed.

End Refused.

Lemma jtag_dr_op_flush_refused_witness :
  (forall (d : Dead.dev) (bytes : list Z),
      fst (ftdi_write_data Dead.tp d bytes) <> Z.of_nat (length bytes))
  /\ is_some (Some (fun _ : Z => 0x55)) || is_some (@None mem) = true
  /\ fst (fst (jtag_dr_op Dead.tp (fun _ => 0) (Some (fun _ => 0x55)) None 16 Dead.start))
     = 1
  /\ jtag_buf (snd (jtag_dr_op Dead.tp (fun _ => 0) (Some (fun _ => 0x55)) None 16
                      Dead.start))
     = [0x4b; 2; 0x81; 0x19; 0; 0; 0x55; 0x1b; 6; 0x55; 0x4b; 0; 0x01; 0x4b; 1; 0x81].
Proof.
  assert (Hdead : forall (d : Dead.dev) (bytes : list Z),
             fst (ftdi_write_data Dead.tp d bytes) <> Z.of_nat (length bytes))
    by (intros d bytes; cbn; lia).
  split; [exact Hdead|]. split; [reflexivity|].
  destruct (jtag_dr_op_flush_refused Dead.tp (fun _ => 0) Hdead (Some (fun _ => 0x55)) None
              16 Dead.start eq_refl) as (Hr & _ & _ & _ & _).
  split; [exact Hr|]. vm_compute. reflexivity.
Defined.

(** ** The ID code *)

Lemma lor_shiftl_add (hi lo k : Z) :
  0 <= k -> 0 <= lo < 2 ^ k -> Z.lor (Z.shiftl hi k) lo = hi * 2 ^ k + lo.
Proof.
  intros Hk Hlo.
  assert (Hland : Z.land (Z.shiftl hi k) lo = 0).
  { apply Z.bits_inj'. intros i Hi. rewrite Z.land_spec, Z.bits_0.
    destruct (Z.lt_ge_cases i k) as [Hlt | Hge].
    - rewrite Z.shiftl_spec_low by lia. reflexivity.
    - replace lo with (lo mod 2 ^ k) by (apply Z.mod_small; lia).
      rewrite Z.mod_pow2_bits_high by lia. apply Bool.andb_false_r. }
  rewrite <- Z.lxor_lor, <- Z.add_nocarry_lxor by exact Hland.
  rewrite Z.shiftl_mul_pow2 by lia. reflexivity.
Qed.

Lemma idcode_sum (b0 b1 b2 b3 : Z) :
  0 <= b0 < 256 -> 0 <= b1 < 256 -> 0 <= b2 < 256 ->
  Z.lor (Z.lor (Z.lor (Z.shiftl b3 24) (Z.shiftl b2 16)) (Z.shiftl b1 8)) b0
  = b0 + 2 ^ 8 * b1 + 2 ^ 16 * b2 + 2 ^ 24 * b3.
Proof.
  intros H0 H1 H2.
  replace (Z.shiftl b3 24) with (Z.shiftl (Z.shiftl b3 8) 16)
    by (rewrite Z.shiftl_shiftl by lia; reflexivity).
  rewrite <- Z.shiftl_lor, (lor_shiftl_add b3 b2 8) by (cbn; lia).
  replace (Z.shiftl (b3 * 2 ^ 8 + b2) 16) with (Z.shiftl (Z.shiftl (b3 * 2 ^ 8 + b2) 8) 8)
    by (rewrite Z.shiftl_shiftl by lia; reflexivity).
  rewrite <- Z.shiftl_lor, (lor_shiftl_add _ b1 8) by (cbn; lia).
  rewrite (lor_shiftl_add _ b0 8) by (cbn; lia).
  lia.
Qed.

(** X12.  The ID code is the four captured bytes taken little-endian, as
    a 32-bit [int]: modulo [2^32] it is
    [buf[0] + 2^8 buf[1] + 2^16 buf[2] + 2^24 buf[3]], it is negative
    exactly when [buf[3]] has its top bit set, and each byte can be read
    back from it.  The device test of [main] looks at the low 21 bits only:
    it passes exactly when [buf[0]] is [0x93], [buf[1]] is [0x80] and the
    low five bits of [buf[2]] are 0. *)
Theorem idcode_little_endian (buf : mem) :
  0 <= buf 0 < 256 -> 0 <= buf 1 < 256 -> 0 <= buf 2 < 256 -> 0 <= buf 3 < 256 ->
  idcode_of buf mod 2 ^ 32 = buf 0 + 2 ^ 8 * buf 1 + 2 ^ 16 * buf 2 + 2 ^ 24 * buf 3
  /\ - 2 ^ 31 <= idcode_of buf < 2 ^ 31
  /\ (idcode_of buf < 0 <-> 128 <= buf 3)
  /\ Z.land (idcode_of buf) 0xff = buf 0
  /\ Z.land (Z.shiftr (idcode_of buf) 8) 0xff = buf 1
  /\ Z.land (Z.shiftr (idcode_of buf) 16) 0xff = buf 2
  /\ Z.land (Z.shiftr (idcode_of buf) 24) 0xff = buf 3
  /\ is_xilinx (idcode_of buf)
     = (buf 0 =? 0x93) && (buf 1 =? 0x80) && (buf 2 mod 32 =? 0).
Proof.
  intros H0 H1 H2 H3. unfold idcode_of, is_xilinx.
  rewrite idcode_sum by assumption.
  generalize (buf 0) (buf 1) (buf 2) (buf 3) H0 H1 H2 H3.
  clear. intros b0 b1 b2 b3 H0 H1 H2 H3.
  change (Z.land (to_int (b0 + 2 ^ 8 * b1 + 2 ^ 16 * b2 + 2 ^ 24 * b3)) 0x001fffff)
    with (Z.land (to_int (b0 + 2 ^ 8 * b1 + 2 ^ 16 * b2 + 2 ^ 24 * b3)) (Z.ones 21)).
  rewrite !land_ff, !Z.shiftr_div_pow2, Z.land_ones by lia.
  change (2 ^ 8) with 256. change (2 ^ 16) with 65536.
  change (2 ^ 24) with 16777216. change (2 ^ 31) with 2147483648.
  change (2 ^ 32) with 4294967296. change (2 ^ 21) with 2097152.
  remember (b0 + 256 * b1 + 65536 * b2 + 16777216 * b3) as u eqn:Eu.
  assert (Hu : 0 <= u < 4294967296) by lia.
  assert (Hint : to_int u = u \/ to_int u = u - 4294967296).
  { unfold to_int. change (2 ^ 31) with 2147483648. change (2 ^ 32) with 4294967296.
    destruct (Z.lt_ge_cases u 2147483648).
    - left. rewrite Z.mod_small by lia. lia.
    - right. replace (u + 2147483648) with (u - 2147483648 + 1 * 4294967296) by lia.
      rewrite Z.mod_add by lia. rewrite Z.mod_small by lia. lia. }
  assert (Hneg : to_int u = u - 4294967296 -> 2147483648 <= u).
  { unfold to_int. change (2 ^ 31) with 2147483648. change (2 ^ 32) with 4294967296.
    pose proof (Z.mod_pos_bound (u + 2147483648) 4294967296 ltac:(lia)). lia. }
  assert (Hpos : to_int u = u -> u < 2147483648).
  { unfold to_int. change (2 ^ 31) with 2147483648. change (2 ^ 32) with 4294967296.
    pose proof (Z.mod_pos_bound (u + 2147483648) 4294967296 ltac:(lia)). lia. }
  assert (Hmod : to_int u mod 4294967296 = u).
  { destruct Hint as [-> | ->].
    - apply Z.mod_small. lia.
    - replace (u - 4294967296) with (u + (-1) * 4294967296) by lia.
      rewrite Z.mod_add by lia. apply Z.mod_small. lia. }
  assert (Hdiv : forall k m, 0 < k -> 4294967296 = k * (m * 256) ->
            (to_int u / k) mod 256 = (u / k) mod 256).
  { intros k m Hk Hkm. destruct Hint as [-> | ->]; [reflexivity|].
    replace (u - 4294967296) with (u + (- (m * 256)) * k) by lia.
    rewrite Z.div_add by lia.
    replace (u / k + - (m * 256)) with (u / k + (- m) * 256) by lia.
    now rewrite Z.mod_add by lia. }
  assert (Hb0 : u mod 256 = b0).
  { symmetry. apply (Z.mod_unique u 256 (b1 + 256 * b2 + 65536 * b3)); lia. }
  assert (Hb1 : (u / 256) mod 256 = b1).
  { replace (u / 256) with (b1 + 256 * b2 + 65536 * b3)
      by (apply (Z.div_unique u 256 _ b0); lia).
    symmetry. apply (Z.mod_unique _ 256 (b2 + 256 * b3)); lia. }
  assert (Hb2 : (u / 65536) mod 256 = b2).
  { replace (u / 65536) with (b2 + 256 * b3)
      by (apply (Z.div_unique u 65536 _ (b0 + 256 * b1)); lia).
    symmetry. apply (Z.mod_unique _ 256 b3); lia. }
  assert (Hb3 : (u / 16777216) mod 256 = b3).
  { replace (u / 16777216) with b3
      by (apply (Z.div_unique u 16777216 _ (b0 + 256 * b1 + 65536 * b2)); lia).
    apply Z.mod_small. lia. }
  split; [exact Hmod|].
  split; [destruct Hint as [E | E]; rewrite E; [apply Hpos in E | apply Hneg in E]; lia|].
  split.
  { destruct Hint as [E | E]; rewrite E; [apply Hpos in E | apply Hneg in E]; lia. }
  split.
  { destruct Hint as [-> | ->]; [exact Hb0|].
    replace (u - 4294967296) with (u + (-16777216) * 256) by lia.
    rewrite Z.mod_add by lia. exact Hb0. }
  split.
  { rewrite (Hdiv 256 65536) by lia. exact Hb1. }
  split.
  { rewrite (Hdiv 65536 256) by lia. exact Hb2. }
  split.
  { rewrite (Hdiv 16777216 1) by lia. exact Hb3. }
  assert (Hlow : to_int u mod 2097152 = b0 + 256 * b1 + 65536 * (b2 mod 32)).
  { assert (Hl : u mod 2097152 = b0 + 256 * b1 + 65536 * (b2 mod 32)).
    { pose proof (Z.div_mod b2 32 ltac:(lia)) as Hdm.
      pose proof (Z.mod_pos_bound b2 32 ltac:(lia)) as Hmb.
      symmetry. apply (Z.mod_unique u 2097152 (b2 / 32 + 8 * b3)); lia. }
    destruct Hint as [-> | ->]; [exact Hl|].
    replace (u - 4294967296) with (u + (-2048) * 2097152) by lia.
    rewrite Z.mod_add by lia. exact Hl. }
  rewrite Hlow.
  pose proof (Z.mod_pos_bound b2 32 ltac:(lia)).
  destruct (Z.eqb_spec b0 147); destruct (Z.eqb_spec b1 128);
    destruct (Z.eqb_spec (b2 mod 32) 0); cbn [andb];
    try (apply Z.eqb_eq; lia); apply Z.eqb_neq; lia.
Qed.

Lemma idcode_little_endian_witness :
  let buf := fun k => nth (Z.to_nat k) [0x93; 0x80; 0xc0; 0x24] 0 in
  0 <= buf 0 < 256
  /\ idcode_of buf mod 2 ^ 32 = buf 0 + 2 ^ 8 * buf 1 + 2 ^ 16 * buf 2 + 2 ^ 24 * buf 3
  /\ is_xilinx (idcode_of buf) = true.
Proof.
  intros buf.
  assert (H0 : 0 <= buf 0 < 256) by (change (0 <= 0x93 < 256); lia).
  assert (H1 : 0 <= buf 1 < 256) by (change (0 <= 0x80 < 256); lia).
  assert (H2 : 0 <= buf 2 < 256) by (change (0 <= 0xc0 < 256); lia).
  assert (H3 : 0 <= buf 3 < 256) by (change (0 <= 0x24 < 256); lia).
  destruct (idcode_little_endian buf H0 H1 H2 H3) as (Hs & _ & _ & _ & _ & _ & _ & Hx).
  split; [exact H0|]. split; [exact Hs|].
  rewrite Hx. reflexivity.
Defined.

(** ** Reading the ID code *)

Section Idcode.
Context {T : Type} (tp : transport T) (uninit : mem).

Lemma dr_chunks_last (fuel : nat) (tdi tdo : option mem) (br cl0 ti to : Z) (s : jtag T) :
  0 < br <= JTAG_CHUNK_SIZE ->
  dr_chunks tp (S fuel) tdi tdo br cl0 ti to s
  = Some (LoopDone br (if is_some tdi then ti + br else ti) to tdo
            (jtag_shift_bytes (option_map (fun p => shift_ptr p ti) tdi) br
               (is_some tdo) s)).
Proof.
  intros Hbr. cbn [dr_chunks].
  destruct (Z.gtb_spec br 0); [|lia].
  destruct (Z.gtb_spec br JTAG_CHUNK_SIZE); [lia|].
  destruct (Z.gtb_spec (br - br) 0); [lia|].
  rewrite dr_chunks_done by lia. reflexivity.
Qed.

Lemma jtag_get_idcode_unfold (idcode : Z) (s : jtag T) :
  jtag_get_idcode tp uninit idcode s
  = let s2 := Jtag (jtag_buf s ++ idcode_commands) (ftdi s)
                (trace s ++ [EvShiftBits 6 false; EvShiftBytes 3 true;
                             EvShiftBits 8 true]) in
    let '(r, s3) := jtag_send tp s2 in
    if c_true r then (1, idcode, s3)
    else
      let '(r1, p1, s4) := jtag_recv tp uninit (Some 0) 3 s3 in
      if c_true r1 then (1, idcode, s4)
      else
        let '(r2, p2, s5) := jtag_recv_bits tp uninit p1 3 8 s4 in
        if c_true r2 then (1, idcode, s5) else (0, idcode_of p2, s5).
Proof.
  unfold jtag_get_idcode, jtag_dr_op. cbn [is_some negb andb].
  change (whole_bytes 32) with 3. change (tail_bits 32) with 8.
  change (Z.to_nat 3) with 3%nat.
  rewrite dr_chunks_last by (unfold JTAG_CHUNK_SIZE; lia).
  unfold dr_finish. change (8 >? 0) with true. change (3 >? 0) with true.
  cbv iota. cbn [is_some option_map].
  rewrite jtag_shift_bits_unit, jtag_shift_bytes_unit.
  unfold jtag_exit1_dr_to_rti, jtag_rti_to_shift_dr.
  rewrite !put_put_put, jtag_ir_write_unfold. cbn [jtag_buf ftdi trace].
  replace (((((jtag_buf s
               ++ [75; 3; 131; 27; 4;
                   to_uchar (Z.land (to_uchar JTAG_INSTR_IDCODE) (Z.shiftl 1 (6 - 1) - 1));
                   75; 0;
                   to_uchar (if c_true (Z.land (to_uchar JTAG_INSTR_IDCODE)
                                          (Z.shiftl 1 (6 - 1)))
                             then 129 else 1);
                   75; 1; 129])
              ++ [to_uchar TMS_OPCODE; to_uchar 2; to_uchar 129])
             ++ bytes_unit None 3 true)
            ++ tail_unit None 8 true)
           ++ [to_uchar TMS_OPCODE; to_uchar 1; to_uchar 129])
    with (jtag_buf s ++ idcode_commands)
    by (rewrite <- !app_assoc; reflexivity).
  replace ((((trace s ++ [EvShiftBits 6 false]) ++ [EvShiftBytes 3 true])
            ++ [EvShiftBits 8 true]))
    with (trace s ++ [EvShiftBits 6 false; EvShiftBytes 3 true; EvShiftBits 8 true])
    by (rewrite <- !app_assoc; reflexivity).
  cbv zeta.
  destruct (jtag_send tp _) as [r s3].
  destruct (c_true r); [reflexivity|].
  destruct (jtag_recv tp uninit (Some 0) 3 s3) as [[r1 p1] s4].
  destruct (c_true r1); [reflexivity|].
  change (0 + 3) with 3.
  destruct (jtag_recv_bits tp uninit p1 3 8 s4) as [[r2 p2] s5].
  destruct (c_true r2); reflexivity.
Qed.

End Idcode.

Section IdcodeData.
Context {T : Type} (tp : transport T) (uninit : mem).
Hypothesis Hreads : reads_ok tp.
Hypothesis Hbytes : bytes_ok tp.

Lemma jtag_recv_loop_bytes (fuel : nat) :
  forall (p : mem) (rbuf : option Z) (n timeout : Z) (s : jtag T)
         (r : Z * mem * jtag T),
    jtag_recv_loop tp fuel p rbuf n timeout s = Some r ->
    exists reads : list event,
      trace (snd r) = trace s ++ reads
      /\ Forall (fun b => 0 <= b < 256) (read_bytes reads).
Proof.
  induction fuel as [|fuel IH]; intros p rbuf n timeout s r Hloop.
  - cbn in Hloop. destruct (n >? 0); [discriminate|].
    injection Hloop as <-. exists []. rewrite app_nil_r. split; [reflexivity | constructor].
  - cbn [jtag_recv_loop] in Hloop. destruct (n >? 0).
    2:{ injection Hloop as <-. exists []. rewrite app_nil_r.
        split; [reflexivity | constructor]. }
    pose proof (Hbytes (ftdi s) (match rbuf with Some _ => n | None => 32 end)) as Hb.
    destruct (ftdi_read_data tp (ftdi s) _) as [[ret bytes] dev]. cbn [fst snd] in Hb.
    destruct (timeout <=? 0).
    + injection Hloop as <-. eexists [_]. cbn [snd trace].
      split; [reflexivity|]. cbn [read_bytes flat_map]. rewrite app_nil_r. exact Hb.
    + destruct (IH _ _ _ _ _ _ Hloop) as (reads & Htr & Hall).
      eexists (_ :: reads). cbn [trace] in Htr.
      split; [rewrite Htr, <- app_assoc; reflexivity|].
      unfold read_bytes in *. cbn [flat_map].
      apply Forall_app. split; [exact Hb | exact Hall].
Qed.

(** A receive that got everything, over a transport that reports no error
    and hands over bytes. *)
Lemma jtag_recv_full (p : mem) (off n : Z) (s : jtag T) (p' : mem) (s' : jtag T) :
  0 <= n ->
  jtag_recv tp p (Some off) n s = (0, p', s') ->
  exists reads : list event,
    trace s' = trace s ++ reads ++ [EvRecv n 0]
    /\ Z.of_nat (length (read_bytes reads)) = n
    /\ Forall (fun b => 0 <= b < 256) (read_bytes reads)
    /\ (forall k, off <= k < off + n ->
          p' k = nth (Z.to_nat (k - off)) (read_bytes reads) 0)
    /\ (forall k, k < off \/ off + n <= k -> p' k = p k)
    /\ jtag_buf s' = jtag_buf s.
Proof.
  intros Hn Hrecv.
  destruct (jtag_recv_spec tp p (Some off) n s)
    as (n1 & p1 & s1 & reads & Hrecv' & Hloop & Hbuf & Htr & _).
  rewrite Hrecv in Hrecv'. injection Hrecv' as <- <- <-.
  destruct (jtag_recv_loop_data tp Hreads _ _ _ _ _ _ _ _ _ Hn Hloop)
    as (reads1 & Htr1 & _ & Hlen & Hin & Hout).
  cbn [trace] in Htr1. apply app_inv_head in Htr1. subst reads1.
  destruct (jtag_recv_loop_bytes _ _ _ _ _ _ _ Hloop) as (reads2 & Htr2 & Hall).
  cbn [snd trace] in Htr2. apply app_inv_head in Htr2. subst reads2.
  rewrite Z.sub_0_r in *.
  exists reads. repeat split; assumption.
Qed.

(** X13.  [jtag_get_idcode] returns 0 or 1 and always makes exactly one
    write: the pending bytes, then the IDCODE instruction and a 32-bit
    capture, 26 bytes in all.  A result of 1 leaves [*idcode] as it was and
    a result of 0 leaves the command buffer empty.  Over a transport that
    reports no error and hands over bytes, a result of 0 means the reads
    handed over exactly five bytes, and the ID code is the first three
    taken little-endian with the top byte rebuilt from the last two by the
    tail formula. *)
Theorem jtag_get_idcode_spec (idcode : Z) (s : jtag T) :
  let res := jtag_get_idcode tp uninit idcode s in
  let new := new_events s (snd res) in
  (fst (fst res) = 0 \/ fst (fst res) = 1)
  /\ (fst (fst res) = 1 -> snd (fst res) = idcode)
  /\ (exists l : Z, writes_of new = [(jtag_buf s ++ idcode_commands, l)])
  /\ Z.of_nat (length idcode_commands) = 26
  /\ (fst (fst res) = 0 ->
      jtag_buf (snd res) = []
      /\ exists d0 d1 d2 d3 d4 : Z,
           read_bytes new = [d0; d1; d2; d3; d4]
           /\ snd (fst res) mod 2 ^ 32
              = d0 + 2 ^ 8 * d1 + 2 ^ 16 * d2 + 2 ^ 24 * realign d3 d4 8).
Proof.
  intros res new. subst new res.
  destruct (jtag_get_idcode tp uninit idcode s) as [[r v] s'] eqn:Hres.
  cbn [fst snd]. rewrite jtag_get_idcode_unfold in Hres. cbv zeta in Hres.
  set (s2 := Jtag (jtag_buf s ++ idcode_commands) (ftdi s) _) in Hres.
  destruct (jtag_send_spec tp s2) as [[Hempty _] | [_ (l & dev & _ & Hsend)]].
  { exfalso. unfold jtag_buf_i in Hempty. cbn [s2 jtag_buf] in Hempty.
    rewrite length_app in Hempty. cbn [idcode_commands length] in Hempty. lia. }
  rewrite Hsend in Hres. cbn [s2 jtag_buf trace] in Hres.
  set (w := EvWrite (jtag_buf s ++ idcode_commands) l) in *.
  set (pre := [EvShiftBits 6 false; EvShiftBytes 3 true; EvShiftBits 8 true]) in *.
  destruct (l =? jtag_buf_i s2); cbn [c_true Z.eqb negb] in Hres.
  2:{ injection Hres as <- <- <-.
    rewrite (new_events_app s (Jtag (jtag_buf s ++ idcode_commands) dev
                                 ((trace s ++ pre) ++ [w])) (pre ++ [w]))
      by (cbn [trace]; rewrite <- app_assoc; reflexivity).
    split; [now right|]. split; [reflexivity|].
    split; [exists l; reflexivity|]. split; [reflexivity | discriminate]. }
  set (s3 := Jtag [] dev _) in Hres.
  assert (Htr3 : trace s3 = trace s ++ pre ++ [w])
    by (cbn [s3 trace]; rewrite <- app_assoc; reflexivity).
  assert (Hbuf3 : jtag_buf s3 = []) by reflexivity.
  clearbody s3.
  destruct (jtag_recv tp uninit (Some 0) 3 s3) as [[r1 p1] s4] eqn:Hrecv1.
  destruct (jtag_recv_spec tp uninit (Some 0) 3 s3)
    as (r1' & p1' & s4' & rd1 & Hrecv1' & _ & Hbuf4 & Htr4 & Hrd1 & _).
  rewrite Hrecv1 in Hrecv1'. injection Hrecv1' as <- <- <-.
  assert (Hw1 : writes_of (rd1 ++ [EvRecv 3 r1]) = []).
  { rewrite writes_of_app. cbn. rewrite app_nil_r.
    clear - Hrd1. induction Hrd1 as [|e l0 He _ IH]; [reflexivity|].
    destruct e; try contradiction. exact IH. }
  assert (Hnew4 : trace s4 = trace s ++ (pre ++ [w]) ++ rd1 ++ [EvRecv 3 r1])
    by (rewrite Htr4, Htr3, <- !app_assoc; reflexivity).
  unfold c_true at 1 in Hres. destruct (Z.eqb_spec r1 0) as [Hr1 | Hr1]; cbn [negb] in Hres.
  2:{ injection Hres as <- <- <-.
      rewrite (new_events_app s s4 _ Hnew4).
      split; [now right|]. split; [reflexivity|].
      split; [exists l; rewrite writes_of_app, Hw1; reflexivity|].
      split; [reflexivity | discriminate]. }
  subst r1.
  unfold jtag_recv_bits in Hres. change ((8 <? 1) || (8 >? 8)) with false in Hres.
  cbv iota in Hres. change (8 >? 1) with true in Hres. cbv iota in Hres.
  destruct (jtag_recv tp uninit (Some 0) 2 s4) as [[r2 rbuf] s5] eqn:Hrecv2.
  destruct (jtag_recv_spec tp uninit (Some 0) 2 s4)
    as (r2' & p2' & s5' & rd2 & Hrecv2' & _ & Hbuf5 & Htr5 & Hrd2 & _).
  rewrite Hrecv2 in Hrecv2'. injection Hrecv2' as <- <- <-.
  assert (Hw2 : writes_of (rd2 ++ [EvRecv 2 r2]) = []).
  { rewrite writes_of_app. cbn. rewrite app_nil_r.
    clear - Hrd2. induction Hrd2 as [|e l0 He _ IH]; [reflexivity|].
    destruct e; try contradiction. exact IH. }
  assert (Hnew : trace s5 = trace s ++ ((pre ++ [w]) ++ (rd1 ++ [EvRecv 3 0]))
                                       ++ rd2 ++ [EvRecv 2 r2])
    by (rewrite Htr5, Hnew4, <- !app_assoc; reflexivity).
  assert (Hwr : writes_of (((pre ++ [w]) ++ (rd1 ++ [EvRecv 3 0]))
                           ++ rd2 ++ [EvRecv 2 r2])
                = [(jtag_buf s ++ idcode_commands, l)]).
  { rewrite (writes_of_app _ (rd2 ++ _)), (writes_of_app _ (rd1 ++ _)), Hw1, Hw2.
    reflexivity. }
  unfold c_true at 1 in Hres. destruct (Z.eqb_spec r2 0) as [Hr2 | Hr2];
    cbn [negb c_true Z.eqb] in Hres; injection Hres as <- <- <-.
  2:{ rewrite (new_events_app s s5 _ Hnew).
      split; [now right|]. split; [reflexivity|].
      split; [exists l; exact Hwr|]. split; [reflexivity | discriminate]. }
  subst r2. rewrite (new_events_app s s5 _ Hnew).
  split; [now left|]. split; [discriminate|].
  split; [exists l; exact Hwr|]. split; [reflexivity|].
  intros _. split; [rewrite Hbuf5, Hbuf4; exact Hbuf3|].
  (* the five bytes *)
  destruct (jtag_recv_full uninit 0 3 s3 p1 s4 ltac:(lia) Hrecv1)
    as (rd1' & Htr4' & Hlen1 & Hall1 & Hin1 & _).
  rewrite Htr4 in Htr4'. apply app_inv_head in Htr4'.
  apply app_inv_tail in Htr4'. subst rd1'.
  destruct (jtag_recv_full uninit 0 2 s4 rbuf s5 ltac:(lia) Hrecv2)
    as (rd2' & Htr5' & Hlen2 & Hall2 & Hin2 & _).
  rewrite Htr5 in Htr5'. apply app_inv_head in Htr5'.
  apply app_inv_tail in Htr5'. subst rd2'.
  destruct (read_bytes rd1) as [|d0 [|d1 [|d2 [|? ?]]]] eqn:E1;
    cbn [length] in Hlen1; try lia.
  destruct (read_bytes rd2) as [|d3 [|d4 [|? ?]]] eqn:E2;
    cbn [length] in Hlen2; try lia.
  exists d0, d1, d2, d3, d4. split.
  { rewrite !read_bytes_app, E1, E2. reflexivity. }
  pose proof (Hin1 0 ltac:(lia)) as P0. pose proof (Hin1 1 ltac:(lia)) as P1.
  pose proof (Hin1 2 ltac:(lia)) as P2.
  change (p1 0 = d0) in P0. change (p1 1 = d1) in P1. change (p1 2 = d2) in P2.
  pose proof (Hin2 0 ltac:(lia)) as R0. pose proof (Hin2 1 ltac:(lia)) as R1.
  change (rbuf 0 = d3) in R0. change (rbuf 1 = d4) in R1.
  apply Forall_cons_iff in Hall1 as [B0 Hall1].
  apply Forall_cons_iff in Hall1 as [B1 Hall1].
  apply Forall_cons_iff in Hall1 as [B2 _].
  apply Forall_cons_iff in Hall2 as [B3 Hall2].
  apply Forall_cons_iff in Hall2 as [B4 _].
  assert (Hv : recv_bits_value rbuf 8 = realign d3 d4 8).
  { rewrite recv_bits_value_realign by (rewrite ?R0, ?R1; lia). now rewrite R0, R1. }
  pose proof (realign_range d3 d4 8 ltac:(lia) B3 B4) as Hrg.
  unfold idcode_of.
  assert (E : forall k, k <> 3 -> upd p1 3 (recv_bits_value rbuf 8) k = p1 k).
  { intros k Hk. unfold upd. destruct (Z.eqb_spec k 3); [contradiction | reflexivity]. }
  rewrite (E 0), (E 1), (E 2) by lia.
  replace (upd p1 3 (recv_bits_value rbuf 8) 3) with (realign d3 d4 8)
    by (unfold upd; rewrite Z.eqb_refl; symmetry; exact Hv).
  rewrite P0, P1, P2, idcode_sum by assumption.
  set (u := d0 + 2 ^ 8 * d1 + 2 ^ 16 * d2 + 2 ^ 24 * realign d3 d4 8).
  assert (Hu : 0 <= u < 2 ^ 32) by (subst u; lia).
  unfold to_int.
  replace ((u + 2 ^ 31) mod 2 ^ 32 - 2 ^ 31)
    with ((u + 2 ^ 31) mod 2 ^ 32 + (-1) * 2 ^ 31) by lia.
  destruct (Z.lt_ge_cases u (2 ^ 31)).
  - rewrite (Z.mod_small (u + 2 ^ 31)) by lia.
    replace (u + 2 ^ 31 + -1 * 2 ^ 31) with u by lia. apply Z.mod_small. lia.
  - replace (u + 2 ^ 31) with (u - 2 ^ 31 + 1 * 2 ^ 32) by lia.
    rewrite Z.mod_add by lia. rewrite (Z.mod_small (u - 2 ^ 31)) by lia.
    replace (u - 2 ^ 31 + -1 * 2 ^ 31) with (u + (-1) * 2 ^ 32) by lia.
    rewrite Z.mod_add by lia. apply Z.mod_small. lia.
Qed.

End IdcodeData.

Lemma flood_reads_ok : reads_ok Flood.tp.
Proof.
  intros d size Hsize. cbn. rewrite repeat_length, Z2Nat.id by lia. lia.
Qed.

Lemma flood_bytes_ok : bytes_ok Flood.tp.
Proof.
  intros d size. cbn. apply Forall_forall. intros b Hb.
  apply repeat_spec in Hb. subst b. lia.
Qed.

Lemma jtag_get_idcode_spec_witness :
  reads_ok Flood.tp /\ bytes_ok Flood.tp
  /\ fst (jtag_get_idcode Flood.tp (fun _ => 0x77) 0x55 Flood.start) = (0, 0)
  /\ exists l : Z,
       writes_of (new_events Flood.start
                    (snd (jtag_get_idcode Flood.tp (fun _ => 0x77) 0x55 Flood.start)))
       = [(idcode_commands, l)].
Proof.
  split; [exact flood_reads_ok|]. split; [exact flood_bytes_ok|].
  split; [vm_compute; reflexivity|].
  destruct (jtag_get_idcode_spec Flood.tp (fun _ => 0x77) flood_reads_ok flood_bytes_ok
              0x55 Flood.start) as (_ & _ & Hw & _).
  exact Hw.
Defined.


(** ** Loading the bit file *)

Lemma swap_all_spec (p : mem) (len i : Z) :
  swap_all p len i = if (0 <=? i) && (i <? len) then bit_swap (p i) else p i.
Proof.
  unfold swap_all.
  assert (H : forall k : nat,
             fold_left (fun q j => upd q j (bit_swap (q j)))
               (map Z.of_nat (seq 0 k)) p i
             = if (0 <=? i) && (i <? Z.of_nat k) then bit_swap (p i) else p i).
  { induction k as [|k IH].
    - cbn [seq map fold_left]. destruct (0 <=? i) eqn:E0; cbn [andb]; [|reflexivity].
      destruct (Z.ltb_spec i (Z.of_nat 0)); [lia | reflexivity].
    - rewrite seq_S, map_app, fold_left_app. cbn [map fold_left Nat.add].
      unfold upd at 1. destruct (Z.eqb_spec i (Z.of_nat k)) as [-> | Hne].
      + assert (Hk : forall q : mem,
                   (if (0 <=? Z.of_nat k) && (Z.of_nat k <? Z.of_nat k)
                    then bit_swap (q (Z.of_nat k)) else q (Z.of_nat k)) = q (Z.of_nat k)).
        { intros q. rewrite Z.ltb_irrefl, andb_false_r. reflexivity. }
        rewrite Hk in IH. rewrite IH.
        destruct (Z.leb_spec 0 (Z.of_nat k)); [|lia].
        destruct (Z.ltb_spec (Z.of_nat k) (Z.of_nat (S k))); [reflexivity | lia].
      + rewrite IH. destruct (0 <=? i); cbn [andb]; [|reflexivity].
        destruct (Z.ltb_spec i (Z.of_nat k)), (Z.ltb_spec i (Z.of_nat (S k)));
          try reflexivity; lia. }
  rewrite H. destruct (Z.leb_spec 0 i); cbn [andb]; [|reflexivity].
  destruct (Z.ltb_spec i (Z.of_nat (Z.to_nat len))), (Z.ltb_spec i len);
    try reflexivity; lia.
Qed.

(** What [fread(fdata, 1, FDATA_SIZE, fin)] takes of a file. *)
Lemma fread_length (bytes : list Z) :
  Z.of_nat (length (firstn (Z.to_nat FDATA_SIZE) bytes))
  = Z.min FDATA_SIZE (Z.of_nat (length bytes)).
Proof.
  rewrite length_firstn.
  assert (H : 0 <= FDATA_SIZE) by (unfold FDATA_SIZE; lia).
  remember (Z.to_nat FDATA_SIZE) as k eqn:Hk.
  assert (Z.of_nat k = FDATA_SIZE) by (subst k; apply Z2Nat.id; exact H).
  lia.
Qed.

Lemma load_fdata_unfold (alloc : option mem) (file : option (list Z)) (st : bitfile) :
  load_fdata alloc file st
  = match (match fdata st with Some p => Some p | None => alloc end) with
    | None => (1, Bitfile None (flength st))
    | Some p =>
        match file with
        | None => (1, Bitfile (Some p) (flength st))
        | Some bytes =>
            let len := Z.min FDATA_SIZE (Z.of_nat (length bytes)) in
            let p1 := write_at p 0 (firstn (Z.to_nat FDATA_SIZE) bytes) in
            if (len <? 1) || (len >=? FDATA_SIZE) then (1, Bitfile (Some p1) len)
            else (0, Bitfile (Some (swap_all p1 len)) len)
        end
    end.
Proof.
  unfold load_fdata.
  destruct (match fdata st with Some p => Some p | None => alloc end) as [p|];
    [|reflexivity].
  destruct file as [bytes|]; [|reflexivity].
  cbv zeta. rewrite fread_length. reflexivity.
Qed.

(** X14.  [load_fdata] returns 0 or 1, and 0 exactly when a block is at
    hand (one kept from an earlier call, or a fresh one from [malloc]), the
    file opens, and it holds at least one byte and fewer than [FDATA_SIZE]:
    an empty file and a file of [FDATA_SIZE] bytes or more are both
    refused.  The block is kept in [fdata] whatever the result, a block
    already held is reused rather than replaced by a fresh one, and
    [flength] is left alone when nothing was read and is the number of
    bytes read (at most [FDATA_SIZE]) otherwise. *)
Theorem load_fdata_result (alloc : option mem) (file : option (list Z)) (st : bitfile) :
  let res := load_fdata alloc file st in
  (fst res = 0 \/ fst res = 1)
  /\ (fst res = 0 <->
      (is_some (fdata st) || is_some alloc = true)
      /\ exists bytes : list Z,
           file = Some bytes /\ 1 <= Z.of_nat (length bytes) < FDATA_SIZE)
  /\ (is_some (fdata (snd res)) = is_some (fdata st) || is_some alloc)
  /\ (forall p : mem, fdata st = Some p -> file = None -> fdata (snd res) = Some p)
  /\ (is_some (fdata st) || is_some alloc = false \/ file = None ->
      flength (snd res) = flength st)
  /\ (forall bytes : list Z,
        is_some (fdata st) || is_some alloc = true -> file = Some bytes ->
        flength (snd res) = Z.min FDATA_SIZE (Z.of_nat (length bytes))).
Proof.
  intros res. subst res. rewrite load_fdata_unfold.
  destruct (fdata st) as [p0|] eqn:Hst; cbn [is_some orb].
  - destruct file as [bytes|]; cbv zeta.
    + destruct (Z.ltb_spec (Z.min FDATA_SIZE (Z.of_nat (length bytes))) 1) as [H1 | H1];
        cbn [orb].
      * cbn [fst snd fdata flength is_some].
        split; [now right|]. split.
        { split; [discriminate|]. intros [_ (b & Hb & Hlen)].
          injection Hb as <-. unfold FDATA_SIZE in *. lia. }
        split; [reflexivity|]. split; [discriminate|].
        split; [intros [? | ?]; discriminate|].
        intros b _ Hb. injection Hb as <-. reflexivity.
      * destruct (Z.geb_spec (Z.min FDATA_SIZE (Z.of_nat (length bytes))) FDATA_SIZE)
          as [H2 | H2]; cbn [fst snd fdata flength is_some].
        { split; [now right|]. split.
          { split; [discriminate|]. intros [_ (b & Hb & Hlen)].
            injection Hb as <-. lia. }
          split; [reflexivity|]. split; [discriminate|].
          split; [intros [? | ?]; discriminate|].
          intros b _ Hb. injection Hb as <-. reflexivity. }
        split; [now left|]. split.
        { split; [|reflexivity]. intros _. split; [reflexivity|].
          exists bytes. split; [reflexivity | lia]. }
        split; [reflexivity|]. split; [discriminate|].
        split; [intros [? | ?]; discriminate|].
        intros b _ Hb. injection Hb as <-. reflexivity.
    + cbn [fst snd fdata flength is_some].
      split; [now right|]. split.
      { split; [discriminate|]. intros [_ (b & Hb & _)]. discriminate. }
      split; [reflexivity|]. split; [intros p Hp _; injection Hp as <-; reflexivity|].
      split; [reflexivity|]. intros b _ Hb. discriminate.
  - destruct alloc as [p0|]; cbn [is_some].
    + destruct file as [bytes|]; cbv zeta.
      * destruct (Z.ltb_spec (Z.min FDATA_SIZE (Z.of_nat (length bytes))) 1) as [H1 | H1];
          cbn [orb].
        { cbn [fst snd fdata flength is_some].
          split; [now right|]. split.
          { split; [discriminate|]. intros [_ (b & Hb & Hlen)].
            injection Hb as <-. unfold FDATA_SIZE in *. lia. }
          split; [reflexivity|]. split; [discriminate|].
          split; [intros [? | ?]; discriminate|].
          intros b _ Hb. injection Hb as <-. reflexivity. }
        destruct (Z.geb_spec (Z.min FDATA_SIZE (Z.of_nat (length bytes))) FDATA_SIZE)
          as [H2 | H2]; cbn [fst snd fdata flength is_some].
        { split; [now right|]. split.
          { split; [discriminate|]. intros [_ (b & Hb & Hlen)].
            injection Hb as <-. lia. }
          split; [reflexivity|]. split; [discriminate|].
          split; [intros [? | ?]; discriminate|].
          intros b _ Hb. injection Hb as <-. reflexivity. }
        split; [now left|]. split.
        { split; [|reflexivity]. intros _. split; [reflexivity|].
          exists bytes. split; [reflexivity | lia]. }
        split; [reflexivity|]. split; [discriminate|].
        split; [intros [? | ?]; discriminate|].
        intros b _ Hb. injection Hb as <-. reflexivity.
      * cbn [fst snd fdata flength is_some].
        split; [now right|]. split.
        { split; [discriminate|]. intros [_ (b & Hb & _)]. discriminate. }
        split; [reflexivity|]. split; [discriminate|].
        split; [reflexivity|]. intros b _ Hb. discriminate.
    + cbn [fst snd fdata flength is_some].
      split; [now right|]. split.
      { split; [discriminate|]. intros [Hx _]. discriminate. }
      split; [reflexivity|]. split; [discriminate|].
      split; [reflexivity|]. intros b Hx. discriminate.
Qed.

(** X15.  After a successful [load_fdata] of a file of bytes, [flength] is
    the file's length and cell [i] of [fdata] holds byte [i] of the file
    with its eight bits in reverse order, so [bit_swap] gives the file's
    byte back; the cells from [flength] on are as they were in the block. *)
Theorem load_fdata_swapped (alloc : option mem) (bytes : list Z) (st : bitfile)
    (p : mem) :
  match fdata st with Some q => Some q | None => alloc end = Some p ->
  1 <= Z.of_nat (length bytes) < FDATA_SIZE ->
  Forall (fun b => 0 <= b < 256) bytes ->
  exists q : mem,
    load_fdata alloc (Some bytes) st = (0, Bitfile (Some q) (Z.of_nat (length bytes)))
    /\ (forall i, 0 <= i < Z.of_nat (length bytes) ->
          q i = bit_swap (nth (Z.to_nat i) bytes 0)
          /\ bit_swap (q i) = nth (Z.to_nat i) bytes 0
          /\ 0 <= q i < 256
          /\ forall k, 0 <= k <= 7 ->
               Z.testbit (q i) k = Z.testbit (nth (Z.to_nat i) bytes 0) (7 - k))
    /\ (forall i, i < 0 \/ Z.of_nat (length bytes) <= i -> q i = p i).
Proof.
  intros Hblock Hlen Hbytes.
  rewrite load_fdata_unfold, Hblock. cbv zeta.
  rewrite Z.min_r by lia.
  destruct (Z.ltb_spec (Z.of_nat (length bytes)) 1); [lia|].
  destruct (Z.geb_spec (Z.of_nat (length bytes)) FDATA_SIZE); [lia|].
  cbn [orb].
  assert (Hall : firstn (Z.to_nat FDATA_SIZE) bytes = bytes).
  { apply firstn_all2.
    assert (H1 : 0 <= FDATA_SIZE) by lia.
    remember (Z.to_nat FDATA_SIZE) as k eqn:Hk.
    assert (Z.of_nat k = FDATA_SIZE) by (subst k; apply Z2Nat.id; exact H1). lia. }
  rewrite Hall. eexists. split; [reflexivity|].
  split.
  - intros i Hi. rewrite swap_all_spec.
    destruct (Z.leb_spec 0 i); [|lia]. destruct (Z.ltb_spec i (Z.of_nat (length bytes))); [|lia].
    cbn [andb]. unfold write_at.
    destruct (Z.leb_spec 0 i); [|lia].
    destruct (Z.ltb_spec i (0 + Z.of_nat (length bytes))); [|lia].
    cbn [andb]. rewrite Z.sub_0_r.
    assert (Hb : 0 <= nth (Z.to_nat i) bytes 0 < 256).
    { rewrite Forall_forall in Hbytes. apply Hbytes, nth_In. lia. }
    pose proof (all_below_spec _ _ bit_swap_table _ Hb) as Ht. cbv beta in Ht.
    apply andb_prop in Ht as [Ht Hbits]. apply andb_prop in Ht as [Ht Hhi].
    apply andb_prop in Ht as [Ht Hlo]. apply andb_prop in Ht as [_ Hinv].
    split; [reflexivity|]. split; [apply Z.eqb_eq; exact Hinv|].
    split; [lia|].
    intros k Hk. pose proof (all_below_spec _ _ Hbits k ltac:(lia)) as Hbk.
    cbv beta in Hbk. apply Bool.eqb_prop in Hbk. exact Hbk.
  - intros i Hi. rewrite swap_all_spec.
    assert (E : (0 <=? i) && (i <? Z.of_nat (length bytes)) = false).
    { destruct (Z.leb_spec 0 i), (Z.ltb_spec i (Z.of_nat (length bytes)));
        try reflexivity; lia. }
    rewrite E. unfold write_at.
    assert (E' : (0 <=? i) && (i <? 0 + Z.of_nat (length bytes)) = false).
    { destruct (Z.leb_spec 0 i), (Z.ltb_spec i (0 + Z.of_nat (length bytes)));
        try reflexivity; lia. }
    rewrite E'. reflexivity.
Qed.

Lemma load_fdata_swapped_witness :
  exists q : mem,
    load_fdata (Some (fun _ => 0x77)) (Some [0x01; 0x80; 0xaa; 0x0f]) (Bitfile None 0)
    = (0, Bitfile (Some q) 4)
    /\ q 0 = 0x80 /\ q 1 = 0x01 /\ q 2 = 0x55 /\ q 3 = 0xf0 /\ q 4 = 0x77.
Proof.
  destruct (load_fdata_swapped (Some (fun _ => 0x77)) [0x01; 0x80; 0xaa; 0x0f]
              (Bitfile None 0) (fun _ => 0x77) eq_refl)
    as (q & Hload & Hin & Hout).
  - cbn [length]. unfold FDATA_SIZE. lia.
  - repeat constructor; lia.
  - exists q. split; [exact Hload|].
    split; [exact (proj1 (Hin 0 ltac:(cbn [length]; lia)))|].
    split; [exact (proj1 (Hin 1 ltac:(cbn [length]; lia)))|].
    split; [exact (proj1 (Hin 2 ltac:(cbn [length]; lia)))|].
    split; [exact (proj1 (Hin 3 ltac:(cbn [length]; lia)))|].
    exact (Hout 4 ltac:(cbn [length]; lia)).
Defined.


(** ** How far a transfer fills the command buffer *)

Lemma writes_of_reads (reads : list event) :
  Forall is_read reads -> writes_of reads = [].
Proof.
  induction 1 as [|e l He _ IH]; [reflexivity|].
  destruct e; try contradiction. exact IH.
Qed.

Lemma writes_within_app (bound : Z) (l1 l2 : list event) :
  writes_within bound l1 -> writes_within bound l2 -> writes_within bound (l1 ++ l2).
Proof.
  unfold writes_within. intros H1 H2. rewrite writes_of_app.
  apply Forall_app. split; assumption.
Qed.

Lemma writes_within_weaken (b1 b2 : Z) (l : list event) :
  b1 <= b2 -> writes_within b1 l -> writes_within b2 l.
Proof.
  unfold writes_within. intros Hb H. eapply Forall_impl; [|exact H].
  cbv beta. intros w Hw. lia.
Qed.

Lemma writes_within_quiet (bound : Z) (l : list event) :
  writes_of l = [] -> writes_within bound l.
Proof. unfold writes_within. intros ->. constructor. Qed.

Section Peak.
Context {T : Type} (tp : transport T) (uninit : mem).

(** A flush writes the whole buffer once and never lets it grow. *)
Lemma jtag_send_peak (s : jtag T) :
  exists new : list event,
    trace (snd (jtag_send tp s)) = trace s ++ new
    /\ writes_within (jtag_buf_i s) new
    /\ ((fst (jtag_send tp s) = 0 /\ jtag_buf (snd (jtag_send tp s)) = [])
        \/ (fst (jtag_send tp s) = 1
            /\ jtag_buf (snd (jtag_send tp s)) = jtag_buf s)).
Proof.
  destruct (jtag_send_spec tp s) as [[_ ->] | [_ (l & dev & _ & ->)]].
  - exists []. rewrite app_nil_r. cbn [fst snd].
    split; [reflexivity|]. split; [constructor | right; split; reflexivity].
  - eexists [_]. cbn [fst snd trace jtag_buf].
    split; [reflexivity|]. split.
    + unfold writes_within. cbn. constructor; [|constructor].
      cbn [fst]. unfold jtag_buf_i. lia.
    + destruct (l =? jtag_buf_i s); [left | right]; split; reflexivity.
Qed.

(** A receive writes nothing and leaves the buffer alone. *)
Lemma jtag_recv_peak (p : mem) (rbuf : option Z) (n : Z) (s : jtag T) :
  exists new : list event,
    trace (snd (jtag_recv tp p rbuf n s)) = trace s ++ new
    /\ writes_of new = []
    /\ jtag_buf (snd (jtag_recv tp p rbuf n s)) = jtag_buf s.
Proof.
  destruct (jtag_recv_spec tp p rbuf n s)
    as (n' & p' & s' & reads & -> & _ & Hbuf & Htr & Hreads & _).
  cbn [snd]. exists (reads ++ [EvRecv n n']).
  split; [exact Htr|]. split; [|exact Hbuf].
  rewrite writes_of_app, (writes_of_reads _ Hreads). reflexivity.
Qed.

Lemma jtag_recv_bits_peak (p : mem) (off n : Z) (s : jtag T) :
  exists new : list event,
    trace (snd (jtag_recv_bits tp uninit p off n s)) = trace s ++ new
    /\ writes_of new = []
    /\ jtag_buf (snd (jtag_recv_bits tp uninit p off n s)) = jtag_buf s.
Proof.
  unfold jtag_recv_bits. destruct ((n <? 1) || (n >? 8)).
  { exists []. rewrite app_nil_r. repeat split. }
  destruct (jtag_recv_peak uninit (Some 0) (if n >? 1 then 2 else 1) s)
    as (new & Htr & Hw & Hbuf).
  destruct (jtag_recv tp uninit (Some 0) (if n >? 1 then 2 else 1) s) as [[r rbuf] s1].
  cbn [snd] in *. exists new.
  destruct (c_true r); cbn [snd]; repeat split; assumption.
Qed.

Lemma jtag_shift_bytes_peak (tdi : option mem) (n : Z) (do_read : bool) (s : jtag T) :
  n <= JTAG_CHUNK_SIZE ->
  trace (jtag_shift_bytes tdi n do_read s) = trace s ++ [EvShiftBytes n do_read]
  /\ jtag_buf_i s + 3 <= jtag_buf_i (jtag_shift_bytes tdi n do_read s)
     <= jtag_buf_i s + 3 + JTAG_CHUNK_SIZE.
Proof.
  intros Hn.
  destruct (jtag_shift_bytes_spec tdi n do_read s) as (added & -> & Hlen).
  cbn [trace]. split; [reflexivity|].
  unfold jtag_buf_i in *. cbn [jtag_buf]. rewrite length_app.
  cbn [append_size] in Hlen. unfold JTAG_CHUNK_SIZE in *.
  destruct (is_some tdi); lia.
Qed.

Lemma jtag_shift_bits_peak (tdi : option mem) (n : Z) (do_read : bool) (s : jtag T) :
  trace (jtag_shift_bits tdi n do_read s) = trace s ++ [EvShiftBits n do_read]
  /\ jtag_buf_i s + 3 <= jtag_buf_i (jtag_shift_bits tdi n do_read s)
     <= jtag_buf_i s + 6.
Proof.
  destruct (jtag_shift_bits_spec tdi n do_read s) as (added & -> & Hlen).
  cbn [trace]. split; [reflexivity|].
  unfold jtag_buf_i in *. cbn [jtag_buf]. rewrite length_app.
  cbn [append_size] in Hlen.
  destruct (n >? 1), (is_some tdi); lia.
Qed.

Lemma tap_run_peak (op : tap_op) (s : jtag T) :
  trace (tap_run op s) = trace s /\ jtag_buf_i (tap_run op s) = jtag_buf_i s + 3.
Proof.
  destruct (tap_run_buf op s) as (c & d & ->). cbn [trace]. split; [reflexivity|].
  unfold jtag_buf_i. cbn [jtag_buf]. rewrite length_app. cbn [length]. lia.
Qed.

(** The chunk loop: no write and no buffer beyond the bytes pending at its
    start, a header and a chunk. *)
Lemma dr_chunks_peak (fuel : nat) :
  forall (tdi tdo : option mem) (bytes_remaining chunk_length tdi_i tdo_i : Z)
         (s : jtag T) (ex : loop_exit T),
    dr_chunks tp fuel tdi tdo bytes_remaining chunk_length tdi_i tdo_i s = Some ex ->
    exists new : list event,
      trace (exit_state ex) = trace s ++ new
      /\ writes_within (jtag_buf_i s + 3 + JTAG_CHUNK_SIZE) new
      /\ jtag_buf_i (exit_state ex) <= jtag_buf_i s + 3 + JTAG_CHUNK_SIZE.
Proof.
  assert (Hpos : forall s : jtag T, 0 <= jtag_buf_i s) by (intros s; unfold jtag_buf_i; lia).
  assert (Hchunk : 0 <= JTAG_CHUNK_SIZE) by (unfold JTAG_CHUNK_SIZE; lia).
  induction fuel as [|fuel IH];
    intros tdi tdo bytes_remaining chunk_length tdi_i tdo_i s ex Hloop.
  { cbn [dr_chunks] in Hloop. destruct (bytes_remaining >? 0); [discriminate|].
    injection Hloop as <-. exists []. rewrite app_nil_r. cbn [exit_state].
    split; [reflexivity|]. split; [constructor|]. lia. }
  pose proof (Hpos s) as Hps.
  cbn [dr_chunks] in Hloop. destruct (bytes_remaining >? 0).
  2:{ injection Hloop as <-. exists []. rewrite app_nil_r. cbn [exit_state].
      split; [reflexivity|]. split; [constructor|]. lia. }
  set (cl := if bytes_remaining >? JTAG_CHUNK_SIZE then JTAG_CHUNK_SIZE
             else bytes_remaining) in Hloop.
  assert (Hcl : cl <= JTAG_CHUNK_SIZE).
  { subst cl. destruct (Z.gtb_spec bytes_remaining JTAG_CHUNK_SIZE); lia. }
  destruct (jtag_shift_bytes_peak (option_map (fun p => shift_ptr p tdi_i) tdi) cl
              (is_some tdo) s Hcl) as (Htr1 & Hb1).
  set (s1 := jtag_shift_bytes _ cl (is_some tdo) s) in *. clearbody s1.
  destruct (Z.gtb_spec (bytes_remaining - cl) 0) as [Hmore | Hlast].
  2:{ rewrite dr_chunks_done in Hloop by lia. injection Hloop as <-.
      cbn [exit_state]. eexists. split; [exact Htr1|].
      split; [apply writes_within_quiet; reflexivity | lia]. }
  destruct (jtag_send_peak s1) as (new2 & Htr2 & Hw2 & Hres2).
  destruct (jtag_send tp s1) as [r s2]. cbn [fst snd] in *.
  assert (Hw12 : writes_within (jtag_buf_i s + 3 + JTAG_CHUNK_SIZE)
                   ([EvShiftBytes cl (is_some tdo)] ++ new2)).
  { apply writes_within_app; [apply writes_within_quiet; reflexivity|].
    eapply writes_within_weaken; [|exact Hw2]. lia. }
  destruct Hres2 as [[-> Hbuf2] | [-> Hbuf2]]; cbn [c_true Z.eqb negb] in Hloop.
  2:{ injection Hloop as <-. cbn [exit_state].
      exists ([EvShiftBytes cl (is_some tdo)] ++ new2).
      split; [rewrite Htr2, Htr1, <- app_assoc; reflexivity|].
      split; [exact Hw12|]. unfold jtag_buf_i in *. rewrite Hbuf2. lia. }
  assert (Hb2 : jtag_buf_i s2 = 0) by (unfold jtag_buf_i; rewrite Hbuf2; reflexivity).
  destruct tdo as [p|].
  - destruct (jtag_recv_peak p (Some tdo_i) cl s2) as (new3 & Htr3 & Hw3 & Hbuf3).
    destruct (jtag_recv tp p (Some tdo_i) cl s2) as [[r2 p1] s3]. cbn [snd] in *.
    assert (Hb3 : jtag_buf_i s3 = 0) by (unfold jtag_buf_i in *; rewrite Hbuf3; exact Hb2).
    assert (Hw123 : writes_within (jtag_buf_i s + 3 + JTAG_CHUNK_SIZE)
                      (([EvShiftBytes cl true] ++ new2) ++ new3)).
    { apply writes_within_app; [exact Hw12 | apply writes_within_quiet; exact Hw3]. }
    assert (Htr123 : trace s3 = trace s ++ ([EvShiftBytes cl true] ++ new2) ++ new3).
    { rewrite Htr3, Htr2, Htr1. cbn [is_some]. rewrite <- !app_assoc. reflexivity. }
    destruct (c_true r2).
    + injection Hloop as <-. cbn [exit_state]. eexists.
      split; [exact Htr123|]. split; [exact Hw123 | lia].
    + destruct (IH _ _ _ _ _ _ _ _ Hloop) as (new4 & Htr4 & Hw4 & Hb4).
      exists ((([EvShiftBytes cl true] ++ new2) ++ new3) ++ new4).
      split; [rewrite Htr4, Htr123, <- !app_assoc; reflexivity|].
      split; [|lia].
      apply writes_within_app; [exact Hw123|].
      eapply writes_within_weaken; [|exact Hw4]. lia.
  - destruct (IH _ _ _ _ _ _ _ _ Hloop) as (new4 & Htr4 & Hw4 & Hb4).
    exists (([EvShiftBytes cl false] ++ new2) ++ new4).
    split; [rewrite Htr4, Htr2, Htr1; cbn [is_some]; rewrite <- !app_assoc; reflexivity|].
    split; [|lia].
    apply writes_within_app; [exact Hw12|].
    eapply writes_within_weaken; [|exact Hw4]. lia.
Qed.

(** What follows the loop: at most nine more bytes, then one write of the
    whole buffer. *)
Lemma dr_finish_peak (tdi : option mem) (bits cl ti to : Z) (tdo : option mem)
    (s : jtag T) :
  exists new : list event,
    trace (snd (dr_finish tp uninit tdi bits cl ti to tdo s)) = trace s ++ new
    /\ writes_within (jtag_buf_i s + 9) new
    /\ jtag_buf_i (snd (dr_finish tp uninit tdi bits cl ti to tdo s))
       <= jtag_buf_i s + 9.
Proof.
  assert (Hpos : forall s : jtag T, 0 <= jtag_buf_i s) by (intros s0; unfold jtag_buf_i; lia).
  unfold dr_finish.
  assert (H1 : exists ev1,
             trace (if bits >? 0
                    then jtag_shift_bits (option_map (fun p => shift_ptr p ti) tdi)
                           bits (is_some tdo) s
                    else s) = trace s ++ ev1
             /\ writes_of ev1 = []
             /\ jtag_buf_i (if bits >? 0
                            then jtag_shift_bits (option_map (fun p => shift_ptr p ti) tdi)
                                   bits (is_some tdo) s
                            else s) <= jtag_buf_i s + 6).
  { destruct (bits >? 0).
    - destruct (jtag_shift_bits_peak (option_map (fun p => shift_ptr p ti) tdi) bits
                  (is_some tdo) s) as (Htr & Hb).
      eexists. split; [exact Htr|]. split; [reflexivity | lia].
    - exists []. rewrite app_nil_r. split; [reflexivity|]. split; [reflexivity | lia]. }
  destruct H1 as (ev1 & Htr1 & Hq1 & Hb1).
  set (s1 := if bits >? 0 then _ else s) in *. clearbody s1.
  destruct (tap_run_peak exit1DRToIdle s1) as (Htr2 & Hb2). cbn [tap_run] in Htr2, Hb2.
  set (s2 := jtag_exit1_dr_to_rti s1) in *. clearbody s2.
  destruct (jtag_send_peak s2) as (new3 & Htr3 & Hw3 & Hres3).
  destruct (jtag_send tp s2) as [r s3]. cbn [fst snd] in *.
  assert (Hw13 : writes_within (jtag_buf_i s + 9) (ev1 ++ new3)).
  { apply writes_within_app; [apply writes_within_quiet; exact Hq1|].
    eapply writes_within_weaken; [|exact Hw3]. lia. }
  assert (Htr13 : trace s3 = trace s ++ ev1 ++ new3)
    by (rewrite Htr3, Htr2, Htr1, <- app_assoc; reflexivity).
  destruct Hres3 as [[-> Hbuf3] | [-> Hbuf3]]; cbn [c_true Z.eqb negb].
  2:{ cbn [snd]. eexists. split; [exact Htr13|]. split; [exact Hw13|].
      unfold jtag_buf_i in *. rewrite Hbuf3. lia. }
  assert (Hb3 : jtag_buf_i s3 = 0) by (unfold jtag_buf_i; rewrite Hbuf3; reflexivity).
  destruct tdo as [p|].
  2:{ cbn [snd]. eexists. split; [exact Htr13|]. split; [exact Hw13|].
      specialize (Hpos s). lia. }
  assert (H4 : exists ev4,
             trace (snd (if cl >? 0 then jtag_recv tp p (Some to) cl s3 else (0, p, s3)))
             = trace s3 ++ ev4
             /\ writes_of ev4 = []
             /\ jtag_buf (snd (if cl >? 0 then jtag_recv tp p (Some to) cl s3
                               else (0, p, s3))) = jtag_buf s3).
  { destruct (cl >? 0).
    - apply jtag_recv_peak.
    - exists []. rewrite app_nil_r. repeat split. }
  destruct H4 as (ev4 & Htr4 & Hq4 & Hbuf4).
  destruct (if cl >? 0 then jtag_recv tp p (Some to) cl s3 else (0, p, s3))
    as [[r1 p1] s4]. cbn [snd] in *.
  assert (Hb4 : jtag_buf_i s4 = 0) by (unfold jtag_buf_i in *; rewrite Hbuf4; exact Hb3).
  assert (Hw14 : writes_within (jtag_buf_i s + 9) ((ev1 ++ new3) ++ ev4)).
  { apply writes_within_app; [exact Hw13 | apply writes_within_quiet; exact Hq4]. }
  assert (Htr14 : trace s4 = trace s ++ (ev1 ++ new3) ++ ev4)
    by (rewrite Htr4, Htr13, <- !app_assoc; reflexivity).
  destruct (c_true r1).
  { cbn [snd]. eexists. split; [exact Htr14|]. split; [exact Hw14|].
    specialize (Hpos s). lia. }
  destruct (bits >? 0).
  2:{ cbn [snd]. eexists. split; [exact Htr14|]. split; [exact Hw14|].
      specialize (Hpos s). lia. }
  destruct (jtag_recv_bits_peak p1 (if cl >? 0 then to + cl else to) bits s4)
    as (ev5 & Htr5 & Hq5 & Hbuf5).
  destruct (jtag_recv_bits tp uninit p1 (if cl >? 0 then to + cl else to) bits s4)
    as [[r2 p2] s5]. cbn [snd] in *.
  assert (Hfin : trace s5 = trace s ++ ((ev1 ++ new3) ++ ev4) ++ ev5
                 /\ writes_within (jtag_buf_i s + 9) (((ev1 ++ new3) ++ ev4) ++ ev5)
                 /\ jtag_buf_i s5 <= jtag_buf_i s + 9).
  { split; [rewrite Htr5, Htr14, <- !app_assoc; reflexivity|].
    split; [apply writes_within_app; [exact Hw14 | apply writes_within_quiet; exact Hq5]|].
    unfold jtag_buf_i in *. rewrite Hbuf5. specialize (Hpos s). unfold jtag_buf_i in Hpos.
    lia. }
  destruct (c_true r2); cbn [snd]; eexists; exact Hfin.
Qed.

(** The whole transfer. *)
Lemma jtag_dr_op_peak (tdi tdo : option mem) (n : Z) (s : jtag T) :
  exists ev : list event,
    trace (snd (jtag_dr_op tp uninit tdi tdo n s)) = trace s ++ ev
    /\ writes_within (jtag_buf_i s + 32783) ev
    /\ jtag_buf_i (snd (jtag_dr_op tp uninit tdi tdo n s)) <= jtag_buf_i s + 32783.
Proof.
  unfold jtag_dr_op.
  destruct (negb (is_some tdi) && negb (is_some tdo)).
  { exists []. rewrite app_nil_r. cbn [snd].
    split; [reflexivity|]. split; [constructor | lia]. }
  destruct (tap_run_peak idleToShiftDR s) as (Htr1 & Hb1). cbn [tap_run] in Htr1, Hb1.
  set (s1 := jtag_rti_to_shift_dr s) in *. clearbody s1.
  destruct (dr_chunks tp (Z.to_nat (whole_bytes n)) tdi tdo (whole_bytes n) 0 0 0 s1)
    as [ex|] eqn:Hloop.
  2:{ exists []. rewrite app_nil_r. cbn [snd].
      split; [exact Htr1|]. split; [constructor | lia]. }
  destruct (dr_chunks_peak _ _ _ _ _ _ _ _ _ Hloop) as (new2 & Htr2 & Hw2 & Hb2).
  unfold JTAG_CHUNK_SIZE in Hw2, Hb2.
  destruct ex as [r tdo' s' | cl ti to tdo' s']; cbn [exit_state] in Htr2, Hb2.
  - cbn [snd]. exists new2. split; [rewrite Htr2, Htr1; reflexivity|].
    split; [eapply writes_within_weaken; [|exact Hw2]; lia | lia].
  - destruct (dr_finish_peak tdi (tail_bits n) cl ti to tdo' s')
      as (new3 & Htr3 & Hw3 & Hb3).
    exists (new2 ++ new3).
    split; [rewrite Htr3, Htr2, Htr1, <- app_assoc; reflexivity|].
    split; [|lia].
    apply writes_within_app; eapply writes_within_weaken; try eassumption; lia.
Qed.

(** X16.  A data-register transfer never holds, and never hands to
    [ftdi_write_data], more than the bytes pending when it starts plus
    32783: the state change, one chunk of at most [JTAG_CHUNK_SIZE] bytes
    with its header, the tail and the state change back.  So a transfer of
    any length, over any transport, stays inside the block of
    [JTAG_BUFFER_SIZE] bytes whenever at most [JTAG_BUFFER_SIZE - 32783]
    bytes are pending at its start. *)
Theorem jtag_dr_op_buffer_peak (tdi tdo : option mem) (n : Z) (s : jtag T) :
  let res := jtag_dr_op tp uninit tdi tdo n s in
  let new := new_events s (snd res) in
  trace (snd res) = trace s ++ new
  /\ writes_within (jtag_buf_i s + 3 + (3 + JTAG_CHUNK_SIZE) + 6 + 3) new
  /\ jtag_buf_i (snd res) <= jtag_buf_i s + 3 + (3 + JTAG_CHUNK_SIZE) + 6 + 3
  /\ 3 + (3 + JTAG_CHUNK_SIZE) + 6 + 3 = 32783
  /\ (jtag_buf_i s <= JTAG_BUFFER_SIZE - 32783 ->
      in_block (snd res) /\ writes_within JTAG_BUFFER_SIZE new).
Proof.
  intros res new.
  destruct (jtag_dr_op_peak tdi tdo n s) as (ev & Htr & Hw & Hb).
  fold res in Htr, Hb.
  subst new. rewrite (new_events_app s (snd res) ev Htr).
  change (3 + (3 + JTAG_CHUNK_SIZE) + 6 + 3) with 32783.
  replace (jtag_buf_i s + 3 + (3 + JTAG_CHUNK_SIZE) + 6 + 3) with (jtag_buf_i s + 32783)
    by (unfold JTAG_CHUNK_SIZE; lia).
  split; [exact Htr|]. split; [exact Hw|]. split; [exact Hb|]. split; [reflexivity|].
  intros Hs. split.
  - unfold in_block. lia.
  - eapply writes_within_weaken; [|exact Hw]. lia.
Qed.

End Peak.


(** ** Receiving while the reads fail *)

Section ReadErrors.
Context {T : Type} (tp : transport T).
Hypothesis Herr : forall (d : T) (size : Z),
  fst (fst (ftdi_read_data tp d size)) < 0
  /\ snd (fst (ftdi_read_data tp d size)) = [].

Lemma jtag_recv_loop_errors (fuel : nat) :
  forall (p : mem) (off n timeout : Z) (s : jtag T),
    0 < n -> 0 <= timeout -> (Z.to_nat timeout < fuel)%nat ->
    exists (r : Z) (p' : mem) (s' : jtag T) (reads : list event),
      jtag_recv_loop tp fuel p (Some off) n timeout s = Some (r, p', s')
      /\ trace s' = trace s ++ reads
      /\ Z.of_nat (length reads) = timeout + 1
      /\ n + timeout + 1 <= r
      /\ (forall k, p' k = p k)
      /\ Forall (failed_read n) reads
      /\ n + timeout <= read_size (last reads (EvRecv 0 0)).
Proof.
  induction fuel as [|fuel IH]; intros p off n timeout s Hn Ht Hfuel; [lia|].
  cbn [jtag_recv_loop]. destruct (Z.gtb_spec n 0) as [_ | ?]; [|lia].
  destruct (Herr (ftdi s) n) as [Hret Hbytes].
  destruct (ftdi_read_data tp (ftdi s) n) as [[ret bytes] dev].
  cbn [fst snd] in Hret, Hbytes. subst bytes.
  assert (Hp : forall k, write_at p off [] k = p k).
  { intros k. unfold write_at. cbn [length].
    destruct (Z.leb_spec off k), (Z.ltb_spec k (off + Z.of_nat 0)); try reflexivity.
    lia. }
  destruct (Z.leb_spec timeout 0) as [H0 | Hpos].
  - assert (timeout = 0) by lia. subst timeout.
    eexists _, _, _, [_]. split; [reflexivity|]. cbn [trace length last read_size].
    split; [reflexivity|]. split; [reflexivity|]. split; [lia|].
    split; [exact Hp|]. split; [|cbn; lia].
    constructor; [|constructor]. cbn. repeat split; lia.
  - destruct (IH (write_at p off []) (off + ret) (n - ret) (timeout - 1)
                (Jtag (jtag_buf s) dev (trace s ++ [EvRead n ret []])))
      as (r & p' & s' & reads & Hloop & Htr & Hlen & Hr & Hmem & Hall & Hlast);
      [lia | lia | lia |].
    rewrite Hloop. exists r, p', s', (EvRead n ret [] :: reads).
    split; [reflexivity|]. cbn [trace] in Htr.
    split; [rewrite Htr, <- app_assoc; reflexivity|].
    split; [cbn [length]; lia|]. split; [lia|].
    split; [intros k; rewrite Hmem; apply Hp|].
    split.
    + constructor; [cbn; repeat split; lia|].
      eapply Forall_impl; [|exact Hall].
      intros e He. destruct e; try contradiction. cbn in *. repeat split; lia || apply He.
    + destruct reads as [|e reads]; [cbn [length] in Hlen; lia|].
      change (last (EvRead n ret [] :: e :: reads) (EvRecv 0 0))
        with (last (e :: reads) (EvRecv 0 0)). lia.
Qed.

(** X17.  When every read reports an error, [jtag_recv] into a buffer
    still makes all 21 reads, and because it subtracts the negative result
    from the count left, each read asks for more than the one before: every
    request is for at least the [n] bytes the caller's buffer holds and the
    last one for at least [n + 20].  The call reports at least [n + 21]
    bytes missing, more than were asked for, and the memory is as it was. *)
Theorem jtag_recv_read_errors (p : mem) (off n : Z) (s : jtag T) :
  0 < n ->
  let res := jtag_recv tp p (Some off) n s in
  exists reads : list event,
    new_events s (snd res) = reads ++ [EvRecv n (fst (fst res))]
    /\ length reads = 21%nat
    /\ Forall (failed_read n) reads
    /\ n + 20 <= read_size (last reads (EvRecv 0 0))
    /\ n + 21 <= fst (fst res)
    /\ (forall k, snd (fst res) k = p k)
    /\ jtag_buf (snd res) = jtag_buf s.
Proof.
  intros Hn res. subst res.
  destruct (jtag_recv_spec tp p (Some off) n s)
    as (n1 & p1 & s1 & reads1 & -> & Hloop1 & Hbuf & Htr1 & _).
  destruct (jtag_recv_loop_errors (S (Z.to_nat JTAG_RECV_ATTEMPTS)) p off n
              JTAG_RECV_ATTEMPTS s Hn)
    as (r & p' & s' & reads & Hloop & Htr & Hlen & Hr & Hmem & Hall & Hlast);
    [unfold JTAG_RECV_ATTEMPTS; lia | lia |].
  rewrite Hloop in Hloop1. injection Hloop1 as -> -> ->.
  cbn [trace] in Htr. apply app_inv_head in Htr. subst reads1.
  cbn [fst snd]. unfold JTAG_RECV_ATTEMPTS in *.
  exists reads.
  split; [apply new_events_app; exact Htr1|].
  split; [lia|]. split; [exact Hall|]. split; [exact Hlast|]. split; [lia|].
  split; [exact Hmem | exact Hbuf].
Qed.

End ReadErrors.

Lemma jtag_recv_read_errors_witness :
  0 < 4
  /\ fst (fst (jtag_recv Dead.tp (fun _ => 0x77) (Some 0) 4 Dead.start)) = 25
  /\ exists reads : list event,
       new_events Dead.start (snd (jtag_recv Dead.tp (fun _ => 0x77) (Some 0) 4 Dead.start))
       = reads ++ [EvRecv 4 25]
       /\ length reads = 21%nat.
Proof.
  split; [lia|]. split; [reflexivity|].
  destruct (jtag_recv_read_errors Dead.tp
              (fun d size => conj (eq_refl : (-1 ?= 0) = Lt) eq_refl)
              (fun _ => 0x77) 0 4 Dead.start ltac:(lia))
    as (reads & Hnew & Hlen & _).
  exists reads. split; [exact Hnew | exact Hlen].
Defined.


(** ** The command buffer over a whole session *)

Lemma peak_refl {T} (s : jtag T) : peak 0 s s.
Proof.
  exists []. rewrite app_nil_r. split; [reflexivity|]. split; [constructor | lia].
Qed.

Lemma peak_weaken {T} (k1 k2 : Z) (s s' : jtag T) :
  k1 <= k2 -> peak k1 s s' -> peak k2 s s'.
Proof.
  intros Hk (new & Htr & Hw & Hb). exists new. split; [exact Htr|].
  split; [eapply writes_within_weaken; [|exact Hw]; lia | lia].
Qed.

Lemma peak_trans {T} (k1 k2 : Z) (s s1 s2 : jtag T) :
  peak k1 s s1 -> peak k2 s1 s2 -> 0 <= k2 -> peak (k1 + k2) s s2.
Proof.
  intros (new1 & Htr1 & Hw1 & Hb1) (new2 & Htr2 & Hw2 & Hb2) Hk.
  exists (new1 ++ new2). split; [rewrite Htr2, Htr1, <- app_assoc; reflexivity|].
  split; [|lia].
  apply writes_within_app; eapply writes_within_weaken; try eassumption; lia.
Qed.

Lemma peak_append {T} (added : list Z) (ev : list event) (s : jtag T) :
  writes_of ev = [] ->
  peak (Z.of_nat (length added)) s
    (Jtag (jtag_buf s ++ added) (ftdi s) (trace s ++ ev)).
Proof.
  intros Hev. exists ev. cbn [trace]. split; [reflexivity|].
  split; [apply writes_within_quiet; exact Hev|].
  unfold jtag_buf_i. cbn [jtag_buf]. rewrite length_app. lia.
Qed.

Lemma peak_tap {T} (op : tap_op) (s : jtag T) : peak 3 s (tap_run op s).
Proof.
  destruct (tap_run_buf op s) as (c & d & ->).
  rewrite <- (app_nil_r (trace s)) at 1.
  exact (peak_append [TMS_OPCODE; c; d] [] s eq_refl).
Qed.

Lemma peak_ir_write {T} (i : Z) (s : jtag T) : peak 12 s (jtag_ir_write i s).
Proof.
  rewrite jtag_ir_write_unfold.
  exact (peak_append _ [EvShiftBits 6 false] s eq_refl).
Qed.

Section SessionPeak.
Context {T : Type} (tp : transport T) (uninit : mem) (idcode0 : Z).

Lemma peak_send (s : jtag T) : peak 0 s (snd (jtag_send tp s)).
Proof.
  destruct (jtag_send_peak tp s) as (new & Htr & Hw & Hres).
  exists new. split; [exact Htr|]. rewrite Z.add_0_r. split; [exact Hw|].
  unfold jtag_buf_i. destruct Hres as [[_ ->] | [_ ->]]; cbn [length]; lia.
Qed.

Lemma peak_recv (p : mem) (rbuf : option Z) (n : Z) (s : jtag T) :
  peak 0 s (snd (jtag_recv tp p rbuf n s)).
Proof.
  destruct (jtag_recv_peak tp p rbuf n s) as (new & Htr & Hw & Hbuf).
  exists new. split; [exact Htr|]. split; [apply writes_within_quiet; exact Hw|].
  unfold jtag_buf_i. rewrite Hbuf. lia.
Qed.

Lemma peak_spins (k : nat) (s : jtag T) :
  peak (259 * Z.of_nat k) s (rti_spins tp k s).
Proof.
  destruct (rti_spins_spec tp k s) as (new & Htr & Hb & _ & _ & Hw).
  exists new. split; [exact Htr|]. split; [exact Hw | exact Hb].
Qed.

Lemma peak_dr_op (tdi tdo : option mem) (n : Z) (s : jtag T) :
  peak 32783 s (snd (jtag_dr_op tp uninit tdi tdo n s)).
Proof. exact (jtag_dr_op_peak tp uninit tdi tdo n s). Qed.

Lemma peak_mpsse_sync (s : jtag T) : peak 1 s (snd (jtag_mpsse_sync tp uninit s)).
Proof.
  unfold jtag_mpsse_sync.
  pose proof (peak_recv uninit (Some 0) 2 (snd (jtag_send tp (put 0xaa s)))) as P3.
  destruct (jtag_recv tp uninit (Some 0) 2 (snd (jtag_send tp (put 0xaa s))))
    as [[ret buf] s3]. cbn [snd] in *.
  assert (P1 : peak 1 s (put 0xaa s)).
  { unfold put. rewrite <- (app_nil_r (trace s)) at 1.
    exact (peak_append [to_uchar 0xaa] [] s eq_refl). }
  pose proof (peak_trans _ _ _ _ _ P1 (peak_send (put 0xaa s)) ltac:(lia)) as P2.
  exact (peak_trans _ _ _ _ _ P2 P3 ltac:(lia)).
Qed.

Lemma peak_get_idcode (idcode : Z) (s : jtag T) :
  peak 32795 s (snd (jtag_get_idcode tp uninit idcode s)).
Proof.
  unfold jtag_get_idcode.
  pose proof (peak_dr_op None (Some uninit) 32 (jtag_ir_write JTAG_INSTR_IDCODE s)) as P2.
  destruct (jtag_dr_op tp uninit None (Some uninit) 32 (jtag_ir_write JTAG_INSTR_IDCODE s))
    as [[r buf] s2]. cbn [snd] in *.
  pose proof (peak_trans _ _ _ _ _ (peak_ir_write JTAG_INSTR_IDCODE s) P2 ltac:(lia)) as P.
  destruct (c_true r); exact P.
Qed.

Lemma peak_main_exit (ret : Z) (st : bitfile) (s : jtag T) :
  peak 3 s (snd (main_exit tp ret st s)).
Proof.
  unfold main_exit. cbn [snd].
  exact (peak_trans _ _ _ _ _ (peak_tap forceReset s)
           (peak_send (jtag_to_tlr s)) ltac:(lia)).
Qed.

Lemma peak_then_exit (k : Z) (ret : Z) (st : bitfile) (s s1 : jtag T) :
  peak k s s1 -> k + 3 <= 324627 ->
  peak 324627 s (snd (main_exit tp ret st s1)).
Proof.
  intros P Hk. eapply peak_weaken; [exact Hk|].
  exact (peak_trans _ _ _ _ _ P (peak_main_exit ret st s1) ltac:(lia)).
Qed.

(** The whole session, whichever way it ends. *)
Lemma main_session_peak (alloc : option mem) (file : option (list Z))
    (st : bitfile) (s : jtag T) :
  peak 324627 s (snd (main_session tp uninit idcode0 alloc file st s)).
Proof.
  unfold main_session.
  pose proof (peak_mpsse_sync s) as P1.
  destruct (jtag_mpsse_sync tp uninit s) as [r s1]. cbn [snd] in P1.
  destruct (c_true r); [exact (peak_then_exit _ _ _ _ _ P1 ltac:(lia))|].
  destruct (ftdi_write_data tp (ftdi s1) [0xaa]) as [l dev].
  set (s2 := Jtag (jtag_buf s1) dev (trace s1 ++ [EvWrite [0xaa] l])).
  assert (P2 : peak 1 s s2).
  { destruct P1 as (new & Htr & Hw & Hb). exists (new ++ [EvWrite [0xaa] l]).
    cbn [s2 trace]. split; [rewrite Htr, <- app_assoc; reflexivity|].
    split; [|exact Hb].
    apply writes_within_app; [exact Hw|].
    unfold writes_within. cbn. constructor; [|constructor].
    cbn [fst length]. unfold jtag_buf_i. lia. }
  clearbody s2.
  destruct (l <? 0); [exact (peak_then_exit _ _ _ _ _ P2 ltac:(lia))|].
  pose proof (peak_recv (upd uninit 0 0xaa) (Some 0) 2 s2) as P3.
  destruct (jtag_recv tp (upd uninit 0 0xaa) (Some 0) 2 s2) as [[r0 c] s3].
  cbn [snd] in P3.
  pose proof (peak_trans _ _ _ _ _ P2 P3 ltac:(lia)) as Q3.
  pose proof (peak_trans _ _ _ _ _ Q3 (peak_tap forceReset s3) ltac:(lia)) as Q4.
  cbn [tap_run] in Q4.
  pose proof (peak_trans _ _ _ _ _ Q4 (peak_tap resetToIdle (jtag_to_tlr s3)) ltac:(lia))
    as Q5.
  cbn [tap_run] in Q5.
  set (s4 := jtag_tlr_to_rti (jtag_to_tlr s3)) in *. clearbody s4.
  pose proof (peak_get_idcode idcode0 s4) as P5.
  destruct (jtag_get_idcode tp uninit idcode0 s4) as [[r1 idcode] s5].
  cbn [snd] in P5.
  pose proof (peak_trans _ _ _ _ _ Q5 P5 ltac:(lia)) as Q6.
  destruct (c_true r1); [exact (peak_then_exit _ _ _ _ _ Q6 ltac:(lia))|].
  destruct (negb (is_xilinx idcode)); [exact (peak_then_exit _ _ _ _ _ Q6 ltac:(lia))|].
  destruct (load_fdata alloc file st) as [r2 st1].
  destruct (c_true r2); [exact (peak_then_exit _ _ _ _ _ Q6 ltac:(lia))|].
  pose proof (peak_trans _ _ _ _ _ Q6 (peak_ir_write JTAG_INSTR_JSHUTDOWN s5) ltac:(lia))
    as Q7.
  set (s6 := jtag_ir_write JTAG_INSTR_JSHUTDOWN s5) in *. clearbody s6.
  change (Z.to_nat JTAG_SHUTDOWN_DELAY) with 500%nat.
  change (Z.to_nat JTAG_STARTUP_DELAY) with 500%nat.
  pose proof (peak_trans _ _ _ _ _ Q7 (peak_spins 500 s6) ltac:(lia)) as Q8.
  set (s7 := rti_spins tp 500 s6) in *. clearbody s7.
  pose proof (peak_trans _ _ _ _ _ Q8 (peak_ir_write JTAG_INSTR_CFG_IN s7) ltac:(lia))
    as Q9.
  set (s8 := jtag_ir_write JTAG_INSTR_CFG_IN s7) in *. clearbody s8.
  pose proof (peak_dr_op (fdata st1) None (flength st1 * 8) s8) as P9.
  destruct (jtag_dr_op tp uninit (fdata st1) None (flength st1 * 8) s8) as [[r3 t3] s9].
  cbn [snd] in P9.
  pose proof (peak_trans _ _ _ _ _ Q9 P9 ltac:(lia)) as Q10.
  change (Z.of_nat 500) with 500 in Q10.
  destruct (c_true r3); [exact (peak_then_exit _ _ _ _ _ Q10 ltac:(lia))|].
  pose proof (peak_trans _ _ _ _ _ Q10 (peak_ir_write JTAG_INSTR_JSTART s9) ltac:(lia))
    as Q11.
  set (s10 := jtag_ir_write JTAG_INSTR_JSTART s9) in *. clearbody s10.
  pose proof (peak_trans _ _ _ _ _ Q11 (peak_spins 500 s10) ltac:(lia)) as Q12.
  set (s11 := rti_spins tp 500 s10) in *. clearbody s11.
  pose proof (peak_trans _ _ _ _ _ Q12 (peak_tap forceReset s11) ltac:(lia)) as Q13.
  cbn [tap_run] in Q13.
  set (s12 := jtag_to_tlr s11) in *. clearbody s12.
  pose proof (peak_trans _ _ _ _ _ Q13 (peak_send s12) ltac:(lia)) as Q14.
  destruct (jtag_send tp s12) as [r4 s13]. cbn [snd] in Q14.
  change (Z.of_nat 500) with 500 in Q14.
  destruct (c_true r4); exact (peak_then_exit _ _ _ _ _ Q14 ltac:(lia)).
Qed.

(** X18.  Over a whole session of [main], whatever the device answers
    and however the session ends, neither the command buffer nor any block
    handed to [ftdi_write_data] ever holds more than 324627 bytes beyond
    those pending at the start: the sum of what every step appends, as if
    no flush ever emptied the buffer.  The appends are unchecked, but after
    [jtag_init] has flushed the buffer the session stays inside the block
    of [JTAG_BUFFER_SIZE] bytes. *)
Theorem main_session_in_block (alloc : option mem) (file : option (list Z))
    (st : bitfile) (s : jtag T) :
  let res := main_session tp uninit idcode0 alloc file st s in
  let new := new_events s (snd res) in
  trace (snd res) = trace s ++ new
  /\ writes_within (jtag_buf_i s + 324627) new
  /\ jtag_buf_i (snd res) <= jtag_buf_i s + 324627
  /\ (jtag_buf_i s <= JTAG_BUFFER_SIZE - 324627 ->
      in_block (snd res) /\ writes_within JTAG_BUFFER_SIZE new)
  /\ (fst (fst res) = 0 \/ fst (fst res) = 1)
  /\ fdata (snd (fst res)) = None.
Proof.
  intros res new.
  destruct (main_session_peak alloc file st s) as (ev & Htr & Hw & Hb).
  fold res in Htr, Hb. subst new. rewrite (new_events_app s (snd res) ev Htr).
  split; [exact Htr|]. split; [exact Hw|]. split; [exact Hb|].
  split.
  { intros Hs. split; [unfold in_block; lia|].
    eapply writes_within_weaken; [|exact Hw]. lia. }
  subst res. unfold main_session, main_exit.
  destruct (jtag_mpsse_sync tp uninit s) as [r s1].
  destruct (c_true r); [cbn [fst snd fdata]; split; [now right | reflexivity]|].
  destruct (ftdi_write_data tp (ftdi s1) [0xaa]) as [l dev].
  destruct (l <? 0); [cbn [fst snd fdata]; split; [now right | reflexivity]|].
  destruct (jtag_recv tp (upd uninit 0 0xaa) (Some 0) 2 _) as [[r0 c] s3].
  destruct (jtag_get_idcode tp uninit idcode0 _) as [[r1 idcode] s5].
  destruct (c_true r1); [cbn [fst snd fdata]; split; [now right | reflexivity]|].
  destruct (negb (is_xilinx idcode));
    [cbn [fst snd fdata]; split; [now right | reflexivity]|].
  destruct (load_fdata alloc file st) as [r2 st1].
  destruct (c_true r2); [cbn [fst snd fdata]; split; [now right | reflexivity]|].
  destruct (jtag_dr_op tp uninit (fdata st1) None (flength st1 * 8) _) as [[r3 t3] s9].
  destruct (c_true r3); [cbn [fst snd fdata]; split; [now right | reflexivity]|].
  destruct (jtag_send tp _) as [r4 s13].
  destruct (c_true r4); cbn [fst snd fdata]; split; (now right) || (now left) || reflexivity.
Qed.

End SessionPeak.


(** ** The split of the bit length, as the transfer shifts it *)

Lemma shifts_app (l1 l2 : list event) : shifts (l1 ++ l2) = shifts l1 ++ shifts l2.
Proof. unfold shifts. apply filter_app. Qed.

Lemma shifts_reads (reads : list event) : Forall is_read reads -> shifts reads = [].
Proof.
  induction 1 as [|e l He _ IH]; [reflexivity|].
  destruct e; try contradiction. exact IH.
Qed.

Lemma shifts_nil_chunks (l : list event) : shifts l = [] -> chunk_lengths l = [].
Proof.
  induction l as [|e l IH]; [reflexivity|].
  destruct e; cbn; intros H; try discriminate; exact (IH H).
Qed.

Lemma nonempty_buf_i {T} (s : jtag T) : 1 <= jtag_buf_i s -> jtag_buf s <> [].
Proof. unfold jtag_buf_i. intros H E. rewrite E in H. cbn in H. lia. Qed.

Section Split.
Context {T : Type} (tp : transport T) (uninit : mem).

(** A flush encodes no shift, and writes whenever there is something to
    write. *)
Lemma jtag_send_quiet (s : jtag T) :
  exists new : list event,
    trace (snd (jtag_send tp s)) = trace s ++ new
    /\ shifts new = []
    /\ (jtag_buf s <> [] -> writes_of new <> []).
Proof.
  destruct (jtag_send_spec tp s) as [[Hlt ->] | [_ (l & dev & _ & ->)]].
  - exists []. rewrite app_nil_r. cbn [snd]. split; [reflexivity|].
    split; [reflexivity|]. intros Hne. exfalso.
    unfold jtag_buf_i in Hlt. destruct (jtag_buf s); [contradiction | cbn in Hlt; lia].
  - eexists [_]. cbn [snd trace]. split; [reflexivity|].
    split; [reflexivity|]. intros _. discriminate.
Qed.

Lemma jtag_recv_quiet (p : mem) (rbuf : option Z) (n : Z) (s : jtag T) :
  exists new : list event,
    trace (snd (jtag_recv tp p rbuf n s)) = trace s ++ new /\ shifts new = [].
Proof.
  destruct (jtag_recv_spec tp p rbuf n s)
    as (n' & p' & s' & reads & -> & _ & _ & Htr & Hreads & _).
  cbn [snd]. exists (reads ++ [EvRecv n n']). split; [exact Htr|].
  rewrite shifts_app, (shifts_reads _ Hreads). reflexivity.
Qed.

Lemma jtag_recv_bits_quiet (p : mem) (off n : Z) (s : jtag T) :
  exists new : list event,
    trace (snd (jtag_recv_bits tp uninit p off n s)) = trace s ++ new
    /\ shifts new = [].
Proof.
  unfold jtag_recv_bits. destruct ((n <? 1) || (n >? 8)).
  { exists []. rewrite app_nil_r. split; reflexivity. }
  destruct (jtag_recv_quiet uninit (Some 0) (if n >? 1 then 2 else 1) s)
    as (new & Htr & Hq).
  destruct (jtag_recv tp uninit (Some 0) (if n >? 1 then 2 else 1) s) as [[r rbuf] s1].
  cbn [snd] in *. exists new. destruct (c_true r); cbn [snd]; split; assumption.
Qed.

(** The chunk loop encodes byte-mode commands only.  Left by its
    condition, it has encoded all of [bytes_remaining], in one command
    when they fit one chunk; it is left by a [return 1] only after a flush,
    with bytes still to go, which takes more than one chunk. *)
Lemma dr_chunks_shifts (fuel : nat) :
  forall (tdi tdo : option mem) (bytes_remaining chunk_length tdi_i tdo_i : Z)
         (s : jtag T) (ex : loop_exit T),
    dr_chunks tp fuel tdi tdo bytes_remaining chunk_length tdi_i tdo_i s = Some ex ->
    exists new : list event,
      trace (exit_state ex) = trace s ++ new
      /\ shifts new = map (fun c => EvShiftBytes c (is_some tdo)) (chunk_lengths new)
      /\ (jtag_buf s <> [] -> writes_of new <> [] \/ jtag_buf (exit_state ex) <> [])
      /\ match ex with
         | LoopReturn r _ _ =>
             r = 1
             /\ 0 <= zsum (chunk_lengths new) < bytes_remaining
             /\ JTAG_CHUNK_SIZE < bytes_remaining
             /\ writes_of new <> []
         | LoopDone _ _ _ tdo' _ =>
             is_some tdo' = is_some tdo
             /\ zsum (chunk_lengths new) = Z.max 0 bytes_remaining
             /\ (bytes_remaining <= JTAG_CHUNK_SIZE ->
                 chunk_lengths new
                 = if bytes_remaining >? 0 then [bytes_remaining] else [])
         end.
Proof.
  assert (Hbase : forall (tdo : option mem) (br cl0 ti to : Z) (s : jtag T),
             br <= 0 ->
             exists new : list event,
               trace s = trace s ++ new
               /\ shifts new = map (fun c => EvShiftBytes c (is_some tdo)) (chunk_lengths new)
               /\ (jtag_buf s <> [] -> writes_of new <> [] \/ jtag_buf s <> [])
               /\ is_some tdo = is_some tdo
               /\ zsum (chunk_lengths new) = Z.max 0 br
               /\ (br <= JTAG_CHUNK_SIZE ->
                   chunk_lengths new = if br >? 0 then [br] else [])).
  { intros tdo br cl0 ti to s Hle. exists []. rewrite app_nil_r.
    split; [reflexivity|]. split; [reflexivity|]. split; [intros H; right; exact H|].
    split; [reflexivity|]. split; [change (zsum (chunk_lengths [])) with 0; lia|].
    intros _. destruct (Z.gtb_spec br 0); [lia | reflexivity]. }
  induction fuel as [|fuel IH];
    intros tdi tdo bytes_remaining chunk_length tdi_i tdo_i s ex Hloop.
  { destruct (Z.le_gt_cases bytes_remaining 0) as [Hle | Hpos].
    - rewrite dr_chunks_done in Hloop by exact Hle. injection Hloop as <-.
      cbn [exit_state]. exact (Hbase tdo bytes_remaining chunk_length tdi_i tdo_i s Hle).
    - cbn [dr_chunks] in Hloop.
      assert (Eg : (bytes_remaining >? 0) = true)
        by (destruct (Z.gtb_spec bytes_remaining 0); [reflexivity | lia]).
      rewrite Eg in Hloop. discriminate. }
  destruct (Z.le_gt_cases bytes_remaining 0) as [Hle | Hpos].
  { rewrite dr_chunks_done in Hloop by exact Hle. injection Hloop as <-.
    cbn [exit_state]. exact (Hbase tdo bytes_remaining chunk_length tdi_i tdo_i s Hle). }
  assert (Eg : (bytes_remaining >? 0) = true)
    by (destruct (Z.gtb_spec bytes_remaining 0); [reflexivity | lia]).
  cbn [dr_chunks] in Hloop. rewrite Eg in Hloop.
  set (cl := if bytes_remaining >? JTAG_CHUNK_SIZE then JTAG_CHUNK_SIZE
             else bytes_remaining) in Hloop.
  assert (Hcl : 1 <= cl <= JTAG_CHUNK_SIZE
                /\ (cl = bytes_remaining
                    \/ (cl = JTAG_CHUNK_SIZE /\ JTAG_CHUNK_SIZE < bytes_remaining))).
  { subst cl. unfold JTAG_CHUNK_SIZE.
    destruct (Z.gtb_spec bytes_remaining 32768); lia. }
  destruct (jtag_shift_bytes_peak (option_map (fun p => shift_ptr p tdi_i) tdi) cl
              (is_some tdo) s ltac:(lia)) as (Htr1 & Hb1).
  set (s1 := jtag_shift_bytes _ cl (is_some tdo) s) in *. clearbody s1.
  assert (Hne1 : jtag_buf s1 <> []).
  { apply nonempty_buf_i. unfold jtag_buf_i in *. lia. }
  destruct (Z.gtb_spec (bytes_remaining - cl) 0) as [Hmore | Hlast].
  2:{ rewrite dr_chunks_done in Hloop by lia. injection Hloop as <-.
      cbn [exit_state]. exists [EvShiftBytes cl (is_some tdo)].
      split; [exact Htr1|]. split; [reflexivity|].
      split; [intros _; right; exact Hne1|]. split; [reflexivity|].
      change (zsum (chunk_lengths [EvShiftBytes cl (is_some tdo)])) with (cl + 0).
      change (chunk_lengths [EvShiftBytes cl (is_some tdo)]) with [cl].
      split; [lia|]. intros _. rewrite Eg. f_equal. lia. }
  (* another chunk follows: flush, receive, go round *)
  destruct (jtag_send_spec tp s1) as [[Hempty _] | [_ (l & dev & _ & Hsend)]].
  { exfalso. unfold jtag_buf_i in *. lia. }
  rewrite Hsend in Hloop. clear Hsend.
  set (f := is_some tdo) in *.
  set (pre := [EvShiftBytes cl f; EvWrite (jtag_buf s1) l]).
  assert (Hpre : trace s1 ++ [EvWrite (jtag_buf s1) l] = trace s ++ pre).
  { rewrite Htr1, <- app_assoc. reflexivity. }
  assert (Hsh : shifts pre = [EvShiftBytes cl f]) by reflexivity.
  assert (Hch : chunk_lengths pre = [cl]) by reflexivity.
  assert (Hwr : forall rest, writes_of (pre ++ rest) <> []) by (intros rest; discriminate).
  destruct (l =? jtag_buf_i s1); cbn [c_true Z.eqb negb] in Hloop.
  2:{ injection Hloop as <-. cbn [exit_state trace]. exists pre.
      split; [exact Hpre|]. split; [reflexivity|].
      split; [intros _; left; discriminate|]. split; [reflexivity|].
      rewrite Hch. change (zsum [cl]) with (cl + 0).
      split; [lia|]. split; [lia | discriminate]. }
  assert (Hstep : forall (tdo1 : option mem) (ti1 to1 : Z) (s3 : jtag T)
                         (ev : list event),
             is_some tdo1 = f ->
             trace s3 = trace s ++ pre ++ ev -> shifts ev = [] ->
             dr_chunks tp fuel tdi tdo1 (bytes_remaining - cl) cl ti1 to1 s3 = Some ex ->
             exists new : list event,
               trace (exit_state ex) = trace s ++ new
               /\ shifts new = map (fun c => EvShiftBytes c f) (chunk_lengths new)
               /\ (jtag_buf s <> [] -> writes_of new <> [] \/ jtag_buf (exit_state ex) <> [])
               /\ match ex with
                  | LoopReturn r _ _ =>
                      r = 1
                      /\ 0 <= zsum (chunk_lengths new) < bytes_remaining
                      /\ JTAG_CHUNK_SIZE < bytes_remaining
                      /\ writes_of new <> []
                  | LoopDone _ _ _ tdo' _ =>
                      is_some tdo' = f
                      /\ zsum (chunk_lengths new) = Z.max 0 bytes_remaining
                      /\ (bytes_remaining <= JTAG_CHUNK_SIZE ->
                          chunk_lengths new
                          = if bytes_remaining >? 0 then [bytes_remaining] else [])
                  end).
  { intros tdo1 ti1 to1 s3 ev Hf Htr3 Hev Hrec.
    destruct (IH _ _ _ _ _ _ _ _ Hrec) as (new' & Htr' & Hsh' & _ & Hex).
    rewrite Hf in Hsh'.
    exists ((pre ++ ev) ++ new').
    split; [rewrite Htr', Htr3, <- !app_assoc; reflexivity|].
    assert (Hc : chunk_lengths ((pre ++ ev) ++ new') = cl :: chunk_lengths new').
    { rewrite !chunk_lengths_app, Hch, (shifts_nil_chunks _ Hev). reflexivity. }
    split.
    { rewrite !shifts_app, Hsh, Hev, Hsh', Hc. reflexivity. }
    assert (Hw : writes_of ((pre ++ ev) ++ new') <> []).
    { rewrite <- app_assoc. apply Hwr. }
    split; [intros _; left; exact Hw|].
    rewrite Hc. change (zsum (cl :: chunk_lengths new')) with (cl + zsum (chunk_lengths new')).
    destruct ex as [r t1 s' | c1 i1 o1 t1 s'].
    - destruct Hex as (-> & Hsum & Hbig & _).
      split; [reflexivity|]. split; [lia|]. split; [lia | exact Hw].
    - destruct Hex as (Hsome & Hsum & _). rewrite Hf in Hsome.
      split; [exact Hsome|]. split; [lia|]. intros Hfit. lia. }
  destruct tdo as [p|].
  - destruct (jtag_recv_quiet p (Some tdo_i) cl
                (Jtag [] dev (trace s1 ++ [EvWrite (jtag_buf s1) l])))
      as (ev & Htr3 & Hev).
    destruct (jtag_recv tp p (Some tdo_i) cl _) as [[r2 p1] s3]. cbn [snd] in Htr3.
    cbn [trace] in Htr3. rewrite Hpre, <- app_assoc in Htr3.
    destruct (c_true r2).
    + injection Hloop as <-. cbn [exit_state]. exists (pre ++ ev).
      split; [exact Htr3|].
      assert (Hc : chunk_lengths (pre ++ ev) = [cl]).
      { rewrite chunk_lengths_app, Hch, (shifts_nil_chunks _ Hev). reflexivity. }
      split; [rewrite shifts_app, Hsh, Hev, Hc; reflexivity|].
      split; [intros _; left; apply Hwr|]. split; [reflexivity|].
      rewrite Hc. change (zsum [cl]) with (cl + 0).
      split; [lia|]. split; [lia | apply Hwr].
    + exact (Hstep (Some p1) _ _ s3 ev eq_refl Htr3 Hev Hloop).
  - refine (Hstep None _ _ (Jtag [] dev (trace s1 ++ [EvWrite (jtag_buf s1) l])) []
              eq_refl _ eq_refl Hloop).
    cbn [trace]. rewrite app_nil_r. exact Hpre.
Qed.

(** What follows the loop: the tail if there is one, then transport calls
    only, the first of them a write. *)
Lemma dr_finish_shifts (tdi : option mem) (bits cl ti to : Z) (tdo : option mem)
    (s : jtag T) :
  exists rest : list event,
    trace (snd (dr_finish tp uninit tdi bits cl ti to tdo s))
    = trace s ++ (if bits >? 0 then [EvShiftBits bits (is_some tdo)] else []) ++ rest
    /\ shifts rest = []
    /\ writes_of rest <> [].
Proof.
  unfold dr_finish.
  set (tl := if bits >? 0 then [EvShiftBits bits (is_some tdo)] else []).
  assert (Htr1 : trace (if bits >? 0
                        then jtag_shift_bits (option_map (fun p => shift_ptr p ti) tdi)
                               bits (is_some tdo) s
                        else s) = trace s ++ tl).
  { subst tl. destruct (bits >? 0).
    - apply jtag_shift_bits_peak.
    - rewrite app_nil_r. reflexivity. }
  set (s1 := if bits >? 0 then _ else s) in *. clearbody s1.
  destruct (tap_run_peak exit1DRToIdle s1) as (Htr2 & Hb2). cbn [tap_run] in Htr2, Hb2.
  set (s2 := jtag_exit1_dr_to_rti s1) in *. clearbody s2.
  destruct (jtag_send_spec tp s2) as [[Hempty _] | [_ (l & dev & _ & Hsend)]].
  { exfalso. unfold jtag_buf_i in *. lia. }
  rewrite Hsend. clear Hsend.
  set (w := EvWrite (jtag_buf s2) l).
  assert (Hw : trace s2 ++ [w] = trace s ++ tl ++ [w])
    by (rewrite Htr2, Htr1, <- app_assoc; reflexivity).
  destruct (l =? jtag_buf_i s2); cbn [c_true Z.eqb negb].
  2:{ cbn [snd trace]. exists [w]. split; [exact Hw|]. split; [reflexivity | discriminate]. }
  destruct tdo as [p|].
  2:{ cbn [snd trace]. exists [w]. split; [exact Hw|]. split; [reflexivity | discriminate]. }
  set (s3 := Jtag [] dev (trace s2 ++ [w])).
  assert (Htr3 : trace s3 = trace s ++ tl ++ [w]) by exact Hw.
  clearbody s3.
  assert (H4 : exists ev4 : list event,
             trace (snd (if cl >? 0 then jtag_recv tp p (Some to) cl s3 else (0, p, s3)))
             = trace s3 ++ ev4 /\ shifts ev4 = []).
  { destruct (cl >? 0).
    - apply jtag_recv_quiet.
    - exists []. rewrite app_nil_r. split; reflexivity. }
  destruct H4 as (ev4 & Htr4 & Hq4).
  destruct (if cl >? 0 then jtag_recv tp p (Some to) cl s3 else (0, p, s3))
    as [[r1 p1] s4]. cbn [snd] in Htr4.
  assert (Htr14 : trace s4 = trace s ++ tl ++ [w] ++ ev4)
    by (rewrite Htr4, Htr3, <- !app_assoc; reflexivity).
  assert (Hfin4 : exists rest : list event,
             trace s4 = trace s ++ tl ++ rest /\ shifts rest = [] /\ writes_of rest <> []).
  { exists ([w] ++ ev4). split; [exact Htr14|].
    split; [rewrite shifts_app, Hq4; reflexivity | discriminate]. }
  destruct (c_true r1); [exact Hfin4|].
  destruct (bits >? 0); [|exact Hfin4].
  destruct (jtag_recv_bits_quiet p1 (if cl >? 0 then to + cl else to) bits s4)
    as (ev5 & Htr5 & Hq5).
  destruct (jtag_recv_bits tp uninit p1 (if cl >? 0 then to + cl else to) bits s4)
    as [[r2 p2] s5]. cbn [snd] in Htr5.
  assert (Hfin5 : exists rest : list event,
             trace s5 = trace s ++ tl ++ rest /\ shifts rest = [] /\ writes_of rest <> []).
  { exists (([w] ++ ev4) ++ ev5).
    split; [rewrite Htr5, Htr14, <- !app_assoc; reflexivity|].
    split; [rewrite !shifts_app, Hq4, Hq5; reflexivity | discriminate]. }
  destruct (c_true r2); exact Hfin5.
Qed.

(** The whole transfer with at least one buffer.  Either the loop was left
    by its condition, and the shift commands are byte-mode commands for all
    the whole bytes followed by the tail (when its length is positive); or
    a chunk could not be flushed or received, and the transfer returned 1
    with whole bytes still to go.  Either way the transport was written
    to. *)
Lemma jtag_dr_op_shifts (tdi tdo : option mem) (n : Z) (s : jtag T) :
  is_some tdi || is_some tdo = true ->
  exists new : list event,
    trace (snd (jtag_dr_op tp uninit tdi tdo n s)) = trace s ++ new
    /\ writes_of new <> []
    /\ ((shifts new
         = map (fun c => EvShiftBytes c (is_some tdo)) (chunk_lengths new)
           ++ (if tail_bits n >? 0 then [EvShiftBits (tail_bits n) (is_some tdo)]
               else [])
         /\ zsum (chunk_lengths new) = Z.max 0 (whole_bytes n)
         /\ (whole_bytes n <= JTAG_CHUNK_SIZE ->
             chunk_lengths new = if whole_bytes n >? 0 then [whole_bytes n] else []))
        \/ (fst (fst (jtag_dr_op tp uninit tdi tdo n s)) = 1
            /\ shifts new = map (fun c => EvShiftBytes c (is_some tdo)) (chunk_lengths new)
            /\ 0 <= zsum (chunk_lengths new) < whole_bytes n
            /\ JTAG_CHUNK_SIZE < whole_bytes n)).
Proof.
  intros Hbuf. unfold jtag_dr_op.
  assert (Hnull : negb (is_some tdi) && negb (is_some tdo) = false)
    by (destruct tdi, tdo; try reflexivity; discriminate).
  rewrite Hnull.
  destruct (tap_run_peak idleToShiftDR s) as (Htr1 & Hb1). cbn [tap_run] in Htr1, Hb1.
  set (s1 := jtag_rti_to_shift_dr s) in *. clearbody s1.
  assert (Hne1 : jtag_buf s1 <> []).
  { apply nonempty_buf_i. unfold jtag_buf_i in *. lia. }
  destruct (dr_chunks_spec tp (Z.to_nat (whole_bytes n)) tdi tdo (whole_bytes n) 0 0 0 s1)
    as (ex & new0 & Hloop & _); [lia|].
  rewrite Hloop.
  destruct (dr_chunks_shifts _ _ _ _ _ _ _ _ _ Hloop) as (new1 & Htr2 & Hsh & Hwr & Hex).
  destruct ex as [r tdo' s' | cl ti to tdo' s']; cbn [exit_state] in Htr2, Hwr.
  - destruct Hex as (-> & Hsum & Hbig & Hw). cbn [fst snd].
    exists new1. split; [rewrite Htr2, Htr1; reflexivity|]. split; [exact Hw|].
    right. split; [reflexivity|]. split; [exact Hsh|]. split; assumption.
  - destruct Hex as (Hsome & Hsum & Hone).
    destruct (dr_finish_shifts tdi (tail_bits n) cl ti to tdo' s')
      as (rest & Htr3 & Hq & Hw).
    rewrite Hsome in Htr3.
    exists (new1 ++ (if tail_bits n >? 0 then [EvShiftBits (tail_bits n) (is_some tdo)]
                     else []) ++ rest).
    split; [rewrite Htr3, Htr2, Htr1, <- !app_assoc; reflexivity|].
    split.
    { rewrite !writes_of_app. intros E. apply app_eq_nil in E as [_ E].
      apply app_eq_nil in E as [_ E]. exact (Hw E). }
    left.
    assert (Hc : chunk_lengths
                   (new1 ++ (if tail_bits n >? 0
                             then [EvShiftBits (tail_bits n) (is_some tdo)] else [])
                         ++ rest) = chunk_lengths new1).
    { rewrite !chunk_lengths_app, (shifts_nil_chunks _ Hq).
      destruct (tail_bits n >? 0); cbn; rewrite app_nil_r; reflexivity. }
    rewrite Hc. split; [|split; assumption].
    rewrite !shifts_app, Hsh, Hq, app_nil_r.
    destruct (tail_bits n >? 0); reflexivity.
Qed.

(** C2.  For every bit length [n >= 1], [jtag_dr_op] splits [n] into
    [wholeBytes = (n-1)/8] (rounded down) and [tailBits = n - wholeBytes*8],
    with [tailBits] in 1..8: for [n] in 1..8 the split is [(0, n)], for 9 it
    is [(1, 1)] and for 16 it is [(1, 8)].  And this is what the transfer
    shifts, over every transport: its shift commands are byte-mode commands
    whose lengths sum to [wholeBytes], followed by one bit-mode tail of
    [tailBits] bits, unless a chunk could not be flushed or received, in
    which case it returns 1 with whole bytes still to go.  When the whole
    bytes fit one chunk nothing can fail before the tail, and the shift
    commands are the one byte-mode command (none for [wholeBytes = 0]) and
    the tail; a transfer that returns 0 has shifted [8 * wholeBytes +
    tailBits = n] bits. *)
Theorem dr_split (tdi tdo : option mem) (n : Z) (s : jtag T) :
  1 <= n -> is_some tdi || is_some tdo = true ->
  let res := jtag_dr_op tp uninit tdi tdo n s in
  let new := new_events s (snd res) in
  let chunk := fun c => EvShiftBytes c (is_some tdo) in
  let tail := EvShiftBits (tail_bits n) (is_some tdo) in
  whole_bytes n = (n - 1) / 8
  /\ tail_bits n = n - whole_bytes n * 8
  /\ 1 <= tail_bits n <= 8
  /\ (n <= 8 -> whole_bytes n = 0 /\ tail_bits n = n)
  /\ (whole_bytes 9 = 1 /\ tail_bits 9 = 1)
  /\ (whole_bytes 16 = 1 /\ tail_bits 16 = 8)
  /\ ((shifts new = map chunk (chunk_lengths new) ++ [tail]
       /\ zsum (chunk_lengths new) = whole_bytes n)
      \/ (fst (fst res) = 1
          /\ shifts new = map chunk (chunk_lengths new)
          /\ 0 <= zsum (chunk_lengths new) < whole_bytes n
          /\ JTAG_CHUNK_SIZE < whole_bytes n))
  /\ (whole_bytes n <= JTAG_CHUNK_SIZE ->
      shifts new
      = (if whole_bytes n >? 0 then [chunk (whole_bytes n)] else []) ++ [tail])
  /\ (fst (fst res) = 0 ->
      shifts new = map chunk (chunk_lengths new) ++ [tail]
      /\ 8 * zsum (chunk_lengths new) + tail_bits n = n).
Proof.
  intros Hn Hbuf res new chunk tail.
  assert (Hq : whole_bytes n = (n - 1) / 8).
  { unfold whole_bytes. apply Z.quot_div_nonneg; lia. }
  assert (Ht : tail_bits n = n - whole_bytes n * 8) by reflexivity.
  pose proof (tail_bits_range n Hn) as Hrange.
  pose proof (Z.div_mod (n - 1) 8 ltac:(lia)) as Hdm.
  pose proof (Z.mod_pos_bound (n - 1) 8 ltac:(lia)) as Hm.
  assert (Hw0 : 0 <= whole_bytes n) by (rewrite Hq; apply Z.div_pos; lia).
  split; [exact Hq|]. split; [exact Ht|]. split; [exact Hrange|].
  split.
  { intros H8. assert ((n - 1) / 8 = 0) by (apply Z.div_small; lia). lia. }
  split; [split; reflexivity|]. split; [split; reflexivity|].
  destruct (jtag_dr_op_shifts tdi tdo n s Hbuf) as (ev & Htr & _ & Hcases).
  fold res in Htr, Hcases. subst new. rewrite (new_events_app s (snd res) ev Htr).
  assert (Hpos : (tail_bits n >? 0) = true)
    by (destruct (Z.gtb_spec (tail_bits n) 0); [reflexivity | lia]).
  rewrite Hpos in Hcases. rewrite Z.max_r in Hcases by exact Hw0.
  split; [|split].
  - destruct Hcases as [(Hsh & Hsum & _) | Hfail]; [left | right; exact Hfail].
    split; assumption.
  - intros Hfit. destruct Hcases as [(Hsh & _ & Hone) | (_ & _ & _ & Hbig)]; [|lia].
    rewrite Hsh, (Hone Hfit). destruct (whole_bytes n >? 0); reflexivity.
  - intros Hres. destruct Hcases as [(Hsh & Hsum & _) | (Hfail & _)]; [|lia].
    split; [exact Hsh | lia].
Qed.

(** C8, as the code has it.  The transfer is refused, with nothing encoded
    and the state as it was, exactly when neither buffer is supplied,
    whatever the bit length.  With a buffer supplied the bit length is not
    looked at: the transfer always reaches the transport, and at a bit
    length of zero it makes exactly one write, of the pending bytes
    followed by the entry into Shift-DR and the exit sequence with no shift
    between them, makes no read, hands back the capture array, and returns
    the result of that flush. *)
Theorem dr_op_argument_check (tdi tdo : option mem) (n : Z) (s : jtag T) :
  let res := jtag_dr_op tp uninit tdi tdo n s in
  let new := new_events s (snd res) in
  (is_some tdi || is_some tdo = false -> res = (1, tdo, s))
  /\ (is_some tdi || is_some tdo = true -> writes_of new <> [])
  /\ (snd res = s <-> is_some tdi || is_some tdo = false)
  /\ (is_some tdi || is_some tdo = true -> n = 0 ->
      exists l : Z,
        new = [EvWrite (jtag_buf s ++ [0x4b; 2; 0x81; 0x4b; 1; 0x81]) l]
        /\ snd (fst res) = tdo
        /\ (fst (fst res) = 0 <-> l = jtag_buf_i s + 6)
        /\ (fst (fst res) = 1 <-> l <> jtag_buf_i s + 6)).
Proof.
  intros res new.
  assert (H1 : is_some tdi || is_some tdo = false -> res = (1, tdo, s)).
  { intros Hnone. subst res. unfold jtag_dr_op.
    destruct tdi, tdo; try discriminate. reflexivity. }
  assert (H2 : is_some tdi || is_some tdo = true ->
               writes_of new <> [] /\ snd res <> s).
  { intros Hbuf.
    destruct (jtag_dr_op_shifts tdi tdo n s Hbuf) as (ev & Htr & Hw & _).
    fold res in Htr. subst new. rewrite (new_events_app s (snd res) ev Htr).
    split; [exact Hw|]. intros E. rewrite E in Htr.
    rewrite <- (app_nil_r (trace s)) in Htr at 1. apply app_inv_head in Htr.
    subst ev. apply Hw. reflexivity. }
  split; [exact H1|]. split; [intros Hbuf; exact (proj1 (H2 Hbuf))|].
  split.
  { split.
    - intros E. destruct (is_some tdi || is_some tdo) eqn:Hb; [|reflexivity].
      exfalso. exact (proj2 (H2 eq_refl) E).
    - intros Hnone. rewrite (H1 Hnone). reflexivity. }
  intros Hbuf ->.
  assert (Hnull : negb (is_some tdi) && negb (is_some tdo) = false)
    by (destruct tdi, tdo; try reflexivity; discriminate).
  assert (Hform : res = let '(r, s') := jtag_send tp (jtag_exit1_dr_to_rti
                                                       (jtag_rti_to_shift_dr s)) in
                        (if c_true r then 1 else 0, tdo, s')).
  { subst res. unfold jtag_dr_op. rewrite Hnull.
    change (whole_bytes 0) with 0. change (tail_bits 0) with 0.
    cbn [Z.to_nat dr_chunks Z.gtb Z.compare]. unfold dr_finish.
    cbn [Z.gtb Z.compare].
    destruct (jtag_send tp _) as [r s3].
    destruct (c_true r); [reflexivity|]. destruct tdo; reflexivity. }
  subst new. rewrite Hform. clear Hform.
  unfold jtag_exit1_dr_to_rti, jtag_rti_to_shift_dr. rewrite !put_put_put.
  cbn [jtag_buf ftdi trace]. rewrite <- app_assoc.
  change ([to_uchar TMS_OPCODE; to_uchar 2; to_uchar 0x81]
          ++ [to_uchar TMS_OPCODE; to_uchar 1; to_uchar 0x81])
    with [0x4b; 2; 0x81; 0x4b; 1; 0x81].
  set (s2 := Jtag (jtag_buf s ++ [0x4b; 2; 0x81; 0x4b; 1; 0x81]) (ftdi s) (trace s)).
  assert (Hlen : jtag_buf_i s2 = jtag_buf_i s + 6).
  { unfold jtag_buf_i. cbn [s2 jtag_buf]. rewrite length_app. cbn [length]. lia. }
  destruct (jtag_send_spec tp s2) as [[Hempty _] | [_ (l & dev & _ & Hsend)]].
  { exfalso. unfold jtag_buf_i in *. lia. }
  rewrite Hsend, Hlen. cbn [s2 jtag_buf trace].
  exists l. cbn [fst snd].
  rewrite (new_events_app s
             (Jtag (if l =? jtag_buf_i s + 6 then []
                    else jtag_buf s ++ [0x4b; 2; 0x81; 0x4b; 1; 0x81]) dev
                (trace s ++ [EvWrite (jtag_buf s ++ [0x4b; 2; 0x81; 0x4b; 1; 0x81]) l]))
             [EvWrite (jtag_buf s ++ [0x4b; 2; 0x81; 0x4b; 1; 0x81]) l] eq_refl).
  split; [reflexivity|]. split; [reflexivity|].
  destruct (Z.eqb_spec l (jtag_buf_i s + 6)) as [Hl | Hl]; cbn [c_true Z.eqb negb].
  - split; split; intros; (reflexivity || assumption || discriminate || contradiction).
  - split; split; intros; (reflexivity || assumption || discriminate || contradiction).
Qed.

End Split.

Lemma dr_split_witness :
  1 <= 12 /\ is_some (Some (fun _ : Z => 0xa5)) || is_some (@None mem) = true
  /\ shifts (new_events Bridge.start
               (snd (jtag_dr_op Bridge.tp (fun _ => 0) (Some (fun _ => 0xa5)) None 12
                       Bridge.start)))
     = [EvShiftBytes 1 false; EvShiftBits 4 false].
Proof.
  split; [lia|]. split; [reflexivity|].
  destruct (dr_split Bridge.tp (fun _ => 0) (Some (fun _ => 0xa5)) None 12 Bridge.start
              ltac:(lia) eq_refl) as (_ & _ & _ & _ & _ & _ & _ & Hone & _).
  assert (Hfit : whole_bytes 12 <= JTAG_CHUNK_SIZE) by (change (1 <= 32768); lia).
  exact (Hone Hfit).
Defined.
